(** * pipeline-bot: the command core over a spreadsheet row store

    A shallow embedding of [pipeline.py] (the row store adapter) and of the
    reply parsing and action dispatch of [bot.py], with the properties of the
    specification stated over it.

    Conventions of the embedding.
    - Python text is a Rocq [string], one [ascii] per code unit of its UTF-8
      form.  [str.lower] is a parameter, the class [Py.CaseMapping], of
      which only the value on ASCII text is known: every property holds
      for the case mapping of Unicode as for any other that lowers ASCII
      text letter by letter.  White space is that of ASCII, on which
      [str.strip] agrees with the definition below.
    - The values a JSON reply can hold are the inductive [value]; a Python
      [dict] is an association list in insertion order with unique keys.
    - The remote sheet is explicit state: the grid of cell texts together
      with the log of the write requests issued so far.  A call that raises
      keeps the state reached before it, so partial application is visible.
    - The language-model call is represented by the text it returns, the
      clock by the class [Clock], and the store's "as typed" reading of a
      written value by the class [SheetsBackend].  Connecting to the
      service ([get_sheets_service]) and reading the grid are taken to
      succeed; a property of [chat] or of a handler that needs the read
      says so.
    - [chat], the interactive loop and the handlers of the chat platform
      are embedded with the text of an exception message left to the class
      [ExceptionText]; the wiring of the platform, the environment and the
      credential bootstrap are not part of the embedding. *)

From Stdlib Require Import String Ascii List Bool Arith ZArith Lia.
From Stdlib Require Import Decimal DecimalString DecimalPos.
Import ListNotations.

Local Open Scope list_scope.
Local Open Scope string_scope.
Local Open Scope nat_scope.

(** ** Python's built-in text operations *)

Module Py.

Definition is_upper (c : ascii) : bool :=
  let n := nat_of_ascii c in (65 <=? n) && (n <=? 90).

Definition lower_char (c : ascii) : ascii :=
  if is_upper c then ascii_of_nat (nat_of_ascii c + 32) else c.

(** The letters A to Z lowered, every other code unit kept. *)
Fixpoint ascii_lower (s : string) : string :=
  match s with
  | EmptyString => EmptyString
  | String c s' => String (lower_char c) (ascii_lower s')
  end.

(** [s.isascii()] *)
Fixpoint is_ascii (s : string) : bool :=
  match s with
  | EmptyString => true
  | String c s' => (nat_of_ascii c <? 128) && is_ascii s'
  end.

(** [s.lower()].  Python lowers every cased letter of Unicode, by rules
    that look at the neighbouring characters and can change the length of
    the text.  The function is a parameter of the development; what is
    known of it is its value on text of ASCII characters, where it lowers
    the letters A to Z and keeps everything else. *)
Class CaseMapping : Type := {
  lower : string -> string;
  lower_ascii : forall s, is_ascii s = true -> lower s = ascii_lower s
}.

(** [s.startswith(p)] *)
Fixpoint startswith (s p : string) {struct p} : bool :=
  match p, s with
  | EmptyString, _ => true
  | String _ _, EmptyString => false
  | String a p', String b s' => Ascii.eqb a b && startswith s' p'
  end.

(** [needle in hay] on text: [needle] occurs as a contiguous run. *)
Fixpoint contains (needle hay : string) : bool :=
  startswith hay needle
  || match hay with
     | EmptyString => false
     | String _ hay' => contains needle hay'
     end.

(** White space as [str.isspace] sees it below 128: tab, line feed,
    vertical tab, form feed, carriage return, the four separators
    28 to 31, and the space. *)
Definition is_space (c : ascii) : bool :=
  let n := nat_of_ascii c in
  ((9 <=? n) && (n <=? 13)) || ((28 <=? n) && (n <=? 32)).

Fixpoint lstrip (s : string) : string :=
  match s with
  | EmptyString => EmptyString
  | String c s' => if is_space c then lstrip s' else s
  end.

(** Drops the trailing white space: a character is kept when something
    that is kept follows it, or when it is not white space itself. *)
Fixpoint rstrip (s : string) : string :=
  match s with
  | EmptyString => EmptyString
  | String c s' =>
      match rstrip s' with
      | EmptyString => if is_space c then EmptyString else String c EmptyString
      | r => String c r
      end
  end.

(** [s.strip()] *)
Definition strip (s : string) : string := rstrip (lstrip s).

(** [s[n:]] *)
Fixpoint drop (n : nat) (s : string) : string :=
  match n, s with
  | O, _ => s
  | S _, EmptyString => EmptyString
  | S n', String _ s' => drop n' s'
  end.

(** [s.split(sep)] for a non-empty separator: the pieces between the
    occurrences of [sep], found from the left without overlap.  [skip]
    counts the characters of a separator that are still to be passed over
    and [piece] holds the piece read so far. *)
Fixpoint split_from (sep : string) (skip : nat) (piece : string) (s : string)
  : list string :=
  match s with
  | EmptyString => [piece]
  | String c s' =>
      match skip with
      | S k => split_from sep k piece s'
      | O =>
          if startswith s sep
          then piece :: split_from sep (String.length sep - 1) EmptyString s'
          else split_from sep 0 (piece ++ String c EmptyString) s'
      end
  end.

Definition split (s sep : string) : list string :=
  split_from sep 0 EmptyString s.

(** [s.replace(old, new)] for a non-empty [old], with the same
    left-to-right scan as [split]. *)
Fixpoint replace_from (old new : string) (skip : nat) (s : string) : string :=
  match s with
  | EmptyString => EmptyString
  | String c s' =>
      match skip with
      | S k => replace_from old new k s'
      | O =>
          if startswith s old
          then new ++ replace_from old new (String.length old - 1) s'
          else String c (replace_from old new 0 s')
      end
  end.

Definition replace (s old new : string) : string :=
  replace_from old new 0 s.

(** [sep.join(parts)] *)
Fixpoint join (sep : string) (parts : list string) : string :=
  match parts with
  | [] => EmptyString
  | [p] => p
  | p :: rest => p ++ sep ++ join sep rest
  end.

(** Decimal text of an integer, as [str(n)] prints it. *)
Definition str_of_Z (z : Z) : string := NilZero.string_of_int (Z.to_int z).

End Py.

(** ** Python values and dictionaries *)

(** What [json.loads] can return, which is also what flows through the
    executor.  A number with a fraction or an exponent (and [NaN],
    [Infinity]) is kept by its source text: its floating-point value is not
    part of this model. *)
#[warnings="-register-all"]
Inductive value : Type :=
| VNone
| VBool (b : bool)
| VInt (z : Z)
| VFloat (lexeme : string)
| VStr (s : string)
| VList (items : list value)
| VDict (entries : list (string * value)).

(** A [dict] with text keys, in insertion order. *)
Definition dict : Type := list (string * value).

(** A deal as [get_all_deals] builds it: one dict holding [row_number] and
    the cells of the row under the normalized header names. *)
Definition deal : Type := dict.

Module Dict.

(** [k in d] *)
Fixpoint mem (d : dict) (k : string) : bool :=
  match d with
  | [] => false
  | (k', _) :: d' => String.eqb k' k || mem d' k
  end.

(** [d.get(k)], with [None] for Python's [None] default made explicit by
    the caller. *)
Fixpoint get (d : dict) (k : string) : option value :=
  match d with
  | [] => None
  | (k', v) :: d' => if String.eqb k' k then Some v else get d' k
  end.

(** [d.get(k, default)] *)
Definition get_default (d : dict) (k : string) (default : value) : value :=
  match get d k with
  | Some v => v
  | None => default
  end.

(** [d[k] = v]: an existing key keeps its place, a new one goes last. *)
Fixpoint set (d : dict) (k : string) (v : value) : dict :=
  match d with
  | [] => [(k, v)]
  | (k', v') :: d' =>
      if String.eqb k' k then (k', v) :: d' else (k', v') :: set d' k v
  end.

(** [d.setdefault(k, v)], as a statement: the dict afterwards. *)
Definition setdefault (d : dict) (k : string) (v : value) : dict :=
  if mem d k then d else set d k v.

End Dict.

Module PyValue.

Definition hex_digit (n : nat) : ascii :=
  ascii_of_nat (if n <? 10 then 48 + n else 87 + n).

(** One character inside [repr] of a text quoted with [q]. *)
Definition repr_char (q : ascii) (c : ascii) : string :=
  let n := nat_of_ascii c in
  if Ascii.eqb c "\"%char then "\\"
  else if Ascii.eqb c q then String "\"%char (String q EmptyString)
  else if n =? 10 then "\n"
  else if n =? 13 then "\r"
  else if n =? 9 then "\t"
  else if (n <? 32) || (n =? 127)
       then "\x" ++ String (hex_digit (n / 16)) (String (hex_digit (n mod 16)) EmptyString)
       else String c EmptyString.

Fixpoint repr_chars (q : ascii) (s : string) : string :=
  match s with
  | EmptyString => EmptyString
  | String c s' => repr_char q c ++ repr_chars q s'
  end.

Fixpoint has_char (c : ascii) (s : string) : bool :=
  match s with
  | EmptyString => false
  | String c' s' => Ascii.eqb c c' || has_char c s'
  end.

(** [repr(s)] of a text: single quotes, unless the text holds a single
    quote and no double quote. *)
Definition repr_str (s : string) : string :=
  let q := if has_char "'"%char s && negb (has_char "034"%char s)
           then "034"%char else "'"%char in
  String q (repr_chars q s ++ String q EmptyString).

(** [repr(v)] *)
Fixpoint repr (v : value) : string :=
  match v with
  | VNone => "None"
  | VBool true => "True"
  | VBool false => "False"
  | VInt z => Py.str_of_Z z
  | VFloat lexeme => lexeme
  | VStr s => repr_str s
  | VList items => "[" ++ Py.join ", " (map repr items) ++ "]"
  | VDict entries =>
      "{" ++ Py.join ", "
               (map (fun kv => (repr_str (fst kv) ++ ": " ++ repr (snd kv))%string)
                    entries)
          ++ "}"
  end.

(** [str(v)], which is what an f-string field [{v}] shows. *)
Definition str (v : value) : string :=
  match v with
  | VStr s => s
  | _ => repr v
  end.

(** The mantissa of a number text holds no digit other than zero. *)
Fixpoint zero_mantissa (lexeme : string) : bool :=
  match lexeme with
  | EmptyString => true
  | String c s' =>
      if Ascii.eqb c "e"%char || Ascii.eqb c "E"%char then true
      else if Ascii.eqb c "-"%char || Ascii.eqb c "."%char || Ascii.eqb c "0"%char
           then zero_mantissa s'
           else false
  end.

(** Truth value of [v] in a condition ([if v:], [not v]). *)
Definition truthy (v : value) : bool :=
  match v with
  | VNone => false
  | VBool b => b
  | VInt z => negb (Z.eqb z 0)
  | VFloat lexeme => negb (zero_mantissa lexeme)
  | VStr s => negb (String.eqb s EmptyString)
  | VList items => match items with [] => false | _ => true end
  | VDict entries => match entries with [] => false | _ => true end
  end.

End PyValue.

(** ** Exceptions and the state of the remote sheet *)

Inductive exn : Type :=
| JSONDecodeError
| AttributeError
| KeyError
| IndexError
| HttpError.

Inductive result (A : Type) : Type :=
| Ok (a : A)
| Raise (e : exn).
Arguments Ok {A} a.
Arguments Raise {A} e.

(** A write request sent to the store. *)
Inductive call : Type :=
| Update (range : string) (v : value)
| Append (row : list value).

(** The sheet: the cell texts by row, row 1 first, and the write requests
    issued so far, oldest first. *)
Record sheet : Type := mk_sheet {
  grid : list (list string);
  calls : list call
}.

(** A computation that talks to the sheet. *)
Definition M (A : Type) : Type := sheet -> result A * sheet.

Definition ret {A} (a : A) : M A := fun st => (Ok a, st).
Definition raise {A} (e : exn) : M A := fun st => (Raise e, st).
Definition bind {A B} (m : M A) (k : A -> M B) : M B :=
  fun st =>
    match m st with
    | (Ok a, st') => k a st'
    | (Raise e, st') => (Raise e, st')
    end.

Notation "x <- m ;; k" := (bind m (fun x => k))
  (at level 61, m at next level, right associativity).
Notation "m ;;; k" := (bind m (fun _ => k))
  (at level 61, right associativity).

(** The store's reading of a written value under the "as typed" input
    option: the text the cell shows afterwards, or [None] when the store
    refuses the value. *)
Class SheetsBackend : Type := {
  user_entered : value -> option string
}.

(** [date.today().isoformat()] *)
Class Clock : Type := {
  today : string
}.

(** ** The spreadsheet service *)

Module Sheets.

(** Splits off the leading capital letters of a range text. *)
Fixpoint span_upper (s : string) : string * string :=
  match s with
  | EmptyString => (EmptyString, EmptyString)
  | String c s' =>
      if Py.is_upper c
      then let (letters, rest) := span_upper s' in (String c letters, rest)
      else (EmptyString, s)
  end.

(** Column number of a column name: [A] is 1, [Z] is 26, [AA] is 27. *)
Fixpoint col_of_letters (acc : nat) (letters : string) : nat :=
  match letters with
  | EmptyString => acc
  | String c s' => col_of_letters (acc * 26 + (nat_of_ascii c - 64)) s'
  end.

(** Reads a single-cell range in A1 notation, such as [C17], into its row
    and column numbers, both counted from 1. *)
Definition parse_a1 (range : string) : option (nat * nat) :=
  let (letters, digits) := span_upper range in
  match letters, digits with
  | EmptyString, _ => None
  | _, EmptyString => None
  | _, _ =>
      match NilEmpty.uint_of_string digits with
      | Some d =>
          match Pos.of_uint d with
          | N0 => None
          | Npos p => Some (Pos.to_nat p, col_of_letters 0 letters)
          end
      | None => None
      end
  end.

(** Applies [f] at position [n] of a list, extending the list with
    [default] when it is too short. *)
Fixpoint alter_nth {A} (default : A) (f : A -> A) (n : nat) (l : list A)
  : list A :=
  match n, l with
  | O, [] => [f default]
  | O, x :: l' => f x :: l'
  | S n', [] => default :: alter_nth default f n' []
  | S n', x :: l' => x :: alter_nth default f n' l'
  end.

(** The text of the cell in row [r], column [c], both counted from 0; a
    cell the grid does not reach is empty. *)
Definition cell_at (g : list (list string)) (r c : nat) : string :=
  nth c (nth r g []) EmptyString.

Definition set_cell (g : list (list string)) (r c : nat) (text : string)
  : list (list string) :=
  alter_nth [] (alter_nth EmptyString (fun _ => text) c) r g.

Fixpoint entered_row `{SheetsBackend} (row : list value)
  : option (list string) :=
  match row with
  | [] => Some []
  | v :: row' =>
      match user_entered v, entered_row row' with
      | Some text, Some texts => Some (text :: texts)
      | _, _ => None
      end
  end.

(** [values().get(range='A:N')]: the whole grid, row 1 first. *)
Definition values_get : M (list (list string)) :=
  fun st => (Ok (grid st), st).

(** [values().update(range=cell, valueInputOption='USER_ENTERED',
    body={'values': [[v]]})]: one cell is written.  The request is logged
    whether or not the store accepts it. *)
Definition values_update `{SheetsBackend} (range : string) (v : value)
  : M unit :=
  fun st =>
    let log := (calls st ++ [Update range v])%list in
    match parse_a1 range, user_entered v with
    | Some (r, c), Some text =>
        (Ok tt, mk_sheet (set_cell (grid st) (r - 1) (c - 1) text) log)
    | _, _ => (Raise HttpError, mk_sheet (grid st) log)
    end.

(** [values().append(range='A:N', valueInputOption='USER_ENTERED',
    body={'values': [row]})]: the row becomes the new last row. *)
Definition values_append `{SheetsBackend} (row : list value) : M unit :=
  fun st =>
    let log := (calls st ++ [Append row])%list in
    match entered_row row with
    | Some texts => (Ok tt, mk_sheet (grid st ++ [texts])%list log)
    | None => (Raise HttpError, mk_sheet (grid st) log)
    end.

End Sheets.

(** ** pipeline.py *)

(** Column mapping. *)
Definition COLUMNS : list (string * string) :=
  [ ("company_name", "A"); ("contact_name", "B"); ("contact_email", "C");
    ("contact_phone", "D"); ("project_description", "E");
    ("date_entered", "F"); ("stage", "G"); ("stage_date", "H");
    ("notes", "I"); ("estimated_mrr", "J"); ("priority", "K");
    ("next_action_date", "L"); ("next_action", "M"); ("lost_reason", "N") ].

(** [COLUMNS[field]], with [None] when [field not in COLUMNS]. *)
Fixpoint column_of (columns : list (string * string)) (field : string)
  : option string :=
  match columns with
  | [] => None
  | (f, col) :: rest => if String.eqb f field then Some col else column_of rest field
  end.

(** Valid stages. *)
Definition STAGES : list string :=
  ["Lead"; "Discovery"; "Build POC"; "Proposal"; "Negotiation"; "Won"; "Lost"].

(** The field order in which [add_deal] builds a row. *)
Definition FIELDS : list string :=
  [ "company_name"; "contact_name"; "contact_email"; "contact_phone";
    "project_description"; "date_entered"; "stage"; "stage_date";
    "notes"; "estimated_mrr"; "priority"; "next_action_date";
    "next_action"; "lost_reason" ].

(** [v.lower()] on a value: only a text has the method. *)
Definition value_lower `{Py.CaseMapping} (v : value) : result string :=
  match v with
  | VStr s => Ok (Py.lower s)
  | _ => Raise AttributeError
  end.

Definition lift {A} (r : result A) : M A := fun st => (r, st).

(** Convert header to lowercase with underscores. *)
Definition normalize_header `{Py.CaseMapping} (header : string) : string :=
  Py.replace (Py.lower header) " " "_".

(** The inner loop of [get_all_deals]:
    [for j, header in enumerate(headers): deal[header] = row[j] if j < len(row) else ''],
    entered at index [j]. *)
Fixpoint fill_deal (d : deal) (j : nat) (headers : list string)
  (row : list string) : deal :=
  match headers with
  | [] => d
  | header :: headers' =>
      let cell := if j <? List.length row then nth j row EmptyString
                  else EmptyString in
      fill_deal (Dict.set d header (VStr cell)) (S j) headers' row
  end.

(** The outer loop: [for i, row in enumerate(rows, start=i)]. *)
Fixpoint deals_from (i : nat) (headers : list string)
  (rows : list (list string)) : list deal :=
  match rows with
  | [] => []
  | row :: rows' =>
      fill_deal [("row_number", VInt (Z.of_nat i))] 0 headers row
        :: deals_from (S i) headers rows'
  end.

(** Fetch all deals from the spreadsheet. *)
Definition get_all_deals `{Py.CaseMapping} : M (list deal) :=
  values <- Sheets.values_get ;;
  match values with
  | [] => ret []
  | header_row :: rows =>
      ret (deals_from 2 (map normalize_header header_row) rows)
  end.

(** The loop of [find_deal]: the first deal whose lowered company name
    holds [company_lower]. *)
Fixpoint first_match `{Py.CaseMapping} (company_lower : string) (deals : list deal)
  : result (option deal) :=
  match deals with
  | [] => Ok None
  | d :: deals' =>
      match value_lower (Dict.get_default d "company_name" (VStr EmptyString)) with
      | Ok name_lower =>
          if Py.contains company_lower name_lower then Ok (Some d)
          else first_match company_lower deals'
      | Raise e => Raise e
      end
  end.

(** Find a deal by company name (case-insensitive partial match). *)
Definition find_deal `{Py.CaseMapping} (company_name : value) : M (option deal) :=
  deals <- get_all_deals ;;
  company_lower <- lift (value_lower company_name) ;;
  lift (first_match company_lower deals).

(** The loop of [update_deal] over [updates.items()]: a field outside
    [COLUMNS] is passed over, any other is written to its cell of [row]. *)
Fixpoint write_updates `{SheetsBackend} (row : value)
  (items : list (string * value)) : M unit :=
  match items with
  | [] => ret tt
  | (field, v) :: items' =>
      match column_of COLUMNS field with
      | None => write_updates row items'
      | Some col =>
          Sheets.values_update (col ++ PyValue.str row) v ;;;
          write_updates row items'
      end
  end.

(** Update a deal's fields. *)
Definition update_deal `{Py.CaseMapping} `{SheetsBackend} (company_name updates : value)
  : M string :=
  found <- find_deal company_name ;;
  match found with
  | None => ret ("Could not find a deal for '" ++ PyValue.str company_name ++ "'")
  | Some [] => ret ("Could not find a deal for '" ++ PyValue.str company_name ++ "'")
  | Some d =>
      match Dict.get d "row_number" with
      | None => raise KeyError
      | Some row =>
          match updates with
          | VDict items =>
              write_updates row items ;;;
              ret ("Updated " ++ PyValue.str company_name ++ ": "
                     ++ PyValue.str updates)
          | _ => raise AttributeError
          end
      end
  end.

(** Add a new deal to the pipeline. *)
Definition add_deal `{SheetsBackend} (deal_data : value) : M string :=
  match deal_data with
  | VDict d =>
      let row := map (fun field => Dict.get_default d field (VStr EmptyString))
                     FIELDS in
      Sheets.values_append row ;;;
      ret ("Added new deal: "
             ++ PyValue.str (Dict.get_default d "company_name" VNone))
  | _ => raise AttributeError
  end.

(** The comprehension of [list_deals]:
    [[d for d in deals if d.get('stage', '').lower() == stage.lower()]]. *)
Fixpoint filter_stage `{Py.CaseMapping} (stage : value) (deals : list deal)
  : result (list deal) :=
  match deals with
  | [] => Ok []
  | d :: deals' =>
      match value_lower (Dict.get_default d "stage" (VStr EmptyString)) with
      | Raise e => Raise e
      | Ok deal_stage =>
          match value_lower stage with
          | Raise e => Raise e
          | Ok wanted =>
              match filter_stage stage deals' with
              | Raise e => Raise e
              | Ok kept =>
                  Ok (if String.eqb deal_stage wanted then d :: kept else kept)
              end
          end
      end
  end.

(** List all deals, optionally filtered by stage. *)
Definition list_deals `{Py.CaseMapping} (stage : value) : M (list deal) :=
  deals <- get_all_deals ;;
  if PyValue.truthy stage then lift (filter_stage stage deals) else ret deals.

(** ** The JSON decoder: [json.loads]

    The decoder of the Python library, in two passes: a scanner that turns
    the text into tokens, and a parser of the token list.  A bare word (a
    literal or a number) is read to its full extent before it is judged,
    which accepts and refuses the same texts as the library, since nothing
    but white space or punctuation may follow a value.  An escape [\uXXXX]
    yields the UTF-8 form of its code point, the two halves of a surrogate
    pair being joined.  The limits of the library, the depth of nesting it
    follows and the length of an integer it converts, beyond which it
    raises other exceptions than [JSONDecodeError], are not part of the
    model. *)

Module Json.

Inductive token : Type :=
| TLBrace | TRBrace | TLBracket | TRBracket | TColon | TComma
| TString (s : string)
| TAtom (v : value).

Definition is_digit (c : ascii) : bool :=
  let n := nat_of_ascii c in (48 <=? n) && (n <=? 57).

Definition is_letter (c : ascii) : bool :=
  let n := nat_of_ascii c in
  ((65 <=? n) && (n <=? 90)) || ((97 <=? n) && (n <=? 122)).

(** Characters of a bare word. *)
Definition is_word_char (c : ascii) : bool :=
  is_digit c || is_letter c
  || Ascii.eqb c "+"%char || Ascii.eqb c "-"%char || Ascii.eqb c "."%char.

(** JSON white space: space, tab, line feed, carriage return. *)
Definition is_ws (c : ascii) : bool :=
  let n := nat_of_ascii c in
  (n =? 32) || (n =? 9) || (n =? 10) || (n =? 13).

Fixpoint all_digits (s : string) : bool :=
  match s with
  | EmptyString => true
  | String c s' => is_digit c && all_digits s'
  end.

(** Splits off the leading digits. *)
Fixpoint span_digits (s : string) : string * string :=
  match s with
  | EmptyString => (EmptyString, EmptyString)
  | String c s' =>
      if is_digit c
      then let (ds, rest) := span_digits s' in (String c ds, rest)
      else (EmptyString, s)
  end.

(** An exponent part: [e] or [E], an optional sign, at least one digit. *)
Definition is_exponent (s : string) : bool :=
  match s with
  | String c s' =>
      (Ascii.eqb c "e"%char || Ascii.eqb c "E"%char)
      && match s' with
         | String d s'' =>
             if Ascii.eqb d "+"%char || Ascii.eqb d "-"%char
             then negb (String.eqb s'' EmptyString) && all_digits s''
             else all_digits s'
         | EmptyString => false
         end
  | EmptyString => false
  end.

(** What follows the integer part of a number: nothing, a fraction, an
    exponent, or a fraction and an exponent. *)
Definition is_number_tail (s : string) : bool :=
  match s with
  | EmptyString => true
  | String c s' =>
      if Ascii.eqb c "."%char
      then let (ds, rest) := span_digits s' in
           negb (String.eqb ds EmptyString)
           && (String.eqb rest EmptyString || is_exponent rest)
      else is_exponent s
  end.

(** The integer part: a single [0], or digits that do not start with [0]. *)
Definition is_int_part (ds : string) : bool :=
  match ds with
  | EmptyString => false
  | String c EmptyString => true
  | String c _ => negb (Ascii.eqb c "0"%char)
  end.

(** The value of a number text, if it is one. *)
Definition number_of (word : string) : option value :=
  let (negative, body) :=
    match word with
    | String c s' => if Ascii.eqb c "-"%char then (true, s') else (false, word)
    | EmptyString => (false, word)
    end in
  let (ds, tail) := span_digits body in
  if is_int_part ds && is_number_tail tail then
    match tail with
    | EmptyString =>
        match NilEmpty.uint_of_string ds with
        | Some d =>
            let n := Z.of_uint d in
            Some (VInt (if negative then Z.opp n else n))
        | None => None
        end
    | _ => Some (VFloat word)
    end
  else None.

(** The value of a bare word. *)
Definition atom_of (word : string) : option value :=
  if String.eqb word "null" then Some VNone
  else if String.eqb word "true" then Some (VBool true)
  else if String.eqb word "false" then Some (VBool false)
  else if String.eqb word "NaN" || String.eqb word "Infinity"
          || String.eqb word "-Infinity"
       then Some (VFloat word)
       else number_of word.

Definition hex_value (c : ascii) : option nat :=
  let n := nat_of_ascii c in
  if (48 <=? n) && (n <=? 57) then Some (n - 48)
  else if (65 <=? n) && (n <=? 70) then Some (n - 55)
  else if (97 <=? n) && (n <=? 102) then Some (n - 87)
  else None.

(** UTF-8 form of a code point below 65536. *)
Definition utf8 (n : nat) : string :=
  if n <? 128 then String (ascii_of_nat n) EmptyString
  else if n <? 2048 then
    String (ascii_of_nat (192 + n / 64))
      (String (ascii_of_nat (128 + n mod 64)) EmptyString)
  else
    String (ascii_of_nat (224 + n / 4096))
      (String (ascii_of_nat (128 + (n / 64) mod 64))
         (String (ascii_of_nat (128 + n mod 64)) EmptyString)).

(** UTF-8 form of a code point from 65536 on. *)
Definition utf8_long (n : nat) : string :=
  String (ascii_of_nat (240 + n / 4096 / 64))
    (String (ascii_of_nat (128 + (n / 4096) mod 64))
       (String (ascii_of_nat (128 + (n / 64) mod 64))
          (String (ascii_of_nat (128 + n mod 64)) EmptyString))).

(** The last three code units of a text, with the text before them. *)
Fixpoint split_last3 (s : string) : option (string * (ascii * ascii * ascii)) :=
  match s with
  | EmptyString => None
  | String a s' =>
      match split_last3 s' with
      | Some (before, last) => Some (String a before, last)
      | None =>
          match s' with
          | String b (String c EmptyString) => Some (EmptyString, (a, b, c))
          | _ => None
          end
      end
  end.

(** The text read so far with the character of an escape [\uXXXX] added.
    The low half of a surrogate pair that follows the high half is joined
    with it into one code point; in a text of the scanner a high half at
    the end can only come from the escape just before. *)
Definition add_code (text : string) (code : nat) : string :=
  (* a low half: a code from DC00 to DFFF *)
  if code / 1024 =? 55 then
    match split_last3 text with
    | Some (before, (a, b, c)) =>
        let nb := nat_of_ascii b in
        let nc := nat_of_ascii c in
        (* a high half, from D800 to DBFF, in its three code units *)
        if (nat_of_ascii a =? 237) && (160 <=? nb) && (nb <=? 175)
           && (128 <=? nc) && (nc <=? 191)
        then before
               ++ utf8_long ((64 + (nb - 160) * 64 + (nc - 128)) * 1024
                               + code mod 1024)
        else text ++ utf8 code
    | None => text ++ utf8 code
    end
  else text ++ utf8 code.

(** Where the scanner is: between tokens, inside a bare word, inside a
    text, after a backslash, or inside the four digits of [\u]. *)
Inductive mode : Type :=
| Between
| InWord (word : string)
| InString (text : string)
| InEscape (text : string)
| InUnicode (text : string) (seen : nat) (code : nat).

Definition snoc (s : string) (c : ascii) : string := s ++ String c EmptyString.

(** Reading [c] between tokens: the token it completes, if any, and the
    mode it leaves the scanner in. *)
Definition between_step (c : ascii) : option (option token * mode) :=
  if is_ws c then Some (None, Between)
  else if Ascii.eqb c "{"%char then Some (Some TLBrace, Between)
  else if Ascii.eqb c "}"%char then Some (Some TRBrace, Between)
  else if Ascii.eqb c "["%char then Some (Some TLBracket, Between)
  else if Ascii.eqb c "]"%char then Some (Some TRBracket, Between)
  else if Ascii.eqb c ":"%char then Some (Some TColon, Between)
  else if Ascii.eqb c ","%char then Some (Some TComma, Between)
  else if Ascii.eqb c "034"%char then Some (None, InString EmptyString)
  else if is_word_char c then Some (None, InWord (String c EmptyString))
  else None.

(** The character an escape letter stands for. *)
Definition escape_of (c : ascii) : option ascii :=
  if Ascii.eqb c "034"%char || Ascii.eqb c "\"%char || Ascii.eqb c "/"%char
  then Some c
  else if Ascii.eqb c "b"%char then Some (ascii_of_nat 8)
  else if Ascii.eqb c "f"%char then Some (ascii_of_nat 12)
  else if Ascii.eqb c "n"%char then Some (ascii_of_nat 10)
  else if Ascii.eqb c "r"%char then Some (ascii_of_nat 13)
  else if Ascii.eqb c "t"%char then Some (ascii_of_nat 9)
  else None.

Definition emitted (t : option token) : list token :=
  match t with
  | Some t' => [t']
  | None => []
  end.

(** One character read in mode [m]: the tokens it completes and the mode
    it leaves the scanner in; [None] when the character cannot stand
    there. *)
Definition step (m : mode) (c : ascii) : option (list token * mode) :=
  match m with
  | Between =>
      match between_step c with
      | Some (t, m') => Some (emitted t, m')
      | None => None
      end
  | InWord word =>
      if is_word_char c then Some ([], InWord (snoc word c))
      else
        match atom_of word, between_step c with
        | Some v, Some (t, m') => Some (TAtom v :: emitted t, m')
        | _, _ => None
        end
  | InString text =>
      if Ascii.eqb c "034"%char then Some ([TString text], Between)
      else if Ascii.eqb c "\"%char then Some ([], InEscape text)
      else if nat_of_ascii c <? 32 then None
      else Some ([], InString (snoc text c))
  | InEscape text =>
      if Ascii.eqb c "u"%char then Some ([], InUnicode text 0 0)
      else
        match escape_of c with
        | Some c' => Some ([], InString (snoc text c'))
        | None => None
        end
  | InUnicode text seen code =>
      match hex_value c with
      | Some h =>
          let code' := code * 16 + h in
          if seen =? 3 then Some ([], InString (add_code text code'))
          else Some ([], InUnicode text (S seen) code')
      | None => None
      end
  end.

(** The end of the text in mode [m]: a bare word is judged, an open text
    or escape is an error. *)
Definition finish (m : mode) : option (list token) :=
  match m with
  | Between => Some []
  | InWord word =>
      match atom_of word with
      | Some v => Some [TAtom v]
      | None => None
      end
  | _ => None
  end.

(** The tokens of [s], read from mode [m]; [None] when the text cannot be
    scanned. *)
Fixpoint scan (m : mode) (s : string) : option (list token) :=
  match s with
  | EmptyString => finish m
  | String c s' =>
      match step m c with
      | Some (out, m') => option_map (List.app out) (scan m' s')
      | None => None
      end
  end.

(** The outcome of parsing a prefix of a token list. *)
Inductive parsed (A : Type) : Type :=
| Done (a : A) (rest : list token)
| Invalid
| OutOfFuel.
Arguments Done {A} a rest.
Arguments Invalid {A}.
Arguments OutOfFuel {A}.

(** Recursive descent over the tokens.  [parse_items] reads the elements
    of an array after its first bracket, [parse_members] the members of an
    object after its first brace; a repeated key keeps its first place and
    takes the last value, as a Python dict does. *)
Fixpoint parse_value (fuel : nat) (ts : list token) : parsed value :=
  match fuel with
  | O => OutOfFuel
  | S fuel' =>
      match ts with
      | TAtom v :: rest => Done v rest
      | TString s :: rest => Done (VStr s) rest
      | TLBracket :: TRBracket :: rest => Done (VList []) rest
      | TLBracket :: rest => parse_items fuel' [] rest
      | TLBrace :: TRBrace :: rest => Done (VDict []) rest
      | TLBrace :: rest => parse_members fuel' [] rest
      | _ => Invalid
      end
  end

with parse_items (fuel : nat) (acc : list value) (ts : list token)
  : parsed value :=
  match fuel with
  | O => OutOfFuel
  | S fuel' =>
      match parse_value fuel' ts with
      | Done v (TComma :: rest) => parse_items fuel' (acc ++ [v])%list rest
      | Done v (TRBracket :: rest) => Done (VList (acc ++ [v])%list) rest
      | Done _ _ => Invalid
      | Invalid => Invalid
      | OutOfFuel => OutOfFuel
      end
  end

with parse_members (fuel : nat) (acc : dict) (ts : list token)
  : parsed value :=
  match fuel with
  | O => OutOfFuel
  | S fuel' =>
      match ts with
      | TString key :: TColon :: ts' =>
          match parse_value fuel' ts' with
          | Done v (TComma :: rest) =>
              parse_members fuel' (Dict.set acc key v) rest
          | Done v (TRBrace :: rest) => Done (VDict (Dict.set acc key v)) rest
          | Done _ _ => Invalid
          | Invalid => Invalid
          | OutOfFuel => OutOfFuel
          end
      | _ => Invalid
      end
  end.

(** [json.loads(s)]: the value of the text, or [None] where the library
    raises [JSONDecodeError]. *)
Definition loads (s : string) : option value :=
  match scan Between s with
  | Some ts =>
      match parse_value (S (2 * List.length ts)) ts with
      | Done v [] => Some v
      | _ => None
      end
  | None => None
  end.

End Json.

(** ** bot.py *)

(** The language-model call [client.messages.create(...)] under the fixed
    system instruction: from the content of the user message to the text of
    the first block of the reply. *)
Class LanguageModel : Type := {
  messages_create : string -> string
}.

(** The line feed. *)
Definition nl : string := String (ascii_of_nat 10) EmptyString.

(** Build context about current deals. *)
Fixpoint deal_lines (current_deals : list deal) : string :=
  match current_deals with
  | [] => EmptyString
  | d :: rest =>
      "- " ++ PyValue.str (Dict.get_default d "company_name" (VStr "Unknown"))
        ++ ": " ++ PyValue.str (Dict.get_default d "stage" (VStr "No stage"))
        ++ nl ++ deal_lines rest
  end.

Definition deals_context (current_deals : list deal) : string :=
  match current_deals with
  | [] => "Pipeline is currently empty." ++ nl
  | _ => "Current deals in pipeline:" ++ nl ++ deal_lines current_deals
  end.

(** Handle potential markdown code blocks:
    [if response_text.startswith("```"): response_text = response_text.split("```")[1]],
    then [if response_text.startswith("json"): response_text = response_text[4:]].
    The index raises [IndexError] when the split has a single piece. *)
Definition strip_fence (response_text : string) : result string :=
  if Py.startswith response_text "```" then
    match Py.split response_text "```" with
    | _ :: piece :: _ =>
        Ok (if Py.startswith piece "json" then Py.drop 4 piece else piece)
    | _ => Raise IndexError
    end
  else Ok response_text.

(** Parse the JSON response: the second half of [process_command], from
    the text of the reply to the parsed action. *)
Definition parse_response (text : string) : result value :=
  match strip_fence (Py.strip text) with
  | Ok response_text =>
      match Json.loads response_text with
      | Some action_data => Ok action_data
      | None => Raise JSONDecodeError
      end
  | Raise e => Raise e
  end.

(** Send a command to the model and get structured response. *)
Definition process_command `{LanguageModel} (user_message : string)
  (current_deals : list deal) : result value :=
  parse_response
    (messages_create
       (deals_context current_deals ++ nl ++ nl ++ "User request: " ++ user_message)).

(** [v == s] for a text literal [s]. *)
Definition is_text (v : value) (s : string) : bool :=
  match v with
  | VStr s' => String.eqb s' s
  | _ => false
  end.

(** [deal_data.setdefault(k, v)] on a value: only a dict has the method. *)
Definition value_setdefault (deal_data : value) (k : string) (v : value)
  : result value :=
  match deal_data with
  | VDict d => Ok (VDict (Dict.setdefault d k v))
  | _ => Raise AttributeError
  end.

(** One line of the listing. *)
Definition deal_line (d : deal) : string :=
  "  • " ++ PyValue.str (Dict.get_default d "company_name" VNone)
    ++ ": " ++ PyValue.str (Dict.get_default d "stage" VNone)
    ++ (if PyValue.truthy (Dict.get_default d "next_action" VNone)
        then " (Next: " ++ PyValue.str (Dict.get_default d "next_action" VNone) ++ ")"
        else EmptyString)
    ++ nl.

Fixpoint listing (deals : list deal) : string :=
  match deals with
  | [] => EmptyString
  | d :: rest => deal_line d ++ listing rest
  end.

(** Execute the action determined by the model. *)
Definition execute_action `{Py.CaseMapping} `{SheetsBackend} `{Clock} (action_data : value)
  : M string :=
  match action_data with
  | VDict fields =>
      let action := Dict.get_default fields "action" VNone in
      if is_text action "update" then
        let company := Dict.get_default fields "company" VNone in
        let updates := Dict.get_default fields "updates" (VDict []) in
        update_deal company updates
      else if is_text action "add" then
        let deal_data := Dict.get_default fields "deal" (VDict []) in
        (* Set defaults *)
        deal_data1 <- lift (value_setdefault deal_data "date_entered" (VStr today)) ;;
        deal_data2 <- lift (value_setdefault deal_data1 "stage_date" (VStr today)) ;;
        deal_data3 <- lift (value_setdefault deal_data2 "stage" (VStr "Lead")) ;;
        add_deal deal_data3
      else if is_text action "list" then
        let filter_stage := Dict.get_default fields "filter_stage" VNone in
        deals <- list_deals filter_stage ;;
        match deals with
        | [] => ret "No deals found."
        | _ =>
            ret ("Found " ++ Py.str_of_Z (Z.of_nat (List.length deals))
                   ++ " deal(s):" ++ nl ++ listing deals)
        end
      else if is_text action "clarify" then
        ret ("Question: " ++ PyValue.str (Dict.get_default fields "message" VNone))
      else
        ret ("Unknown action: " ++ PyValue.str action)
  | _ => raise AttributeError
  end.

(** ** bot.py: the chat entry point and the interactive loop *)

(** [str(e)] of a caught exception.  The wording of the message is not
    part of this model; only the prefix [chat] puts before it is. *)
Class ExceptionText : Type := {
  exn_text : exn -> string
}.

(** The two handlers of [chat]: [except json.JSONDecodeError as e] comes
    first, [except Exception as e] takes every other exception. *)
Definition caught `{ExceptionText} (e : exn) : string :=
  match e with
  | JSONDecodeError => "Error parsing response: " ++ exn_text e
  | _ => "Error: " ++ exn_text e
  end.

(** Process a natural language message and update the pipeline.  The deals
    for the context are read outside the [try]; an exception of the
    interpreter or of the executor becomes the text of the reply, and the
    sheet stays as the executor left it. *)
Definition chat `{Py.CaseMapping} `{LanguageModel} `{SheetsBackend} `{Clock} `{ExceptionText}
  (user_message : string) : M string :=
  current_deals <- get_all_deals ;;
  fun st =>
    match process_command user_message current_deals with
    | Ok action_data =>
        match execute_action action_data st with
        | (Ok result, st') => (Ok result, st')
        | (Raise e, st') => (Ok (caught e), st')
        end
    | Raise e => (Ok (caught e), st)
    end.

(** How the interactive loop ends: after a quit word, at the end of the
    input (where [input] raises), or on an exception that [chat] lets
    through. *)
Inductive session_end : Type :=
| SaidGoodbye
| InputEnded
| Crashed (e : exn).

(** [user_input.lower() in ['quit', 'exit', 'q']] *)
Definition is_quit_word `{Py.CaseMapping} (user_input : string) : bool :=
  let w := Py.lower user_input in
  String.eqb w "quit" || String.eqb w "exit" || String.eqb w "q".

(** The loop of the interactive mode over the lines typed, as the lines the
    loop prints (the banner before it and the prompt apart), the way it
    ends and the sheet it leaves.  An interrupt from the keyboard is not
    part of the model. *)
Fixpoint interactive `{Py.CaseMapping} `{LanguageModel} `{SheetsBackend} `{Clock} `{ExceptionText}
  (lines : list string) (st : sheet) : list string * session_end * sheet :=
  match lines with
  | [] => ([], InputEnded, st)
  | line :: rest =>
      let user_input := Py.strip line in
      if is_quit_word user_input then (["Goodbye!"], SaidGoodbye, st)
      else if String.eqb user_input EmptyString then interactive rest st
      else
        match chat user_input st with
        | (Ok response, st') =>
            let '(printed, ending, st'') := interactive rest st' in
            (("Bot: " ++ response) :: EmptyString :: printed, ending, st'')
        | (Raise e, st') => ([], Crashed e, st')
        end
  end.

(** ** slack_bot.py *)

Module Slack.

(** A character of the class [[A-Z0-9]]. *)
Definition is_id_char (c : ascii) : bool :=
  Py.is_upper c || Json.is_digit c.

(** The number of leading characters of the class, and what follows them. *)
Fixpoint span_id (s : string) : nat * string :=
  match s with
  | EmptyString => (0, EmptyString)
  | String c s' =>
      if is_id_char c
      then let (n, rest) := span_id s' in (S n, rest)
      else (0, s)
  end.

(** The length of the match of [<@[A-Z0-9]+>] at the start of [s], if
    there is one.  The class excludes [>], so the greedy run of the class
    is the only candidate. *)
Definition mention_length (s : string) : option nat :=
  match s with
  | String a (String b rest) =>
      if Ascii.eqb a "<"%char && Ascii.eqb b "@"%char then
        match span_id rest with
        | (S n, String c _) =>
            if Ascii.eqb c ">"%char then Some (S n + 3) else None
        | _ => None
        end
      else None
  | _ => None
  end.

(** [re.sub(r'<@[A-Z0-9]+>', '', text)]: one pass from the left, each
    match taken out; [skip] counts the characters of a match still to be
    passed over. *)
Fixpoint remove_mentions (skip : nat) (s : string) : string :=
  match s with
  | EmptyString => EmptyString
  | String c s' =>
      match skip with
      | S k => remove_mentions k s'
      | O =>
          match mention_length s with
          | Some n => remove_mentions (n - 1) s'
          | None => String c (remove_mentions 0 s')
          end
      end
  end.

(** Remove the bot mention from the message. *)
Definition clean_message (text : string) : string :=
  Py.strip (remove_mentions 0 text).

(** What can go wrong in a handler besides the exceptions of the core. *)
Inductive front_exn : Type :=
| CoreError (e : exn)
| TypeError.

(** The outcome of a handler: the messages passed to [say], in order, or
    the exception that ended it. *)
Inductive handled : Type :=
| Said (messages : list string)
| Failed (e : front_exn).

Definition help_text : string :=
  "How can I help with the pipeline? Try something like 'move Acme to Discovery'".

(** Handle when someone @mentions the bot. *)
Definition handle_mention `{Py.CaseMapping} `{LanguageModel} `{SheetsBackend} `{Clock}
  `{ExceptionText} (event : dict) (st : sheet) : handled * sheet :=
  match Dict.get_default event "text" (VStr EmptyString) with
  | VStr text =>
      let user_message := clean_message text in
      if String.eqb user_message EmptyString then (Said [help_text], st)
      else
        match chat user_message st with
        | (Ok response, st') => (Said [response], st')
        | (Raise e, st') => (Failed (CoreError e), st')
        end
  | _ => (Failed TypeError, st)
  end.

(** Handle direct messages to the bot. *)
Definition handle_dm `{Py.CaseMapping} `{LanguageModel} `{SheetsBackend} `{Clock}
  `{ExceptionText} (event : dict) (st : sheet) : handled * sheet :=
  if negb (is_text (Dict.get_default event "channel_type" VNone) "im")
  then (Said [], st)
  else if PyValue.truthy (Dict.get_default event "bot_id" VNone)
  then (Said [], st)
  else
    match Dict.get_default event "text" (VStr EmptyString) with
    | VStr text =>
        let user_message := Py.strip text in
        if String.eqb user_message EmptyString then (Said [], st)
        else
          match chat user_message st with
          | (Ok response, st') => (Said [response], st')
          | (Raise e, st') => (Failed (CoreError e), st')
          end
    | _ => (Failed (CoreError AttributeError), st)
    end.

End Slack.

(** ** Notions of the specification *)

(** The deals the sheet holds: what [get_all_deals] reads from its grid. *)
Definition stored_deals `{Py.CaseMapping} (st : sheet) : list deal :=
  match grid st with
  | [] => []
  | header_row :: rows => deals_from 2 (map normalize_header header_row) rows
  end.

(** The text under a key of a deal, empty when the key is absent. *)
Definition text_of (d : deal) (key : string) : string :=
  match Dict.get d key with
  | Some (VStr s) => s
  | _ => EmptyString
  end.

(** [query] occurs in [name] as a substring, letter case set aside: the
    lowered name holds the lowered query. *)
Definition ci_substring `{Py.CaseMapping} (query name : string) : Prop :=
  exists before after, Py.lower name = before ++ Py.lower query ++ after.

(** Two characters that are the same letter: equal, or a capital letter
    of A to Z and its small form, 32 places further. *)
Definition same_letter (a b : ascii) : bool :=
  Ascii.eqb a b
  || (Py.is_upper a && (nat_of_ascii b =? nat_of_ascii a + 32))
  || (Py.is_upper b && (nat_of_ascii a =? nat_of_ascii b + 32)).

(** Two texts that differ at most in the case of their letters A to Z. *)
Fixpoint same_up_to_case (a b : string) : bool :=
  match a, b with
  | EmptyString, EmptyString => true
  | String x a', String y b' => same_letter x y && same_up_to_case a' b'
  | _, _ => false
  end.

(** Some run of the characters of [name] is [query] up to letter case. *)
Definition holds_up_to_case (query name : string) : Prop :=
  exists before run after,
    name = before ++ run ++ after /\ same_up_to_case run query = true.

(** [a] and [b] are the same text, letter case set aside. *)
Definition ci_equal `{Py.CaseMapping} (a b : string) : bool :=
  String.eqb (Py.lower a) (Py.lower b).

(** The entries of an update mapping whose field is one of the fourteen. *)
Definition known_items (items : list (string * value)) : list (string * value) :=
  filter (fun kv => match column_of COLUMNS (fst kv) with
                    | Some _ => true
                    | None => false
                    end) items.

(** The update mapping names [field], with the value [v]. *)
Definition named_in (updates : value) (field : string) (v : value) : Prop :=
  exists items, updates = VDict items /\ In (field, v) items.

(** The range text names the cell in row [r], column [c] of the grid, both
    counted from 0. *)
Definition names_cell (range : string) (r c : nat) : Prop :=
  Sheets.parse_a1 range = Some (S r, S c).

(** A reply wrapped in a fenced code block tagged [json]. *)
Definition json_fenced (t : string) : string :=
  "```json" ++ nl ++ t ++ nl ++ "```".

(** A row cut or padded with empty text to [n] cells. *)
Definition pad_row (n : nat) (row : list string) : list string :=
  (firstn n row ++ repeat EmptyString (n - List.length row))%list.

(** The dict built from a list of pairs, as [dict(pairs)] builds it. *)
Definition dict_of_pairs (pairs : list (string * value)) : dict :=
  fold_left (fun d kv => Dict.set d (fst kv) (snd kv)) pairs [].

(** The deal of a row as the specification words it: the row number, then
    the positional zip of the padded cells against the headers. *)
Definition zip_deal (i : nat) (headers : list string) (row : list string) : deal :=
  dict_of_pairs
    (("row_number", VInt (Z.of_nat i))
       :: combine headers (map VStr (pad_row (List.length headers) row))).

(** A header character, normalized: lower case, the space as underscore. *)
Definition normalized_char (c : ascii) : ascii :=
  if Ascii.eqb c " "%char then "_"%char else Py.lower_char c.

Fixpoint map_chars (f : ascii -> ascii) (s : string) : string :=
  match s with
  | EmptyString => EmptyString
  | String c s' => String (f c) (map_chars f s')
  end.

(** The defaults of the add action. *)
Definition default_of `{Clock} (key : string) : option value :=
  if String.eqb key "date_entered" || String.eqb key "stage_date"
  then Some (VStr today)
  else if String.eqb key "stage" then Some (VStr "Lead")
  else None.

(** Position of a field in the fixed column order, counted from 0. *)
Fixpoint index_of (field : string) (fields : list string) : option nat :=
  match fields with
  | [] => None
  | f :: rest =>
      if String.eqb f field then Some 0
      else option_map S (index_of field rest)
  end.

(** The mapping after the three [setdefault] calls of the add action. *)
Definition with_defaults `{Clock} (dd : dict) : dict :=
  Dict.setdefault
    (Dict.setdefault (Dict.setdefault dd "date_entered" (VStr today))
       "stage_date" (VStr today))
    "stage" (VStr "Lead").

(** One step of [dict(pairs)]. *)
Definition setter (d : dict) (kv : string * value) : dict :=
  Dict.set d (fst kv) (snd kv).

(** ** The grammar of JSON texts

    The grammar of RFC 8259: a value between white space, the value a
    literal, a number, a string, an array or an object. *)

(** The double quote. *)
Definition dq : string := String "034"%char EmptyString.

(** White space of the grammar: spaces, tabs, line feeds, carriage returns. *)
Fixpoint json_ws (s : string) : bool :=
  match s with
  | EmptyString => true
  | String c s' => Json.is_ws c && json_ws s'
  end.

Definition is_hex (c : ascii) : bool :=
  let n := nat_of_ascii c in
  ((48 <=? n) && (n <=? 57)) || ((65 <=? n) && (n <=? 70))
  || ((97 <=? n) && (n <=? 102)).

(** The letters that may follow a backslash, [u] apart. *)
Definition is_escape_letter (c : ascii) : bool :=
  existsb (Ascii.eqb c)
    ["034"%char; "\"%char; "/"%char; "b"%char; "f"%char; "n"%char;
     "r"%char; "t"%char].

(** The characters between the quotes of a string. *)
Inductive json_chars : string -> Prop :=
| chars_nil : json_chars EmptyString
| chars_plain (c : ascii) (s : string) :
    32 <= nat_of_ascii c -> c <> "034"%char -> c <> "\"%char ->
    json_chars s -> json_chars (String c s)
| chars_escape (c : ascii) (s : string) :
    is_escape_letter c = true ->
    json_chars s -> json_chars (String "\" (String c s))
| chars_unicode (h1 h2 h3 h4 : ascii) (s : string) :
    is_hex h1 = true -> is_hex h2 = true -> is_hex h3 = true -> is_hex h4 = true ->
    json_chars s ->
    json_chars (String "\" (String "u" (String h1 (String h2 (String h3 (String h4 s)))))).

Definition is_digit1_9 (c : ascii) : bool :=
  let n := nat_of_ascii c in (49 <=? n) && (n <=? 57).

Definition digits1 (ds : string) : Prop :=
  ds <> EmptyString /\ Json.all_digits ds = true.

Definition json_int (s : string) : Prop :=
  s = "0"
  \/ exists c ds, s = String c ds /\ is_digit1_9 c = true /\ Json.all_digits ds = true.

Definition json_frac (s : string) : Prop :=
  s = EmptyString \/ exists ds, s = String "." ds /\ digits1 ds.

Definition json_exp (s : string) : Prop :=
  s = EmptyString
  \/ exists e sign ds,
      s = String e (sign ++ ds)
      /\ (e = "e"%char \/ e = "E"%char)
      /\ (sign = EmptyString \/ sign = "+" \/ sign = "-")
      /\ digits1 ds.

Definition json_number (s : string) : Prop :=
  exists sign i f e,
    s = sign ++ i ++ f ++ e
    /\ (sign = EmptyString \/ sign = "-")
    /\ json_int i /\ json_frac f /\ json_exp e.

Inductive json_value : string -> Prop :=
| value_null : json_value "null"
| value_true : json_value "true"
| value_false : json_value "false"
| value_number (n : string) : json_number n -> json_value n
| value_string (b : string) : json_chars b -> json_value (dq ++ b ++ dq)
| value_empty_array (w : string) : json_ws w = true -> json_value ("[" ++ w ++ "]")
| value_array (es : string) : json_elements es -> json_value ("[" ++ es ++ "]")
| value_empty_object (w : string) : json_ws w = true -> json_value ("{" ++ w ++ "}")
| value_object (ms : string) : json_members ms -> json_value ("{" ++ ms ++ "}")

with json_elements : string -> Prop :=
| elements_one (w1 v w2 : string) :
    json_ws w1 = true -> json_value v -> json_ws w2 = true ->
    json_elements (w1 ++ v ++ w2)
| elements_more (w1 v w2 es : string) :
    json_ws w1 = true -> json_value v -> json_ws w2 = true ->
    json_elements es ->
    json_elements (w1 ++ v ++ w2 ++ "," ++ es)

with json_members : string -> Prop :=
| members_one (w1 k w2 w3 v w4 : string) :
    json_ws w1 = true -> json_chars k -> json_ws w2 = true ->
    json_ws w3 = true -> json_value v -> json_ws w4 = true ->
    json_members (w1 ++ dq ++ k ++ dq ++ w2 ++ ":" ++ w3 ++ v ++ w4)
| members_more (w1 k w2 w3 v w4 ms : string) :
    json_ws w1 = true -> json_chars k -> json_ws w2 = true ->
    json_ws w3 = true -> json_value v -> json_ws w4 = true ->
    json_members ms ->
    json_members (w1 ++ dq ++ k ++ dq ++ w2 ++ ":" ++ w3 ++ v ++ w4 ++ "," ++ ms).

Scheme json_value_min := Minimality for json_value Sort Prop
  with json_elements_min := Minimality for json_elements Sort Prop
  with json_members_min := Minimality for json_members Sort Prop.

Combined Scheme json_grammar_ind
  from json_value_min, json_elements_min, json_members_min.

(** A JSON text: a value with white space around it. *)
Definition json_text (s : string) : Prop :=
  exists w1 v w2,
    s = w1 ++ v ++ w2 /\ json_ws w1 = true /\ json_value v /\ json_ws w2 = true.

(** ** Invariants used in the proofs *)

(** Every entry of a deal other than [row_number] holds a text. *)
Definition cells_are_text (d : deal) : Prop :=
  forall k v, Dict.get d k = Some v -> k = "row_number" \/ exists s, v = VStr s.

Definition has_row_number (d : deal) : Prop :=
  Dict.get d "row_number" <> None.

(** The requests a run of the update loop may add to the log. *)
Definition update_call_of (row : value) (items : list (string * value))
  (c : call) : Prop :=
  exists field v col,
    c = Update (col ++ PyValue.str row) v
    /\ In (field, v) items /\ column_of COLUMNS field = Some col.

(** With fuel above twice the number of tokens the parser never stops for
    want of fuel, and a value it reads uses up at least one token. *)
Definition fuel_suffices (fuel : nat) : Prop :=
  (forall ts,
      2 * List.length ts < fuel ->
      Json.parse_value fuel ts <> Json.OutOfFuel
      /\ forall v rest, Json.parse_value fuel ts = Json.Done v rest ->
                        List.length rest < List.length ts)
  /\ (forall acc ts,
         2 * List.length ts + 1 < fuel ->
         Json.parse_items fuel acc ts <> Json.OutOfFuel
         /\ forall v rest, Json.parse_items fuel acc ts = Json.Done v rest ->
                           List.length rest < List.length ts)
  /\ (forall acc ts,
         2 * List.length ts + 1 < fuel ->
         Json.parse_members fuel acc ts <> Json.OutOfFuel
         /\ forall v rest, Json.parse_members fuel acc ts = Json.Done v rest ->
                           List.length rest < List.length ts).

(** What may follow a bare word: the end of the text, or a character that
    is not a character of bare words. *)
Definition safe_after (rest : string) : Prop :=
  match rest with
  | EmptyString => True
  | String c _ => Json.is_word_char c = false
  end.

(** The scanner reads [s] into the tokens [ts] whatever follows. *)
Definition scans_any (s : string) (ts : list Json.token) : Prop :=
  forall rest,
    Json.scan Json.Between (s ++ rest)
    = option_map (List.app ts) (Json.scan Json.Between rest).

(** The scanner reads [s] into the tokens [ts] when no character of bare
    words follows. *)
Definition scans (s : string) (ts : list Json.token) : Prop :=
  forall rest,
    safe_after rest ->
    Json.scan Json.Between (s ++ rest)
    = option_map (List.app ts) (Json.scan Json.Between rest).

Definition starts_value (ts : list Json.token) : Prop :=
  match ts with
  | Json.TAtom _ :: _ | Json.TString _ :: _
  | Json.TLBracket :: _ | Json.TLBrace :: _ => True
  | _ => False
  end.

(** Every character of [s] is a character of bare words. *)
Fixpoint all_word (s : string) : bool :=
  match s with
  | EmptyString => true
  | String c s' => Json.is_word_char c && all_word s'
  end.

(** What may follow the digits of a number: nothing or no digit. *)
Definition no_digit_first (t : string) : Prop :=
  match t with
  | EmptyString => True
  | String c _ => Json.is_digit c = false
  end.

(** With enough fuel the parser reads the tokens [ts] as the value [v],
    whatever follows them. *)
Definition parses_value (ts : list Json.token) (v : value) : Prop :=
  exists f0, forall f more,
    f0 <= f -> Json.parse_value f (ts ++ more) = Json.Done v more.

Definition parses_items (ts : list Json.token) (vs : list value) : Prop :=
  exists f0, forall f acc more,
    f0 <= f ->
    Json.parse_items f acc (ts ++ Json.TRBracket :: more)
    = Json.Done (VList (acc ++ vs)) more.

Definition parses_members (ts : list Json.token) (g : dict -> dict) : Prop :=
  exists f0, forall f acc more,
    f0 <= f ->
    Json.parse_members f acc (ts ++ Json.TRBrace :: more)
    = Json.Done (VDict (g acc)) more.

(** What the scanner and the parser make of a value, of the elements of
    an array and of the members of an object. *)
Definition read_as_value (s : string) : Prop :=
  exists ts v, starts_value ts /\ scans s ts /\ parses_value ts v.

Definition read_as_elements (s : string) : Prop :=
  exists ts vs, starts_value ts /\ scans s ts /\ parses_items ts vs.

Definition read_as_members (s : string) : Prop :=
  exists k ts g,
    scans s (Json.TString k :: ts) /\ parses_members (Json.TString k :: ts) g.

(** ** Sample inputs *)

(** The case mapping of the sample runs, whose texts are ASCII. *)
Definition ascii_text : Py.CaseMapping :=
  {| Py.lower := Py.ascii_lower; Py.lower_ascii := fun _ _ => eq_refl |}.

#[global] Existing Instance ascii_text.

(** A store that keeps a text as it is typed, shows an integer by its
    digits, leaves the cell empty for [None], and refuses anything else. *)
Definition plain_backend : SheetsBackend :=
  {| user_entered v :=
       match v with
       | VStr s => Some s
       | VInt z => Some (Py.str_of_Z z)
       | VNone => Some EmptyString
       | _ => None
       end |}.

Definition fixed_clock : Clock := {| today := "2024-06-01" |}.

(** A small pipeline: the header row and two deals. *)
Definition sample_sheet : sheet :=
  mk_sheet
    [ [ "Company Name"; "Contact Name"; "Contact Email"; "Contact Phone";
        "Project Description"; "Date Entered"; "Stage"; "Stage Date";
        "Notes"; "Estimated MRR"; "Priority"; "Next Action Date";
        "Next Action"; "Lost Reason" ];
      [ "Acme Corp"; "Ann"; "ann@acme.test"; ""; "Portal"; "2024-01-05";
        "Lead"; "2024-01-05"; ""; "1200"; "High" ];
      [ "Beta Works"; "Bob"; ""; ""; ""; "2024-02-10"; "Discovery";
        "2024-03-01" ] ]
    [].

(** A sheet one of whose headers normalizes to [row_number]. *)
Definition odd_sheet : sheet :=
  mk_sheet [ ["Company Name"; "Row Number"]; ["Acme Corp"; "7"] ] [].

(** A sheet whose two headers stand in another order than the columns of
    [COLUMNS]: the stage in column A, the company name in column B. *)
Definition swapped_sheet : sheet :=
  mk_sheet [ ["Stage"; "Company Name"]; ["Lead"; "Acme"] ] [].

(** A clarify action whose message holds a code fence: an object with
    the keys [action] and [message], the message being
    [Wrap it in ``` marks]. *)
Definition reply_with_inner_fence : string :=
  "{" ++ dq ++ "action" ++ dq ++ ": " ++ dq ++ "clarify" ++ dq ++ ", "
      ++ dq ++ "message" ++ dq ++ ": " ++ dq ++ "Wrap it in ``` marks" ++ dq ++ "}".

(** The outcome of an update of Acme that names the field [stage] and the
    unknown field [bogus]. *)
Definition mixed_update_outcome : result string * sheet :=
  @update_deal ascii_text plain_backend (VStr "Acme")
    (VDict [("stage", VStr "Won"); ("bogus", VStr "x")]) sample_sheet.

(** The outcome of moving Acme to Discovery. *)
Definition stage_update_outcome : result string * sheet :=
  @update_deal ascii_text plain_backend (VStr "Acme")
    (VDict [("stage", VStr "Discovery"); ("stage_date", VStr "2024-06-01")])
    sample_sheet.

(** The outcome of an update of Acme on the sheet with the odd header. *)
Definition odd_update_outcome : result string * sheet :=
  @update_deal ascii_text plain_backend (VStr "Acme") (VDict [("stage", VStr "Won")])
    odd_sheet.

(** The outcome of renaming Acme on the sheet with the headers in another
    order. *)
Definition swapped_update_outcome : result string * sheet :=
  @update_deal ascii_text plain_backend (VStr "Acme")
    (VDict [("company_name", VStr "Apex")]) swapped_sheet.

(** ** Notions for the further properties *)

(** The write requests of an update mapping for the row [row]: one for
    each entry whose field has a column, in the order of the mapping. *)
Definition requests_of (row : value) (items : list (string * value))
  : list call :=
  flat_map (fun kv => match column_of COLUMNS (fst kv) with
                      | Some col => [Update (col ++ PyValue.str row) (snd kv)]
                      | None => []
                      end) items.

(** The text one entry of an update mapping puts into the cell in row
    [r], column [c] (from 0), if its request goes to that cell. *)
Definition write_text `{SheetsBackend} (row : value) (kv : string * value)
  (r c : nat) : option string :=
  match column_of COLUMNS (fst kv) with
  | Some col =>
      match Sheets.parse_a1 (col ++ PyValue.str row) with
      | Some (r1, c1) =>
          if (r1 - 1 =? r) && (c1 - 1 =? c) then user_entered (snd kv) else None
      | None => None
      end
  | None => None
  end.

(** The text the last such entry of the mapping puts into the cell. *)
Fixpoint written_text `{SheetsBackend} (row : value)
  (items : list (string * value)) (r c : nat) : option string :=
  match items with
  | [] => None
  | kv :: rest =>
      match written_text row rest r c with
      | Some text => Some text
      | None => write_text row kv r c
      end
  end.

(** The update mapping with a value the plain store refuses in the middle. *)
Definition refused_update_outcome : result string * sheet :=
  @update_deal ascii_text plain_backend (VStr "Acme")
    (VDict [("stage", VStr "Won"); ("notes", VList []); ("priority", VStr "Low")])
    sample_sheet.

(** Every character of [s] is white space for [strip]. *)
Fixpoint blank (s : string) : bool :=
  match s with
  | EmptyString => true
  | String c s' => Py.is_space c && blank s'
  end.

(** A user id of a mention: one or more characters of the class. *)
Fixpoint all_id_chars (s : string) : bool :=
  match s with
  | EmptyString => true
  | String c s' => Slack.is_id_char c && all_id_chars s'
  end.

(** A language model that always answers with the same text. *)
Definition constant_model (reply : string) : LanguageModel :=
  {| messages_create := fun _ => reply |}.

Definition plain_exception_text : ExceptionText :=
  {| exn_text := fun e =>
       match e with
       | JSONDecodeError => "Expecting value"
       | AttributeError => "object has no attribute"
       | KeyError => "'row_number'"
       | IndexError => "list index out of range"
       | HttpError => "HttpError 400"
       end |}.

(* ================================================================== *)
(** * Properties *)

(** ** Text *)

Section TextFacts.

Lemma startswith_iff (s p : string) :
  Py.startswith s p = true <-> exists rest, s = p ++ rest.
Proof.
  revert s; induction p as [|a p IH]; intros s; simpl.
  - split; [intros _; now exists s | reflexivity].
  - destruct s as [|b s]; simpl.
    + split; [discriminate | intros [rest H]; discriminate].
    + rewrite andb_true_iff, Ascii.eqb_eq, IH.
      split.
      * intros [-> [rest ->]]. now exists rest.
      * intros [rest H]. injection H as -> ->. split; [reflexivity | now exists rest].
Qed.

(** [needle in hay] holds exactly when [hay] splits around [needle]. *)
Lemma contains_iff (needle hay : string) :
  Py.contains needle hay = true
  <-> exists before after, hay = before ++ needle ++ after.
Proof.
  induction hay as [|c hay IH]; simpl.
  - rewrite orb_false_r, startswith_iff. split.
    + intros [rest H]. exists EmptyString, rest. exact H.
    + intros [[|b before] [after H]]; simpl in H; [now exists after | discriminate].
  - rewrite orb_true_iff, startswith_iff, IH. split.
    + intros [[rest H] | [before [after H]]].
      * exists EmptyString, rest. exact H.
      * exists (String c before), after. simpl. now rewrite H.
    + intros [[|b before] [after H]]; simpl in H.
      * left. now exists after.
      * right. injection H as -> ->. now exists before, after.
Qed.

Lemma append_assoc (a b c : string) : (a ++ b) ++ c = a ++ b ++ c.
Proof. induction a as [|x a IH]; simpl; [reflexivity | now rewrite IH]. Qed.

End TextFacts.

(** ** Dictionaries *)

Section DictFacts.

Lemma get_set_same (d : dict) (k : string) (v : value) :
  Dict.get (Dict.set d k v) k = Some v.
Proof.
  induction d as [|[k' v'] d IH]; simpl.
  - now rewrite String.eqb_refl.
  - destruct (String.eqb k' k) eqn:E; simpl; rewrite E; [reflexivity | exact IH].
Qed.

Lemma get_set_other (d : dict) (k k' : string) (v : value) :
  k <> k' -> Dict.get (Dict.set d k v) k' = Dict.get d k'.
Proof.
  intros Hne. induction d as [|[k0 v0] d IH]; simpl.
  - destruct (String.eqb k k') eqn:E; [apply String.eqb_eq in E; contradiction | reflexivity].
  - destruct (String.eqb k0 k) eqn:E; simpl.
    + apply String.eqb_eq in E; subst k0.
      destruct (String.eqb k k') eqn:E'; [apply String.eqb_eq in E'; contradiction | reflexivity].
    + now rewrite IH.
Qed.

Lemma mem_get (d : dict) (k : string) :
  Dict.mem d k = match Dict.get d k with Some _ => true | None => false end.
Proof.
  induction d as [|[k' v'] d IH]; simpl; [reflexivity|].
  destruct (String.eqb k' k); simpl; [reflexivity | exact IH].
Qed.

(** [setdefault] read back: a key that was there keeps its value, the
    defaulted key takes the default when it was absent. *)
Lemma get_setdefault (d : dict) (k k' : string) (v : value) :
  Dict.get (Dict.setdefault d k v) k' =
  match Dict.get d k' with
  | Some v' => Some v'
  | None => if String.eqb k k' then Some v else None
  end.
Proof.
  unfold Dict.setdefault. rewrite mem_get.
  destruct (String.eqb k k') eqn:E.
  - apply String.eqb_eq in E; subst k'.
    destruct (Dict.get d k) eqn:G; [now rewrite G | apply get_set_same].
  - assert (k <> k') by (intros ->; rewrite String.eqb_refl in E; discriminate).
    destruct (Dict.get d k) eqn:G.
    + now destruct (Dict.get d k').
    + rewrite get_set_other by assumption. now destruct (Dict.get d k').
Qed.

End DictFacts.

(** ** The deals read from the grid *)

Section StoredDeals.

Context {casing : Py.CaseMapping}.

Lemma fill_deal_keeps (d : deal) (j : nat) (headers row : list string) :
  cells_are_text d /\ has_row_number d ->
  cells_are_text (fill_deal d j headers row)
  /\ has_row_number (fill_deal d j headers row).
Proof.
  revert d j; induction headers as [|h headers IH]; intros d j [Ht Hr]; simpl.
  - now split.
  - apply IH. split.
    + intros k v. destruct (string_dec h k) as [<-|Hne].
      * rewrite get_set_same. intros [= <-]. right. eauto.
      * rewrite get_set_other by assumption. apply Ht.
    + unfold has_row_number. destruct (string_dec h "row_number") as [->|Hne].
      * now rewrite get_set_same.
      * now rewrite get_set_other.
Qed.

Lemma deals_from_keep (i : nat) (headers : list string) (rows : list (list string)) :
  Forall (fun d => cells_are_text d /\ has_row_number d) (deals_from i headers rows).
Proof.
  revert i; induction rows as [|row rows IH]; intros i; simpl; constructor.
  - apply fill_deal_keeps. split.
    + intros k v. unfold Dict.get.
      destruct (String.eqb "row_number" k) eqn:E.
      * apply String.eqb_eq in E. now left.
      * intros G. discriminate G.
    + unfold has_row_number. simpl. discriminate.
  - apply IH.
Qed.

Lemma stored_deals_keep (st : sheet) :
  Forall (fun d => cells_are_text d /\ has_row_number d) (stored_deals st).
Proof.
  unfold stored_deals. destruct (grid st); [constructor | apply deals_from_keep].
Qed.

(** Reading leaves the sheet as it is and cannot fail. *)
Lemma get_all_deals_reads (st : sheet) :
  get_all_deals st = (Ok (stored_deals st), st).
Proof.
  unfold get_all_deals, stored_deals, bind, Sheets.values_get, ret.
  now destruct (grid st).
Qed.

Lemma lower_empty : Py.lower EmptyString = EmptyString.
Proof. now rewrite Py.lower_ascii. Qed.

Lemma lower_text_of (d : deal) (key : string) :
  cells_are_text d -> key <> "row_number" ->
  value_lower (Dict.get_default d key (VStr EmptyString))
  = Ok (Py.lower (text_of d key)).
Proof.
  intros Ht Hk. unfold Dict.get_default, text_of.
  destruct (Dict.get d key) as [v|] eqn:G; [|reflexivity].
  destruct (Ht _ _ G) as [->|[s ->]]; [contradiction | reflexivity].
Qed.

End StoredDeals.

(** ** Company lookup *)

Section Lookup.

Context {casing : Py.CaseMapping}.

Lemma first_match_spec (q : string) (deals : list deal) :
  Forall (fun d => cells_are_text d /\ has_row_number d) deals ->
  (exists before d after,
      deals = (before ++ d :: after)%list
      /\ (forall d', In d' before -> ~ ci_substring q (text_of d' "company_name"))
      /\ ci_substring q (text_of d "company_name")
      /\ first_match (Py.lower q) deals = Ok (Some d))
  \/ ((forall d, In d deals -> ~ ci_substring q (text_of d "company_name"))
      /\ first_match (Py.lower q) deals = Ok None).
Proof.
  induction 1 as [|d deals [Ht _] _ IH]; simpl.
  - right. split; [intros d [] | reflexivity].
  - rewrite lower_text_of by (assumption || discriminate).
    destruct (Py.contains (Py.lower q) (Py.lower (text_of d "company_name"))) eqn:C.
    + left. exists [], d, deals. repeat split.
      * intros d' [].
      * apply contains_iff. exact C.
    + assert (Hno : ~ ci_substring q (text_of d "company_name")).
      { intros Hc. apply contains_iff in Hc. congruence. }
      destruct IH as [(before & d0 & after & -> & Hb & Hm & Hf) | [Hall Hf]].
      * left. exists (d :: before), d0, after. repeat split; try assumption.
        intros d' [<-|Hin]; [exact Hno | now apply Hb].
      * right. split; [|exact Hf].
        intros d' [<-|Hin]; [exact Hno | now apply Hall].
Qed.

Lemma find_deal_runs (q : string) (st : sheet) :
  find_deal (VStr q) st = (first_match (Py.lower q) (stored_deals st), st).
Proof.
  unfold find_deal, bind. rewrite get_all_deals_reads. reflexivity.
Qed.

Lemma lower_char_code (c : ascii) :
  nat_of_ascii (Py.lower_char c)
  = if Py.is_upper c then nat_of_ascii c + 32 else nat_of_ascii c.
Proof.
  unfold Py.lower_char. destruct (Py.is_upper c) eqn:E; [|reflexivity].
  apply nat_ascii_embedding. unfold Py.is_upper in E.
  apply andb_true_iff in E as [_ E]. apply Nat.leb_le in E. lia.
Qed.

(** Two characters are lowered to the same character exactly when they
    are the same letter. *)
Lemma same_letter_lower (a b : ascii) :
  same_letter a b = true <-> Py.lower_char a = Py.lower_char b.
Proof.
  assert (Hinj : forall x y : ascii, nat_of_ascii x = nat_of_ascii y <-> x = y).
  { intros x y. split; [|now intros ->].
    intros H. rewrite <- (ascii_nat_embedding x), <- (ascii_nat_embedding y).
    now rewrite H. }
  rewrite <- Hinj, !lower_char_code. unfold same_letter, Py.is_upper.
  rewrite !orb_true_iff, !andb_true_iff, Ascii.eqb_eq, <- Hinj.
  rewrite !Nat.eqb_eq, !Nat.leb_le.
  destruct (65 <=? nat_of_ascii a) eqn:A1; destruct (nat_of_ascii a <=? 90) eqn:A2;
    destruct (65 <=? nat_of_ascii b) eqn:B1; destruct (nat_of_ascii b <=? 90) eqn:B2;
    cbn [andb];
    repeat match goal with
           | H : (_ <=? _) = true |- _ => apply Nat.leb_le in H
           | H : (_ <=? _) = false |- _ => apply Nat.leb_gt in H
           end; lia.
Qed.

Lemma same_up_to_case_lower (a b : string) :
  same_up_to_case a b = true <-> Py.ascii_lower a = Py.ascii_lower b.
Proof.
  revert b; induction a as [|x a IH]; intros [|y b]; cbn [same_up_to_case Py.ascii_lower];
    try (split; [reflexivity || discriminate | reflexivity || discriminate]).
  rewrite andb_true_iff, same_letter_lower, IH. split.
  - intros [-> ->]. reflexivity.
  - intros [= -> ->]. split; reflexivity.
Qed.

Lemma ascii_lower_app (a b : string) :
  Py.ascii_lower (a ++ b) = Py.ascii_lower a ++ Py.ascii_lower b.
Proof. induction a as [|x a IH]; simpl; [reflexivity | now rewrite IH]. Qed.

Lemma ascii_lower_split (s x y : string) :
  Py.ascii_lower s = x ++ y ->
  exists s1 s2, s = s1 ++ s2 /\ Py.ascii_lower s1 = x /\ Py.ascii_lower s2 = y.
Proof.
  revert s; induction x as [|c x IH]; intros s H.
  - exists EmptyString, s. auto.
  - destruct s as [|c0 s]; [discriminate H|].
    cbn [Py.ascii_lower append] in H. injection H as Hc H.
    destruct (IH s H) as (s1 & s2 & -> & H1 & H2).
    exists (String c0 s1), s2. cbn [Py.ascii_lower append].
    now rewrite Hc, H1.
Qed.

(** On ASCII text, the lowered name holds the lowered query exactly when
    a run of the name is the query up to letter case. *)
Lemma ci_substring_ascii (query name : string) :
  Py.is_ascii query = true -> Py.is_ascii name = true ->
  ci_substring query name <-> holds_up_to_case query name.
Proof.
  intros Hq Hn. unfold ci_substring, holds_up_to_case.
  rewrite (Py.lower_ascii _ Hq), (Py.lower_ascii _ Hn). split.
  - intros (b & a & H).
    apply ascii_lower_split in H as (n1 & r & -> & _ & H).
    apply ascii_lower_split in H as (n2 & n3 & -> & H & _).
    exists n1, n2, n3. split; [reflexivity|]. now apply same_up_to_case_lower.
  - intros (before & run & after & -> & H).
    apply same_up_to_case_lower in H.
    exists (Py.ascii_lower before), (Py.ascii_lower after).
    now rewrite !ascii_lower_app, H.
Qed.


End Lookup.


(** ** Reading the grid *)

Section Reading.

Context {casing : Py.CaseMapping}.

Lemma normalized_char_lower (c : ascii) :
  (if Ascii.eqb " " (Py.lower_char c) then "_"%char else Py.lower_char c)
  = normalized_char c.
Proof. destruct c as [[] [] [] [] [] [] [] []]; reflexivity. Qed.

(** A header of ASCII characters is normalized character by character. *)
Lemma normalize_header_chars (header : string) :
  Py.is_ascii header = true ->
  normalize_header header = map_chars normalized_char header.
Proof.
  intros Ha. unfold normalize_header, Py.replace. rewrite (Py.lower_ascii _ Ha).
  clear Ha. induction header as [|c s IH]; [reflexivity|].
  cbn [Py.ascii_lower Py.replace_from Py.startswith String.length Nat.sub map_chars].
  rewrite andb_true_r, <- normalized_char_lower.
  destruct (Ascii.eqb " " (Py.lower_char c)); cbn [append map_chars];
    now rewrite IH.
Qed.

Lemma pad_row_nil (n : nat) :
  pad_row (S n) [] = EmptyString :: pad_row n [].
Proof. unfold pad_row. simpl. now rewrite firstn_nil, Nat.sub_0_r. Qed.

Lemma skipn_step (j : nat) (row : list string) :
  (skipn j row = [] /\ (j <? List.length row) = false /\ skipn (S j) row = [])
  \/ exists x rest,
      skipn j row = x :: rest /\ (j <? List.length row) = true
      /\ nth j row EmptyString = x /\ skipn (S j) row = rest.
Proof.
  revert row; induction j as [|j IH]; intros [|x row].
  - left. auto.
  - right. exists x, row. auto.
  - left. auto.
  - destruct (IH row) as [(E & L & E') | (y & rest & E & L & N & E')].
    + left. auto.
    + right. exists y, rest. auto.
Qed.

(** The index loop builds what the zip of the padded row builds. *)
Lemma fill_deal_zip (d : deal) (j : nat) (headers row : list string) :
  fill_deal d j headers row
  = fold_left setter
      (combine headers (map VStr (pad_row (List.length headers) (skipn j row)))) d.
Proof.
  revert d j; induction headers as [|h headers IH]; intros d j; simpl;
    [reflexivity|].
  rewrite IH.
  destruct (skipn_step j row) as [(E & L & E') | (x & rest & E & L & N & E')];
    rewrite E, L, E'.
  - rewrite pad_row_nil. reflexivity.
  - rewrite N. reflexivity.
Qed.

Lemma fill_deal_is_zip_deal (i : nat) (headers row : list string) :
  fill_deal [("row_number", VInt (Z.of_nat i))] 0 headers row
  = zip_deal i headers row.
Proof. rewrite fill_deal_zip. reflexivity. Qed.

Lemma get_fold_setter (pairs : list (string * value)) (d : dict) (k : string) :
  ~ In k (map fst pairs) ->
  Dict.get (fold_left setter pairs d) k = Dict.get d k.
Proof.
  revert d; induction pairs as [|[k' v] pairs IH]; intros d Hnot; simpl;
    [reflexivity|].
  rewrite IH by (intros Hin; apply Hnot; now right).
  apply get_set_other. intros E. apply Hnot. left. exact E.
Qed.

Lemma zip_deal_row_number (i : nat) (headers row : list string) :
  ~ In "row_number" headers ->
  Dict.get (zip_deal i headers row) "row_number" = Some (VInt (Z.of_nat i)).
Proof.
  intros Hnot. unfold zip_deal, dict_of_pairs. simpl fold_left.
  fold setter. rewrite get_fold_setter; [reflexivity|].
  intros Hin. apply Hnot. apply in_map_iff in Hin as [[k v] [<- Hin]].
  eapply in_combine_l. exact Hin.
Qed.

Lemma deals_from_nth (i k : nat) (headers : list string)
  (rows : list (list string)) (row : list string) :
  nth_error rows k = Some row ->
  nth_error (deals_from i headers rows) k = Some (zip_deal (k + i) headers row).
Proof.
  revert i k; induction rows as [|row0 rows IH]; intros i [|k]; simpl;
    try discriminate.
  - intros [= ->]. now rewrite fill_deal_is_zip_deal.
  - intros H. rewrite (IH (S i) k H). now rewrite Nat.add_succ_r.
Qed.

Lemma deals_from_length (i : nat) (headers : list string)
  (rows : list (list string)) :
  List.length (deals_from i headers rows) = List.length rows.
Proof. revert i; induction rows; intros i; simpl; [|rewrite IHrows]; reflexivity. Qed.

(** Reading the grid, for every grid.  Row 1 gives the headers, each
    normalized, and is never a deal; every later row gives one deal, in
    row order: the dict of its row number and of the positional zip of
    its cells, padded with empty text, against the headers.  The deal
    carries its row number when no header normalizes to [row_number]. *)
Lemma get_all_deals_zip (st : sheet) (header_row : list string)
  (rows : list (list string)) :
  grid st = header_row :: rows ->
  let headers := map normalize_header header_row in
  exists deals,
    get_all_deals st = (Ok deals, st)
    /\ List.length deals = List.length rows
    /\ forall k row,
        nth_error rows k = Some row ->
        nth_error deals k = Some (zip_deal (k + 2) headers row)
        /\ (~ In "row_number" headers ->
            Dict.get (zip_deal (k + 2) headers row) "row_number"
            = Some (VInt (Z.of_nat (k + 2)))).
Proof.
  intros Hg headers.
  exists (stored_deals st). split; [apply get_all_deals_reads|].
  unfold stored_deals. rewrite Hg. fold headers. split.
  - apply deals_from_length.
  - intros k row Hk. split.
    + now apply deals_from_nth.
    + apply zip_deal_row_number.
Qed.

(** An empty grid holds no deal. *)
Lemma get_all_deals_empty (st : sheet) :
  grid st = [] -> get_all_deals st = (Ok [], st).
Proof. intros Hg. rewrite get_all_deals_reads. unfold stored_deals. now rewrite Hg. Qed.

End Reading.


(** On the sample sheet every deal carries the number of its row. *)
Example get_all_deals_sample :
  exists d1 d2,
    get_all_deals sample_sheet = (Ok [d1; d2], sample_sheet)
    /\ Dict.get d1 "row_number" = Some (VInt 2)
    /\ Dict.get d2 "row_number" = Some (VInt 3)
    /\ Dict.get d2 "lost_reason" = Some (VStr "").
Proof.
  destruct (get_all_deals_zip sample_sheet _ _ eq_refl)
    as (deals & Hget & _ & Hnth).
  destruct (Hnth 0 _ eq_refl) as [H0 _].
  destruct (Hnth 1 _ eq_refl) as [H1 _].
  destruct deals as [|d1 [|d2 [|d3 deals]]];
    try (vm_compute in Hget; discriminate Hget).
  exists d1, d2. split; [exact Hget|].
  injection H0 as ->. injection H1 as ->.
  vm_compute. repeat split.
Qed.

(** ** Listing *)

Section Listing.

Context {casing : Py.CaseMapping}.

Lemma filter_stage_spec (s : string) (deals : list deal) :
  Forall (fun d => cells_are_text d /\ has_row_number d) deals ->
  filter_stage (VStr s) deals
  = Ok (filter (fun d => ci_equal (text_of d "stage") s) deals).
Proof.
  induction 1 as [|d deals [Ht _] _ IH]; simpl; [reflexivity|].
  rewrite lower_text_of by (assumption || discriminate).
  rewrite IH. reflexivity.
Qed.

(** C9.  Without a stage filter the listing is all the stored deals; with
    a stage filter it is exactly the stored deals whose stage equals the
    filter with letter case set aside, in row order. *)
Theorem list_deals_by_stage (st : sheet) :
  list_deals VNone st = (Ok (stored_deals st), st)
  /\ forall s,
      s <> EmptyString ->
      list_deals (VStr s) st
      = (Ok (filter (fun d => ci_equal (text_of d "stage") s) (stored_deals st)),
         st).
Proof.
  split.
  - unfold list_deals, bind. rewrite get_all_deals_reads. reflexivity.
  - intros s Hs. unfold list_deals, bind. rewrite get_all_deals_reads.
    assert (PyValue.truthy (VStr s) = true) as ->.
    { simpl. destruct s; [contradiction | reflexivity]. }
    unfold lift. now rewrite filter_stage_spec by apply stored_deals_keep.
Qed.

(** An empty text is no filter. *)
Remark list_deals_empty_text (st : sheet) :
  list_deals (VStr EmptyString) st = (Ok (stored_deals st), st).
Proof. unfold list_deals, bind. rewrite get_all_deals_reads. reflexivity. Qed.

End Listing.

Lemma list_deals_by_stage_witness :
  exists d,
    list_deals (VStr "discovery") sample_sheet = (Ok [d], sample_sheet)
    /\ text_of d "company_name" = "Beta Works"
    /\ text_of d "stage" = "Discovery".
Proof.
  eexists. split.
  - rewrite (proj2 (list_deals_by_stage sample_sheet) "discovery") by discriminate.
    vm_compute. reflexivity.
  - split; reflexivity.
Defined.

(** ** Updates *)

Section Updates.

Context {casing : Py.CaseMapping}.

Context {backend : SheetsBackend}.

Local Arguments column_of : simpl never.

Lemma first_match_in (company_lower : string) (deals : list deal) (d : deal) :
  first_match company_lower deals = Ok (Some d) -> In d deals.
Proof.
  induction deals as [|d0 deals IH]; simpl; [discriminate|].
  destruct (value_lower _); [|discriminate].
  destruct (Py.contains _ _).
  - intros [= <-]. now left.
  - intros H. right. now apply IH.
Qed.

(** A deal that lookup returns is one of the stored deals. *)
Lemma find_deal_found (q : string) (st st' : sheet) (d : deal) :
  find_deal (VStr q) st = (Ok (Some d), st') ->
  In d (stored_deals st) /\ st' = st.
Proof.
  rewrite find_deal_runs. intros [= H <-]. split; [|reflexivity].
  eapply first_match_in; eassumption.
Qed.

Lemma found_has_row (q : string) (st st' : sheet) (d : deal) :
  find_deal (VStr q) st = (Ok (Some d), st') ->
  exists row, Dict.get d "row_number" = Some row.
Proof.
  intros H. apply find_deal_found in H as [Hin _].
  pose proof (stored_deals_keep st) as Hall.
  rewrite Forall_forall in Hall. destruct (Hall _ Hin) as [_ Hr].
  unfold has_row_number in Hr.
  destruct (Dict.get d "row_number") as [row|]; [now exists row | congruence].
Qed.

(** [update_deal], case by case. *)
Lemma update_deal_unfold (company updates : value) (st : sheet) :
  update_deal company updates st =
  match find_deal company st with
  | (Ok (Some (kv :: d)), st0) =>
      match Dict.get (kv :: d) "row_number" with
      | None => (Raise KeyError, st0)
      | Some row =>
          match updates with
          | VDict items =>
              match write_updates row items st0 with
              | (Ok _, st1) =>
                  (Ok ("Updated " ++ PyValue.str company ++ ": "
                         ++ PyValue.str updates), st1)
              | (Raise e, st1) => (Raise e, st1)
              end
          | _ => (Raise AttributeError, st0)
          end
      end
  | (Ok _, st0) =>
      (Ok ("Could not find a deal for '" ++ PyValue.str company ++ "'"), st0)
  | (Raise e, st0) => (Raise e, st0)
  end.
Proof.
  unfold update_deal, bind.
  destruct (find_deal company st) as [[[[|kv d]|]|e0] st0]; try reflexivity.
  destruct (Dict.get (kv :: d) "row_number") as [row|]; [|reflexivity].
  destruct updates; reflexivity.
Qed.

(** What [update_deal] does once lookup has found [d]. *)
Lemma update_deal_found (q : string) (st : sheet) (d : deal) (row : value)
  (items : list (string * value)) :
  find_deal (VStr q) st = (Ok (Some d), st) ->
  Dict.get d "row_number" = Some row ->
  update_deal (VStr q) (VDict items) st =
  match write_updates row items st with
  | (Ok _, st') =>
      (Ok ("Updated " ++ q ++ ": " ++ PyValue.repr (VDict items)), st')
  | (Raise e, st') => (Raise e, st')
  end.
Proof.
  intros Hf Hr. unfold update_deal, bind. rewrite Hf.
  destruct d as [|kv d]; [discriminate Hr|].
  rewrite Hr. destruct (write_updates row items st) as [[[]|e] st']; reflexivity.
Qed.

(** The loop passes over the fields that have no column. *)
Lemma write_updates_known (row : value) (items : list (string * value))
  (st : sheet) :
  write_updates row items st = write_updates row (known_items items) st.
Proof.
  revert st; induction items as [|[field v] items IH]; intros st; simpl;
    [reflexivity|].
  destruct (column_of COLUMNS field) as [col|] eqn:E; simpl.
  - rewrite E. unfold bind.
    destruct (Sheets.values_update _ _ _) as [[[]|e] st1]; [apply IH | reflexivity].
  - apply IH.
Qed.

Lemma known_items_none (items : list (string * value)) :
  (forall field v, In (field, v) items -> column_of COLUMNS field = None) ->
  known_items items = [].
Proof.
  induction items as [|[field v] items IH]; intros H; simpl; [reflexivity|].
  rewrite (H field v) by now left.
  apply IH. intros f' v' Hin. apply (H f' v'). now right.
Qed.

(** C5.  An update whose company name matches no stored deal returns the
    not-found message and leaves the sheet, write log included, exactly
    as it was: no cell is written. *)
Theorem update_deal_not_found (st : sheet) (q : string) (updates : value) :
  (forall d, In d (stored_deals st) ->
             ~ ci_substring q (text_of d "company_name")) ->
  update_deal (VStr q) updates st
  = (Ok ("Could not find a deal for '" ++ q ++ "'"), st).
Proof.
  intros Hnone. unfold update_deal, bind. rewrite find_deal_runs.
  destruct (first_match_spec q (stored_deals st) (stored_deals_keep st))
    as [(before & d & after & E & _ & Hm & _) | [_ Hf]].
  - exfalso. apply (Hnone d); [|exact Hm].
    rewrite E. apply in_or_app. right. now left.
  - rewrite Hf. reflexivity.
Qed.

(** C10.  An update of an existing deal whose mapping is not empty and
    names only fields outside the column mapping writes no cell, and
    still returns the summary that names the company and the mapping: the
    very text every successful update with this mapping returns. *)
Theorem update_deal_unknown_only (st : sheet) (q : string) (d : deal)
  (items : list (string * value)) :
  find_deal (VStr q) st = (Ok (Some d), st) ->
  items <> [] ->
  (forall field v, In (field, v) items -> column_of COLUMNS field = None) ->
  update_deal (VStr q) (VDict items) st
  = (Ok ("Updated " ++ q ++ ": " ++ PyValue.repr (VDict items)), st)
  /\ forall st1 d1 summary st1',
      find_deal (VStr q) st1 = (Ok (Some d1), st1) ->
      update_deal (VStr q) (VDict items) st1 = (Ok summary, st1') ->
      summary = "Updated " ++ q ++ ": " ++ PyValue.repr (VDict items).
Proof.
  intros Hf _ Hunknown. split.
  - destruct (found_has_row _ _ _ _ Hf) as [row Hr].
    rewrite (update_deal_found _ _ _ _ _ Hf Hr).
    rewrite write_updates_known, (known_items_none _ Hunknown). reflexivity.
  - intros st1 d1 summary st1' Hf1.
    destruct (found_has_row _ _ _ _ Hf1) as [row Hr].
    rewrite (update_deal_found _ _ _ _ _ Hf1 Hr).
    destruct (write_updates row items st1) as [[[]|e] st2]; congruence.
Qed.

(** C1, as the code has it.  A field outside the fixed fourteen is passed
    over: the update ends in the state, and fails or succeeds, as the
    update with the unknown fields taken out of the mapping does.  So no
    cell is written for such a field, the other fields are written all
    the same, and no error is raised on its account. *)
Theorem update_deal_skips_unknown (company : value)
  (items : list (string * value)) (st : sheet) :
  snd (update_deal company (VDict items) st)
  = snd (update_deal company (VDict (known_items items)) st)
  /\ forall e,
      fst (update_deal company (VDict items) st) = Raise e
      <-> fst (update_deal company (VDict (known_items items)) st) = Raise e.
Proof.
  rewrite !update_deal_unfold.
  destruct (find_deal company st) as [[[[|kv d]|]|e0] st0]; cbn [fst snd];
    try (split; [reflexivity | intros e; split; (discriminate || auto)]).
  destruct (Dict.get (kv :: d) "row_number") as [row|]; cbn [fst snd];
    try (split; [reflexivity | intros e; split; (discriminate || auto)]).
  rewrite (write_updates_known row items).
  destruct (write_updates row (known_items items) st0) as [[[]|e1] st1];
    cbn [fst snd];
    split; try reflexivity; intros e; split; (discriminate || auto).
Qed.

End Updates.

(** C1 fails as stated: a mapping with the unknown field [bogus] is not
    refused, and the known field beside it is written. *)
Lemma update_deal_unknown_field_not_refused :
  fst mixed_update_outcome = Ok "Updated Acme: {'stage': 'Won', 'bogus': 'x'}"
  /\ calls (snd mixed_update_outcome) = [Update "G2" (VStr "Won")]
  /\ Sheets.cell_at (grid (snd mixed_update_outcome)) 1 6 = "Won"
  /\ ~ ((exists e, fst mixed_update_outcome = Raise e)
        /\ snd mixed_update_outcome = sample_sheet).
Proof.
  vm_compute. repeat split. intros [[e He] _]. discriminate He.
Qed.

Lemma update_deal_not_found_witness :
  @update_deal ascii_text plain_backend (VStr "Nonexistent")
    (VDict [("stage", VStr "Won")]) sample_sheet
  = (Ok "Could not find a deal for 'Nonexistent'", sample_sheet).
Proof.
  apply (@update_deal_not_found ascii_text plain_backend sample_sheet "Nonexistent").
  intros d Hin Hc. apply contains_iff in Hc.
  vm_compute in Hin.
  destruct Hin as [<-|[<-|[]]]; vm_compute in Hc; discriminate Hc.
Defined.

Lemma update_deal_unknown_only_witness :
  @update_deal ascii_text plain_backend (VStr "acme")
    (VDict [("owner", VStr "Kim"); ("Stage", VStr "Won")]) sample_sheet
  = (Ok "Updated acme: {'owner': 'Kim', 'Stage': 'Won'}", sample_sheet).
Proof.
  refine (proj1 (@update_deal_unknown_only ascii_text plain_backend sample_sheet "acme"
                   _ [("owner", VStr "Kim"); ("Stage", VStr "Won")] _ _ _)).
  - vm_compute. reflexivity.
  - discriminate.
  - intros field v [[= <- <-]|[[= <- <-]|[]]]; reflexivity.
Defined.

(** ** The grid under a cell write *)

Section GridFacts.

Lemma nth_alter_nth_same {A} (default : A) (f : A -> A) (n : nat) (l : list A) :
  nth n (Sheets.alter_nth default f n l) default = f (nth n l default).
Proof.
  revert l; induction n as [|n IH]; intros [|x l]; simpl; try reflexivity.
  - rewrite IH. now destruct n.
  - apply IH.
Qed.

Lemma nth_alter_nth_other {A} (default : A) (f : A -> A) (n m : nat) (l : list A) :
  m <> n ->
  nth m (Sheets.alter_nth default f n l) default = nth m l default.
Proof.
  revert m l; induction n as [|n IH]; intros [|m] [|x l] Hne; simpl;
    try reflexivity; try congruence.
  - now destruct m.
  - rewrite IH by congruence. now destruct m.
  - apply IH. congruence.
Qed.

Lemma cell_at_set_cell_other (g : list (list string)) (r c r' c' : nat)
  (text : string) :
  (r', c') <> (r, c) ->
  Sheets.cell_at (Sheets.set_cell g r c text) r' c' = Sheets.cell_at g r' c'.
Proof.
  intros Hne. unfold Sheets.cell_at, Sheets.set_cell.
  destruct (Nat.eq_dec r' r) as [->|Hr].
  - rewrite nth_alter_nth_same. apply nth_alter_nth_other. congruence.
  - now rewrite nth_alter_nth_other.
Qed.

Lemma cell_at_set_cell_same (g : list (list string)) (r c : nat) (text : string) :
  Sheets.cell_at (Sheets.set_cell g r c text) r c = text.
Proof.
  unfold Sheets.cell_at, Sheets.set_cell. now rewrite !nth_alter_nth_same.
Qed.

Lemma col_of_letters_ge (acc : nat) (letters : string) :
  acc <= Sheets.col_of_letters acc letters.
Proof.
  revert acc; induction letters as [|c s IH]; intros acc; simpl; [lia|].
  etransitivity; [|apply IH]. lia.
Qed.

Lemma span_upper_head (s letters rest : string) (c : ascii) :
  Sheets.span_upper s = (String c letters, rest) -> Py.is_upper c = true.
Proof.
  destruct s as [|c0 s]; simpl; [discriminate|].
  destruct (Py.is_upper c0) eqn:E.
  - destruct (Sheets.span_upper s). now intros [= <- _ _].
  - discriminate.
Qed.

(** A range that parses names a cell: its row and column are at least 1. *)
Lemma parse_a1_names (range : string) (r1 c1 : nat) :
  Sheets.parse_a1 range = Some (r1, c1) ->
  names_cell range (r1 - 1) (c1 - 1).
Proof.
  unfold names_cell. intros H. rewrite H. revert H. unfold Sheets.parse_a1.
  destruct (Sheets.span_upper range) as [letters digits] eqn:E.
  destruct letters as [|c letters]; [discriminate|].
  destruct digits as [|dc digits]; [discriminate|].
  destruct (NilEmpty.uint_of_string _) as [d|]; [|discriminate].
  destruct (Pos.of_uint d) as [|p]; [discriminate|].
  intros [= <- <-].
  apply span_upper_head in E. unfold Py.is_upper in E.
  apply andb_true_iff in E as [E1 _]. apply Nat.leb_le in E1.
  pose proof (Pos2Nat.is_pos p).
  pose proof (col_of_letters_ge (nat_of_ascii c - 64) letters).
  simpl Sheets.col_of_letters.
  do 2 f_equal; lia.
Qed.

Lemma span_upper_digits (d : uint) :
  Sheets.span_upper (NilEmpty.string_of_uint d)
  = (EmptyString, NilEmpty.string_of_uint d).
Proof. destruct d; reflexivity. Qed.

Lemma str_of_row (n : nat) :
  Py.str_of_Z (Z.of_nat (S n))
  = NilEmpty.string_of_uint (Pos.to_uint (Pos.of_succ_nat n)).
Proof.
  unfold Py.str_of_Z. simpl.
  pose proof (DecimalPos.Unsigned.to_uint_nonnil (Pos.of_succ_nat n)) as Hn.
  destruct (Pos.to_uint (Pos.of_succ_nat n)); [congruence | reflexivity ..].
Qed.

(** The cell named by a capital letter followed by a row number. *)
Lemma parse_a1_letter (c : ascii) (n : nat) :
  Py.is_upper c = true ->
  Sheets.parse_a1 (String c (Py.str_of_Z (Z.of_nat (S n))))
  = Some (S n, nat_of_ascii c - 64).
Proof.
  intros Hc. rewrite str_of_row. unfold Sheets.parse_a1.
  simpl Sheets.span_upper. rewrite Hc, span_upper_digits.
  pose proof (DecimalPos.Unsigned.to_uint_nonnil (Pos.of_succ_nat n)) as Hn.
  destruct (NilEmpty.string_of_uint (Pos.to_uint (Pos.of_succ_nat n))) eqn:E.
  - destruct (Pos.to_uint (Pos.of_succ_nat n)); (congruence || discriminate E).
  - rewrite <- E, NilEmpty.usu, DecimalPos.Unsigned.of_to.
    now rewrite SuccNat2Pos.id_succ.
Qed.

(** In row [S n] the column letter of a field names the cell at the
    field's place in the fixed order. *)
Lemma names_cell_of_row (field col : string) (n r c : nat) :
  column_of COLUMNS field = Some col ->
  names_cell (col ++ PyValue.str (VInt (Z.of_nat (S n)))) r c ->
  r = n /\ index_of field FIELDS = Some c.
Proof.
  unfold names_cell, column_of, COLUMNS, index_of, FIELDS.
  repeat match goal with
         | |- context [String.eqb ?a field] =>
             destruct (String.eqb a field) eqn:?
         end;
    try discriminate;
    intros [= <-]; cbn [PyValue.str PyValue.repr append];
    rewrite parse_a1_letter by reflexivity;
    intros [= -> <-]; split; reflexivity.
Qed.

End GridFacts.

Section Frame.

Context {casing : Py.CaseMapping}.

Context {backend : SheetsBackend}.

Local Arguments column_of : simpl never.

Lemma values_update_effect (range : string) (v : value) (st st' : sheet)
  (res : result unit) :
  Sheets.values_update range v st = (res, st') ->
  calls st' = (calls st ++ [Update range v])%list
  /\ forall r c,
      Sheets.cell_at (grid st') r c <> Sheets.cell_at (grid st) r c ->
      names_cell range r c.
Proof.
  unfold Sheets.values_update.
  destruct (Sheets.parse_a1 range) as [[r1 c1]|] eqn:P.
  - destruct (user_entered v) as [text|].
    + intros [= _ <-]. simpl. split; [reflexivity|].
      intros r c Hne.
      destruct (Nat.eq_dec r (r1 - 1)) as [->|Hr];
        [destruct (Nat.eq_dec c (c1 - 1)) as [->|Hc]|].
      * now apply parse_a1_names.
      * exfalso. apply Hne. apply cell_at_set_cell_other. congruence.
      * exfalso. apply Hne. apply cell_at_set_cell_other. congruence.
    + intros [= _ <-]. simpl. split; [reflexivity|]. intros r c Hne. congruence.
  - intros [= _ <-]. simpl. split; [reflexivity|]. intros r c Hne. congruence.
Qed.

Lemma write_updates_effect (row : value) (items : list (string * value))
  (st st' : sheet) (res : result unit) :
  write_updates row items st = (res, st') ->
  (exists new, calls st' = (calls st ++ new)%list
               /\ Forall (update_call_of row items) new)
  /\ forall r c,
      Sheets.cell_at (grid st') r c <> Sheets.cell_at (grid st) r c ->
      exists field v col,
        In (field, v) items /\ column_of COLUMNS field = Some col
        /\ names_cell (col ++ PyValue.str row) r c.
Proof.
  revert st; induction items as [|[field v] items IH]; intros st; simpl.
  - intros [= _ <-]. split.
    + exists []. now rewrite app_nil_r.
    + intros r c Hne. congruence.
  - assert (Hweak : forall new, Forall (update_call_of row items) new ->
                                Forall (update_call_of row ((field, v) :: items)) new).
    { intros new. apply Forall_impl. intros c (f0 & v0 & col0 & -> & Hin & Hc).
      exists f0, v0, col0. repeat split; [now right | exact Hc]. }
    destruct (column_of COLUMNS field) as [col|] eqn:E.
    + unfold bind.
      destruct (Sheets.values_update (col ++ PyValue.str row) v st)
        as [r1 st1] eqn:U.
      apply values_update_effect in U as [Hlog Hgrid].
      assert (Hfirst : update_call_of row ((field, v) :: items)
                         (Update (col ++ PyValue.str row) v)).
      { exists field, v, col. repeat split; [now left | exact E]. }
      destruct r1 as [[]|e].
      * intros Hrest. apply IH in Hrest as [(new & Hnew & Hall) Hcells]. split.
        -- exists (Update (col ++ PyValue.str row) v :: new). split.
           ++ rewrite Hnew, Hlog, <- app_assoc. reflexivity.
           ++ constructor; [exact Hfirst | now apply Hweak].
        -- intros r c Hne.
           destruct (string_dec (Sheets.cell_at (grid st') r c)
                                (Sheets.cell_at (grid st1) r c)) as [Heq|Hd].
           ++ exists field, v, col. repeat split; [now left | exact E |].
              apply Hgrid. congruence.
           ++ destruct (Hcells r c Hd) as (f0 & v0 & col0 & Hin & Hc & Hn).
              exists f0, v0, col0. repeat split; [now right | exact Hc | exact Hn].
      * intros [= _ <-]. split.
        -- exists [Update (col ++ PyValue.str row) v]. split; [exact Hlog|].
           constructor; [exact Hfirst | constructor].
        -- intros r c Hne. exists field, v, col.
           repeat split; [now left | exact E | now apply Hgrid].
    + intros Hrest. apply IH in Hrest as [(new & Hnew & Hall) Hcells]. split.
      * exists new. split; [exact Hnew | now apply Hweak].
      * intros r c Hne.
        destruct (Hcells r c Hne) as (f0 & v0 & col0 & Hin & Hc & Hn).
        exists f0, v0, col0. repeat split; [now right | exact Hc | exact Hn].
Qed.

(** What an update of a found deal may write: requests only for fields
    named in the mapping, each to the cell of that field's column in the
    row the deal's [row_number] names; a cell of the grid that differs
    afterwards is such a cell.  This holds whether the update runs to its
    end or stops at a refused write. *)
Lemma update_deal_writes (st st' : sheet) (q : string) (d : deal)
  (updates : value) (res : result string) :
  find_deal (VStr q) st = (Ok (Some d), st) ->
  update_deal (VStr q) updates st = (res, st') ->
  exists row,
    Dict.get d "row_number" = Some row
    /\ (exists new,
           calls st' = (calls st ++ new)%list
           /\ forall c, In c new ->
                exists field v col items,
                  updates = VDict items /\ In (field, v) items
                  /\ column_of COLUMNS field = Some col
                  /\ c = Update (col ++ PyValue.str row) v)
    /\ forall r c,
        Sheets.cell_at (grid st') r c <> Sheets.cell_at (grid st) r c ->
        exists field v col items,
          updates = VDict items /\ In (field, v) items
          /\ column_of COLUMNS field = Some col
          /\ names_cell (col ++ PyValue.str row) r c
          /\ forall n, row = VInt (Z.of_nat (S n)) ->
                       r = n /\ index_of field FIELDS = Some c.
Proof.
  intros Hf Hu.
  destruct (found_has_row _ _ _ _ Hf) as [row Hr]. exists row.
  split; [exact Hr|].
  rewrite update_deal_unfold, Hf in Hu.
  destruct d as [|kv d]; [discriminate Hr|]. rewrite Hr in Hu.
  assert (Hsame : st' = st ->
            (exists new, calls st' = (calls st ++ new)%list
               /\ forall c, In c new ->
                    exists field v col items,
                      updates = VDict items /\ In (field, v) items
                      /\ column_of COLUMNS field = Some col
                      /\ c = Update (col ++ PyValue.str row) v)
            /\ forall r c,
                Sheets.cell_at (grid st') r c <> Sheets.cell_at (grid st) r c ->
                exists field v col items,
                  updates = VDict items /\ In (field, v) items
                  /\ column_of COLUMNS field = Some col
                  /\ names_cell (col ++ PyValue.str row) r c
                  /\ forall n, row = VInt (Z.of_nat (S n)) ->
                               r = n /\ index_of field FIELDS = Some c).
  { intros ->. split.
    - exists []. split; [now rewrite app_nil_r | intros c []].
    - intros r c Hne. congruence. }
  destruct updates as [| | | | | |items];
    try (apply Hsame; congruence).
  destruct (write_updates row items st) as [r1 st1] eqn:W.
  assert (st1 = st') by (destruct r1 as [[]|e]; congruence). subst st1.
  apply write_updates_effect in W as [(new & Hnew & Hall) Hcells]. split.
  - exists new. split; [exact Hnew|].
    intros c Hin. rewrite Forall_forall in Hall.
    destruct (Hall c Hin) as (field & v & col & -> & Hi & Hc).
    exists field, v, col, items. auto.
  - intros r c Hne.
    destruct (Hcells r c Hne) as (field & v & col & Hi & Hc & Hn).
    exists field, v, col, items.
    do 4 (split; [reflexivity || assumption|]).
    intros n ->. eapply names_cell_of_row; eassumption.
Qed.

Lemma stored_deal_row_number (st : sheet) (d : deal) :
  ~ In "row_number" (map normalize_header (hd [] (grid st))) ->
  In d (stored_deals st) ->
  exists k,
    nth_error (stored_deals st) k = Some d
    /\ Dict.get d "row_number" = Some (VInt (Z.of_nat (S (k + 1)))).
Proof.
  intros Hh Hin. apply In_nth_error in Hin as [k Hk]. exists k.
  split; [exact Hk|]. revert Hh Hk. unfold stored_deals.
  destruct (grid st) as [|header_row rows]; [now destruct k|].
  cbn [hd]. intros Hh Hk.
  destruct (nth_error rows k) as [row|] eqn:R.
  - rewrite (deals_from_nth _ _ _ _ _ R) in Hk. injection Hk as <-.
    rewrite zip_deal_row_number by exact Hh.
    do 3 f_equal. lia.
  - exfalso. apply nth_error_None in R.
    assert (nth_error (deals_from 2 (map normalize_header header_row) rows) k <> None)
      as Hs by congruence.
    apply nth_error_Some in Hs. rewrite deals_from_length in Hs. lia.
Qed.

End Frame.

(** Acme moves from Lead to Discovery: the two cells are written and a new
    read shows the deal with every other field as before. *)
Example update_acme_stage :
  calls (snd stage_update_outcome)
  = [Update "G2" (VStr "Discovery"); Update "H2" (VStr "2024-06-01")]
  /\ hd [] (stored_deals (snd stage_update_outcome))
     = Dict.set (Dict.set (hd [] (stored_deals sample_sheet))
                   "stage" (VStr "Discovery"))
         "stage_date" (VStr "2024-06-01")
  /\ tl (stored_deals (snd stage_update_outcome)) = tl (stored_deals sample_sheet).
Proof. vm_compute. repeat split. Qed.

(** On the sheet with the header [Row Number] the deal found is the one of
    row 2, and the update writes the stage cell of row 7: the row number
    the deal carries is the cell of that column. *)
Lemma update_deal_writes_other_row :
  fst (find_deal (VStr "Acme") odd_sheet) = Ok (nth_error (stored_deals odd_sheet) 0)
  /\ calls (snd odd_update_outcome) = [Update "G7" (VStr "Won")]
  /\ Sheets.cell_at (grid odd_sheet) 6 6 = EmptyString
  /\ Sheets.cell_at (grid (snd odd_update_outcome)) 6 6 = "Won".
Proof. vm_compute. repeat split. Qed.

(** ** Adding a deal *)

Section Adding.

Context {casing : Py.CaseMapping}.

Context {backend : SheetsBackend} {clock : Clock}.

Lemma get_with_defaults (dd : dict) (key : string) :
  Dict.get (with_defaults dd) key =
  match Dict.get dd key with
  | Some v => Some v
  | None => default_of key
  end.
Proof.
  unfold with_defaults, default_of. rewrite !get_setdefault.
  rewrite (String.eqb_sym key "date_entered"), (String.eqb_sym key "stage_date"),
    (String.eqb_sym key "stage").
  destruct (Dict.get dd key); [reflexivity|].
  destruct (String.eqb "date_entered" key); [reflexivity|].
  destruct (String.eqb "stage_date" key); reflexivity.
Qed.

Lemma execute_add (fields dd : dict) (st : sheet) :
  Dict.get_default fields "action" VNone = VStr "add" ->
  Dict.get_default fields "deal" (VDict []) = VDict dd ->
  execute_action (VDict fields) st = add_deal (VDict (with_defaults dd)) st.
Proof.
  intros Ha Hd. unfold execute_action. rewrite Ha, Hd. reflexivity.
Qed.

(** C7.  The add action fills the defaults before the row is appended:
    the mapping handed to [add_deal] holds every supplied entry with its
    supplied value, today's date under [date_entered] and [stage_date]
    exactly when these were absent, [Lead] under [stage] exactly when it
    was absent, and nothing else; the one append request carries the row
    of that mapping in column order, and the result names the company. *)
Theorem execute_add_fills_defaults (fields dd : dict) (st : sheet) :
  Dict.get_default fields "action" VNone = VStr "add" ->
  Dict.get_default fields "deal" (VDict []) = VDict dd ->
  let filled := with_defaults dd in
  let row := map (fun field => Dict.get_default filled field (VStr EmptyString))
                 FIELDS in
  (forall key,
      Dict.get filled key =
      match Dict.get dd key with
      | Some v => Some v
      | None => default_of key
      end)
  /\ execute_action (VDict fields) st = add_deal (VDict filled) st
  /\ calls (snd (execute_action (VDict fields) st))
     = (calls st ++ [Append row])%list
  /\ forall texts,
      Sheets.entered_row row = Some texts ->
      execute_action (VDict fields) st
      = (Ok ("Added new deal: "
               ++ PyValue.str (Dict.get_default dd "company_name" VNone)),
         mk_sheet (grid st ++ [texts]) (calls st ++ [Append row])).
Proof.
  intros Ha Hd filled row.
  split; [apply get_with_defaults|].
  rewrite (execute_add _ _ _ Ha Hd). split; [reflexivity|].
  assert (Hname : Dict.get_default (with_defaults dd) "company_name" VNone
                  = Dict.get_default dd "company_name" VNone).
  { unfold Dict.get_default. rewrite get_with_defaults.
    destruct (Dict.get dd "company_name"); reflexivity. }
  unfold add_deal, bind, Sheets.values_append. rewrite Hname.
  fold filled. fold row. split.
  - destruct (Sheets.entered_row row); reflexivity.
  - intros texts ->. reflexivity.
Qed.

End Adding.

Lemma execute_add_fills_defaults_witness :
  @execute_action ascii_text plain_backend fixed_clock
    (VDict [("action", VStr "add");
            ("deal", VDict [("company_name", VStr "Acme"); ("stage", VStr "Won")])])
    (mk_sheet [ ["Company Name"] ] [])
  = (Ok "Added new deal: Acme",
     mk_sheet
       [ ["Company Name"];
         ["Acme"; ""; ""; ""; ""; "2024-06-01"; "Won"; "2024-06-01";
          ""; ""; ""; ""; ""; ""] ]
       [Append [VStr "Acme"; VStr ""; VStr ""; VStr ""; VStr "";
                VStr "2024-06-01"; VStr "Won"; VStr "2024-06-01";
                VStr ""; VStr ""; VStr ""; VStr ""; VStr ""; VStr ""]]).
Proof.
  refine (proj2 (proj2 (proj2
            (@execute_add_fills_defaults ascii_text plain_backend fixed_clock
               [("action", VStr "add");
                ("deal", VDict [("company_name", VStr "Acme"); ("stage", VStr "Won")])]
               [("company_name", VStr "Acme"); ("stage", VStr "Won")]
               (mk_sheet [ ["Company Name"] ] []) eq_refl eq_refl))) _ _).
  reflexivity.
Defined.

(** ** Parsing the reply *)

Section Reply.

Context {casing : Py.CaseMapping}.

Context {backend : SheetsBackend} {clock : Clock}.

Lemma split_from_nonempty (sep : string) (skip : nat) (piece s : string) :
  Py.split_from sep skip piece s <> [].
Proof.
  revert skip piece; induction s as [|c s IH]; intros skip piece; simpl.
  - discriminate.
  - destruct skip; [|apply IH].
    destruct (Py.startswith (String c s) sep); [discriminate | apply IH].
Qed.

(** The index [1] of the split always exists behind a leading fence. *)
Lemma strip_fence_total (response_text : string) :
  exists body, strip_fence response_text = Ok body.
Proof.
  unfold strip_fence.
  destruct (Py.startswith response_text "```") eqn:E; [|eauto].
  unfold Py.split. destruct response_text as [|c s]; [discriminate E|].
  cbn [Py.split_from]. rewrite E.
  destruct (Py.split_from "```" (String.length "```" - 1) "" s) as [|piece rest] eqn:S.
  - now apply split_from_nonempty in S.
  - eauto.
Qed.

End Reply.

(** ** The decoder and white space *)

Section ScanFacts.

Lemma option_map_app_nil {A} (x : option (list A)) :
  option_map (List.app []) x = x.
Proof. now destruct x. Qed.

Lemma scan_cons (m : Json.mode) (c : ascii) (s : string) :
  Json.scan m (String c s) =
  match Json.step m c with
  | Some (out, m') => option_map (List.app out) (Json.scan m' s)
  | None => None
  end.
Proof. reflexivity. Qed.

(** A line feed at the end of the text changes no token. *)
Lemma scan_nl (m : Json.mode) : Json.scan m nl = Json.finish m.
Proof.
  destruct m as [|word|text|text|text seen code]; try reflexivity.
  unfold nl. cbn [Json.scan Json.step].
  change (Json.is_word_char (ascii_of_nat 10)) with false.
  change (Json.between_step (ascii_of_nat 10)) with (Some (@None Json.token, Json.Between)).
  cbn iota. unfold Json.finish. destruct (Json.atom_of word); reflexivity.
Qed.

Lemma scan_app_nl (s : string) (m : Json.mode) :
  Json.scan m (s ++ nl) = Json.scan m s.
Proof.
  revert m; induction s as [|c s IH]; intros m.
  - apply scan_nl.
  - cbn [append Json.scan]. destruct (Json.step m c) as [[out m']|]; [|reflexivity].
    now rewrite IH.
Qed.

(** The decoder ignores a line feed before and after the text. *)
Lemma loads_between_nl (t : string) :
  Json.loads (nl ++ t ++ nl) = Json.loads t.
Proof.
  unfold Json.loads.
  replace (Json.scan Json.Between (nl ++ t ++ nl)) with (Json.scan Json.Between t);
    [reflexivity|].
  unfold nl at 1. cbn [append Json.scan].
  change (Json.step Json.Between (ascii_of_nat 10)) with (Some (@nil Json.token, Json.Between)).
  cbn iota. now rewrite option_map_app_nil, scan_app_nl.
Qed.

(** What the scanner makes of a character that [strip] removes. *)
Lemma space_char (c : ascii) :
  Py.is_space c = true ->
  Json.is_word_char c = false
  /\ Json.between_step c
     = (if Json.is_ws c then Some (None, Json.Between) else None)
  /\ Ascii.eqb c "034" = false /\ Ascii.eqb c "\" = false
  /\ Ascii.eqb c "u" = false
  /\ Json.escape_of c = None /\ Json.hex_value c = None.
Proof.
  destruct c as [[] [] [] [] [] [] [] []]; intros H;
    try discriminate H; repeat split; reflexivity.
Qed.

Lemma scan_lstrip (s : string) (ts : list Json.token) :
  Json.scan Json.Between s = Some ts ->
  Json.scan Json.Between (Py.lstrip s) = Some ts.
Proof.
  induction s as [|c s IH]; [trivial|].
  cbn [Py.lstrip]. destruct (Py.is_space c) eqn:E; [|trivial].
  cbn [Json.scan Json.step].
  destruct (space_char c E) as (_ & -> & _).
  destruct (Json.is_ws c); [|discriminate].
  cbn [Json.emitted]. rewrite option_map_app_nil. exact IH.
Qed.

Lemma step_space_finish (m m' : Json.mode) (c : ascii) (out ts : list Json.token) :
  Py.is_space c = true ->
  Json.step m c = Some (out, m') ->
  Json.finish m' = Some ts ->
  Json.finish m = Some (out ++ ts)%list.
Proof.
  intros E. destruct (space_char c E) as (Hw & Hb & Hq & Hs & Hu & He & Hh).
  destruct m as [|word|text|text|text seen code]; cbn [Json.step].
  - rewrite Hb. destruct (Json.is_ws c); [|discriminate].
    intros [= <- <-]. trivial.
  - rewrite Hw, Hb. destruct (Json.atom_of word) as [v|] eqn:A; [|discriminate].
    destruct (Json.is_ws c); [|discriminate].
    intros [= <- <-] [= <-]. cbn [Json.finish]. now rewrite A.
  - rewrite Hq, Hs. destruct (nat_of_ascii c <? 32); [discriminate|].
    intros [= <- <-]. discriminate.
  - rewrite Hu, He. discriminate.
  - rewrite Hh. discriminate.
Qed.

Lemma scan_rstrip (s : string) (m : Json.mode) (ts : list Json.token) :
  Json.scan m s = Some ts -> Json.scan m (Py.rstrip s) = Some ts.
Proof.
  revert m ts; induction s as [|c s IH]; intros m ts; [trivial|].
  cbn [Json.scan Py.rstrip].
  destruct (Json.step m c) as [[out m']|] eqn:S; [|discriminate].
  destruct (Json.scan m' s) as [ts'|] eqn:R; [|discriminate].
  intros [= <-]. specialize (IH m' ts' R).
  destruct (Py.rstrip s) as [|c' r].
  - cbn [Json.scan] in IH.
    destruct (Py.is_space c) eqn:E.
    + cbn [Json.scan]. eapply step_space_finish; eassumption.
    + cbn [Json.scan]. now rewrite S, IH.
  - rewrite scan_cons, S, IH. reflexivity.
Qed.

(** A text the decoder accepts is accepted, with the same value, after
    [strip]; and it does not begin with a code fence. *)
Lemma loads_strip (t : string) (v : value) :
  Json.loads t = Some v ->
  Json.loads (Py.strip t) = Some v
  /\ Py.startswith (Py.strip t) "```" = false.
Proof.
  unfold Json.loads.
  destruct (Json.scan Json.Between t) as [ts|] eqn:S; [|discriminate].
  apply scan_lstrip, scan_rstrip in S. fold (Py.strip t) in S.
  rewrite S. intros H. split; [exact H|].
  destruct (Py.strip t) as [|c s]; [reflexivity|].
  cbn [Py.startswith].
  destruct (Ascii.eqb "`" c) eqn:E; [|reflexivity].
  apply Ascii.eqb_eq in E. subst c. discriminate S.
Qed.

End ScanFacts.

(** ** The code fence *)

Section Fence.

Lemma append_snoc (piece rest : string) (c : ascii) :
  (piece ++ String c EmptyString) ++ rest = piece ++ String c rest.
Proof. induction piece as [|a piece IH]; simpl; [reflexivity | now rewrite IH]. Qed.

Lemma append_empty (s : string) : s ++ EmptyString = s.
Proof. induction s as [|a s IH]; simpl; [reflexivity | now rewrite IH]. Qed.

(** A fence cannot begin in the text and end in the line feed behind it. *)
Lemma startswith_fence_app (t rest : string) :
  Py.startswith t "```" = false ->
  Py.startswith (t ++ nl ++ rest) "```" = false.
Proof.
  unfold nl.
  destruct t as [|a [|b [|c t]]]; cbn [Py.startswith append].
  - reflexivity.
  - destruct (Ascii.eqb "`" a); reflexivity.
  - destruct (Ascii.eqb "`" a); [|reflexivity].
    destruct (Ascii.eqb "`" b); reflexivity.
  - trivial.
Qed.

Lemma split_fenced_body (t piece : string) :
  Py.contains "```" t = false ->
  Py.split_from "```" 0 piece (t ++ nl ++ "```") = [piece ++ t ++ nl; EmptyString].
Proof.
  revert piece; induction t as [|c t IH]; intros piece Hc.
  - reflexivity.
  - cbn [Py.contains] in Hc. apply orb_false_iff in Hc as [Hs Hc].
    cbn [append Py.split_from].
    change (String c (t ++ nl ++ "```")) with (String c t ++ nl ++ "```").
    rewrite (startswith_fence_app _ _ Hs).
    rewrite (IH _ Hc), append_snoc. reflexivity.
Qed.

Lemma rstrip_app (s r : string) :
  r <> EmptyString -> Py.rstrip r = r -> Py.rstrip (s ++ r) = s ++ r.
Proof.
  intros Hne Hr. induction s as [|a s IH]; [exact Hr|].
  cbn [append Py.rstrip]. rewrite IH.
  destruct (s ++ r) eqn:E; [|reflexivity].
  destruct s; [contradiction | discriminate E].
Qed.

Lemma strip_json_fenced (t : string) :
  Py.strip (json_fenced t) = json_fenced t.
Proof.
  unfold Py.strip, json_fenced.
  change (Py.lstrip ("```json" ++ nl ++ t ++ nl ++ "```"))
    with ("```json" ++ nl ++ t ++ nl ++ "```").
  assert (E : "```json" ++ nl ++ t ++ nl ++ "```"
              = ("```json" ++ nl ++ t ++ nl) ++ "```").
  { cbn [append]. unfold nl. cbn [append]. do 8 f_equal.
    induction t as [|a t IH]; [reflexivity | cbn [append]; now rewrite IH]. }
  rewrite E. apply rstrip_app; [discriminate | reflexivity].
Qed.

Lemma split_from_skip (sep piece s : string) (c : ascii) (k : nat) :
  Py.split_from sep (S k) piece (String c s) = Py.split_from sep k piece s.
Proof. reflexivity. Qed.

Lemma split_from_hit (sep piece s : string) (c : ascii) :
  Py.startswith (String c s) sep = true ->
  Py.split_from sep 0 piece (String c s)
  = piece :: Py.split_from sep (String.length sep - 1) EmptyString s.
Proof. intros H. cbn [Py.split_from]. now rewrite H. Qed.

Lemma split_from_miss (sep piece s : string) (c : ascii) :
  Py.startswith (String c s) sep = false ->
  Py.split_from sep 0 piece (String c s)
  = Py.split_from sep 0 (piece ++ String c EmptyString) s.
Proof. intros H. cbn [Py.split_from]. now rewrite H. Qed.

Lemma split_json_fenced (t : string) :
  Py.contains "```" t = false ->
  Py.split (json_fenced t) "```" = [EmptyString; "json" ++ nl ++ t ++ nl; EmptyString].
Proof.
  intros Hc. unfold Py.split, json_fenced.
  change ("```json" ++ nl ++ t ++ nl ++ "```")
    with (String "`" (String "`" (String "`" (String "j" (String "s"
           (String "o" (String "n" (String (ascii_of_nat 10)
              (t ++ nl ++ "```"))))))))).
  rewrite split_from_hit by reflexivity.
  change (String.length "```" - 1) with 2.
  rewrite !split_from_skip.
  do 5 (rewrite split_from_miss by reflexivity).
  rewrite (split_fenced_body _ _ Hc). reflexivity.
Qed.

Lemma strip_fence_json_fenced (t : string) :
  Py.contains "```" t = false ->
  strip_fence (json_fenced t) = Ok (nl ++ t ++ nl).
Proof.
  intros Hc. unfold strip_fence. rewrite (split_json_fenced _ Hc). reflexivity.
Qed.

(** On a text that holds no fence of its own, the JSON-tagged fence is
    taken off and the reply parses to the value of the bare text. *)
Lemma fenced_reply_parses (t : string) (v : value) :
  Json.loads t = Some v ->
  Py.contains "```" t = false ->
  parse_response (json_fenced t) = Ok v /\ parse_response t = Ok v.
Proof.
  intros Hv Hc. split.
  - unfold parse_response.
    rewrite strip_json_fenced, (strip_fence_json_fenced _ Hc).
    now rewrite loads_between_nl, Hv.
  - destruct (loads_strip t v Hv) as [Hs Hf].
    unfold parse_response, strip_fence. now rewrite Hf, Hs.
Qed.

End Fence.

(** C4 at a reply whose JSON text holds a code fence inside a string: bare,
    it parses to the clarify action; inside the JSON-tagged fence, the
    split cuts the text at the inner fence and the decoder fails. *)
Theorem fenced_reply_with_inner_fence :
  parse_response reply_with_inner_fence
  = Ok (VDict [("action", VStr "clarify"); ("message", VStr "Wrap it in ``` marks")])
  /\ parse_response (json_fenced reply_with_inner_fence) = Raise JSONDecodeError.
Proof. split; vm_compute; reflexivity. Qed.

(** A plain object is parsed alike with and without the fence. *)
Example fenced_list_action :
  parse_response (json_fenced ("{" ++ dq ++ "action" ++ dq ++ ": " ++ dq ++ "list" ++ dq ++ "}"))
  = Ok (VDict [("action", VStr "list")])
  /\ parse_response ("{" ++ dq ++ "action" ++ dq ++ ": " ++ dq ++ "list" ++ dq ++ "}")
     = Ok (VDict [("action", VStr "list")]).
Proof. apply fenced_reply_parses; reflexivity. Qed.

(** ** The parser has fuel enough *)

Section Fuel.

Lemma parse_fuel (fuel : nat) : fuel_suffices fuel.
Proof.
  induction fuel as [|fuel (IHv & IHi & IHm)].
  - repeat split; intros; exfalso; lia.
  - split; [|split].
    + intros ts Hlen. cbn [Json.parse_value].
      destruct ts as [|t ts]; [split; [discriminate | intros; discriminate]|].
      cbn [List.length] in Hlen.
      destruct t; try (split; [discriminate | intros; discriminate]).
      * (* an object *)
        destruct ts as [|t' ts'].
        -- destruct (IHm [] []) as [Hf Hd]; [cbn [List.length]; lia|].
           split; [exact Hf|]. intros v rest H. apply Hd in H. cbn [List.length] in *. lia.
        -- assert (Hgen : Json.parse_members fuel [] (t' :: ts') <> Json.OutOfFuel
                          /\ forall v rest,
                              Json.parse_members fuel [] (t' :: ts') = Json.Done v rest ->
                              List.length rest < List.length (Json.TLBrace :: t' :: ts')).
           { destruct (IHm [] (t' :: ts')) as [Hf Hd]; [cbn [List.length] in *; lia|].
             split; [exact Hf|]. intros v rest H. apply Hd in H.
             cbn [List.length] in *. lia. }
           destruct t'; try exact Hgen.
           split; [discriminate|]. intros v0 rest0 [= _ <-]. cbn [List.length]. lia.
      * (* an array *)
        destruct ts as [|t' ts'].
        -- destruct (IHi [] []) as [Hf Hd]; [cbn [List.length]; lia|].
           split; [exact Hf|]. intros v rest H. apply Hd in H. cbn [List.length] in *. lia.
        -- assert (Hgen : Json.parse_items fuel [] (t' :: ts') <> Json.OutOfFuel
                          /\ forall v rest,
                              Json.parse_items fuel [] (t' :: ts') = Json.Done v rest ->
                              List.length rest < List.length (Json.TLBracket :: t' :: ts')).
           { destruct (IHi [] (t' :: ts')) as [Hf Hd]; [cbn [List.length] in *; lia|].
             split; [exact Hf|]. intros v rest H. apply Hd in H.
             cbn [List.length] in *. lia. }
           destruct t'; try exact Hgen.
           split; [discriminate|]. intros v0 rest0 [= _ <-]. cbn [List.length]. lia.
      * split; [discriminate|]. intros v0 rest0 [= _ <-]. cbn [List.length]. lia.
      * split; [discriminate|]. intros v0 rest0 [= _ <-]. cbn [List.length]. lia.
    + intros acc ts Hlen. cbn [Json.parse_items].
      destruct (IHv ts) as [Hf Hd]; [lia|].
      destruct (Json.parse_value fuel ts) as [v rest| |] eqn:E;
        [|split; [discriminate | intros; discriminate]|congruence].
      specialize (Hd v rest eq_refl).
      destruct rest as [|t rest]; [split; [discriminate | intros; discriminate]|].
      cbn [List.length] in Hd.
      destruct t; try (split; [discriminate | intros; discriminate]).
      * split; [discriminate|]. intros v' rest' [= _ <-]. lia.
      * destruct (IHi (acc ++ [v])%list rest) as [Hf' Hd']; [lia|].
        split; [exact Hf'|]. intros v' rest' H. apply Hd' in H. lia.
    + intros acc ts Hlen. cbn [Json.parse_members].
      destruct ts as [|t ts]; [split; [discriminate | intros; discriminate]|].
      destruct t; try (split; [discriminate | intros; discriminate]).
      destruct ts as [|t ts]; [split; [discriminate | intros; discriminate]|].
      destruct t; try (split; [discriminate | intros; discriminate]).
      cbn [List.length] in Hlen.
      destruct (IHv ts) as [Hf Hd]; [lia|].
      destruct (Json.parse_value fuel ts) as [v rest| |] eqn:E;
        [|split; [discriminate | intros; discriminate]|congruence].
      specialize (Hd v rest eq_refl).
      destruct rest as [|t rest]; [split; [discriminate | intros; discriminate]|].
      cbn [List.length] in Hd.
      destruct t; try (split; [discriminate | intros; discriminate]).
      * split; [discriminate|]. intros v' rest' [= _ <-]. cbn [List.length]. lia.
      * destruct (IHm (Dict.set acc s v) rest) as [Hf' Hd']; [lia|].
        split; [exact Hf'|]. intros v' rest' H. apply Hd' in H. cbn [List.length]. lia.
Qed.

(** [json.loads] refuses a text only because it cannot be scanned or
    parsed, never for want of fuel. *)
Lemma loads_has_fuel (ts : list Json.token) :
  Json.parse_value (S (2 * List.length ts)) ts <> Json.OutOfFuel.
Proof. apply parse_fuel. lia. Qed.

End Fuel.

(** ** The decoder accepts the grammar *)

Section Grammar.

Lemma option_map_app_app {A} (a b : list A) (x : option (list A)) :
  option_map (List.app a) (option_map (List.app b) x)
  = option_map (List.app (a ++ b)) x.
Proof. destruct x; cbn; [now rewrite app_assoc | reflexivity]. Qed.

Lemma scans_any_scans (s : string) (ts : list Json.token) :
  scans_any s ts -> scans s ts.
Proof. intros H rest _. apply H. Qed.

Lemma safe_after_app (b rest : string) :
  safe_after b -> safe_after rest -> safe_after (b ++ rest).
Proof. destruct b; cbn; auto. Qed.

Lemma scans_any_app (a b : string) (ta tb : list Json.token) :
  scans_any a ta -> scans b tb -> scans (a ++ b) (ta ++ tb).
Proof.
  intros Ha Hb rest Hs. rewrite append_assoc, Ha, (Hb rest Hs).
  apply option_map_app_app.
Qed.

Lemma scans_any_app_any (a b : string) (ta tb : list Json.token) :
  scans_any a ta -> scans_any b tb -> scans_any (a ++ b) (ta ++ tb).
Proof.
  intros Ha Hb rest. rewrite append_assoc, Ha, Hb.
  apply option_map_app_app.
Qed.

Lemma scans_app (a b : string) (ta tb : list Json.token) :
  scans a ta -> scans b tb -> safe_after b -> scans (a ++ b) (ta ++ tb).
Proof.
  intros Ha Hb Hsb rest Hs.
  rewrite append_assoc, (Ha (b ++ rest)) by now apply safe_after_app.
  rewrite (Hb rest Hs). apply option_map_app_app.
Qed.

Lemma ws_char (c : ascii) :
  Json.is_ws c = true ->
  Json.is_word_char c = false
  /\ Json.between_step c = Some (None, Json.Between).
Proof.
  destruct c as [[] [] [] [] [] [] [] []]; intros H;
    try discriminate H; split; reflexivity.
Qed.

Lemma safe_after_ws (w rest : string) :
  json_ws w = true -> safe_after rest -> safe_after (w ++ rest).
Proof.
  destruct w as [|c w]; cbn; [auto|].
  intros H _. apply andb_true_iff in H as [H _]. now apply ws_char.
Qed.

Lemma scans_ws (w : string) : json_ws w = true -> scans_any w [].
Proof.
  intros H rest. induction w as [|c w IH]; cbn [append].
  - now rewrite option_map_app_nil.
  - cbn [json_ws] in H. apply andb_true_iff in H as [Hc Hw].
    rewrite scan_cons. cbn [Json.step].
    rewrite (proj2 (ws_char c Hc)). cbn [Json.emitted].
    rewrite option_map_app_nil. now apply IH.
Qed.

Lemma scans_punct (c : ascii) (t : Json.token) :
  Json.between_step c = Some (Some t, Json.Between) ->
  scans_any (String c EmptyString) [t].
Proof.
  intros H rest. cbn [append]. rewrite scan_cons. cbn [Json.step].
  now rewrite H.
Qed.

Lemma in_string_plain (c : ascii) (acc : string) :
  32 <= nat_of_ascii c -> c <> "034"%char -> c <> "\"%char ->
  Json.step (Json.InString acc) c = Some ([], Json.InString (Json.snoc acc c)).
Proof.
  intros H32 Hq Hb. cbn [Json.step].
  destruct (Ascii.eqb c "034") eqn:E1; [apply Ascii.eqb_eq in E1; contradiction|].
  destruct (Ascii.eqb c "\") eqn:E2; [apply Ascii.eqb_eq in E2; contradiction|].
  destruct (nat_of_ascii c <? 32) eqn:E3; [apply Nat.ltb_lt in E3; lia|].
  reflexivity.
Qed.

Lemma escape_letter (c : ascii) :
  is_escape_letter c = true ->
  Ascii.eqb c "u" = false /\ exists c', Json.escape_of c = Some c'.
Proof.
  destruct c as [[] [] [] [] [] [] [] []]; intros H;
    try discriminate H; (split; [reflexivity | eexists; reflexivity]).
Qed.

Lemma hex_char (c : ascii) :
  is_hex c = true -> exists h, Json.hex_value c = Some h.
Proof.
  destruct c as [[] [] [] [] [] [] [] []]; intros H;
    try discriminate H; eexists; reflexivity.
Qed.

Lemma scan_step (m m' : Json.mode) (c : ascii) (s : string)
  (out : list Json.token) :
  Json.step m c = Some (out, m') ->
  Json.scan m (String c s) = option_map (List.app out) (Json.scan m' s).
Proof. intros H. now rewrite scan_cons, H. Qed.

Lemma in_escape_letter (c c' : ascii) (acc : string) :
  Ascii.eqb c "u" = false -> Json.escape_of c = Some c' ->
  Json.step (Json.InEscape acc) c = Some ([], Json.InString (Json.snoc acc c')).
Proof. intros Hu Hc. cbn [Json.step]. now rewrite Hu, Hc. Qed.

Lemma in_unicode_digit (c : ascii) (h seen code : nat) (acc : string) :
  Json.hex_value c = Some h ->
  Json.step (Json.InUnicode acc seen code) c
  = Some ([], if seen =? 3 then Json.InString (Json.add_code acc (code * 16 + h))
              else Json.InUnicode acc (S seen) (code * 16 + h)).
Proof. intros H. cbn [Json.step]. rewrite H. now destruct (seen =? 3). Qed.

(** The scanner reads the characters of a string up to its closing quote. *)
Lemma scan_chars (b : string) :
  json_chars b ->
  forall acc, exists text, forall rest,
    Json.scan (Json.InString acc) (b ++ String "034" rest)
    = option_map (List.app [Json.TString text]) (Json.scan Json.Between rest).
Proof.
  induction 1 as [|c s H32 Hq Hb _ IH|c s He _ IH|h1 h2 h3 h4 s H1 H2 H3 H4 _ IH];
    intros acc.
  - exists acc. intros rest. reflexivity.
  - destruct (IH (Json.snoc acc c)) as [text Ht]. exists text. intros rest.
    cbn [append]. rewrite (scan_step _ _ _ _ _ (in_string_plain c acc H32 Hq Hb)).
    now rewrite option_map_app_nil.
  - destruct (escape_letter c He) as [Hu [c' Hc']].
    destruct (IH (Json.snoc acc c')) as [text Ht]. exists text. intros rest.
    cbn [append].
    rewrite (scan_step (Json.InString acc) (Json.InEscape acc) "\" _ []) by reflexivity.
    rewrite (scan_step _ _ _ _ _ (in_escape_letter c c' acc Hu Hc')).
    now rewrite !option_map_app_nil.
  - destruct (hex_char _ H1) as [v1 E1]. destruct (hex_char _ H2) as [v2 E2].
    destruct (hex_char _ H3) as [v3 E3]. destruct (hex_char _ H4) as [v4 E4].
    destruct (IH (Json.add_code acc ((((0 * 16 + v1) * 16 + v2) * 16 + v3) * 16 + v4)))
      as [text Ht].
    exists text. intros rest.
    cbn [append].
    rewrite (scan_step (Json.InString acc) (Json.InEscape acc) "\" _ []) by reflexivity.
    rewrite (scan_step (Json.InEscape acc) (Json.InUnicode acc 0 0) "u" _ []) by reflexivity.
    rewrite (scan_step _ _ _ _ _ (in_unicode_digit h1 v1 0 _ acc E1)).
    rewrite (scan_step _ _ _ _ _ (in_unicode_digit h2 v2 1 _ acc E2)).
    rewrite (scan_step _ _ _ _ _ (in_unicode_digit h3 v3 2 _ acc E3)).
    rewrite (scan_step _ _ _ _ _ (in_unicode_digit h4 v4 3 _ acc E4)).
    cbn [Nat.eqb]. rewrite !option_map_app_nil. apply Ht.
Qed.

Lemma scans_string (b : string) :
  json_chars b -> exists text, scans_any (dq ++ b ++ dq) [Json.TString text].
Proof.
  intros H. destruct (scan_chars b H EmptyString) as [text Ht].
  exists text. intros rest. unfold dq. cbn [append].
  rewrite (scan_step Json.Between (Json.InString EmptyString) "034" _ []) by reflexivity.
  rewrite option_map_app_nil. rewrite append_assoc. cbn [append]. apply Ht.
Qed.

Lemma word_char_between (c : ascii) :
  Json.is_word_char c = true ->
  Json.between_step c = Some (None, Json.InWord (String c EmptyString)).
Proof.
  destruct c as [[] [] [] [] [] [] [] []]; intros H;
    try discriminate H; reflexivity.
Qed.

Lemma scan_in_word (w rest : string) (acc : string) :
  all_word w = true ->
  Json.scan (Json.InWord acc) (w ++ rest) = Json.scan (Json.InWord (acc ++ w)) rest.
Proof.
  revert acc; induction w as [|c w IH]; intros acc H.
  - cbn [append]. now rewrite append_empty.
  - cbn [all_word] in H. apply andb_true_iff in H as [Hc Hw].
    cbn [append]. rewrite scan_cons. cbn [Json.step]. rewrite Hc.
    rewrite option_map_app_nil, (IH _ Hw). unfold Json.snoc.
    now rewrite append_assoc.
Qed.

Lemma scan_word_end (w rest : string) (v : value) :
  Json.atom_of w = Some v -> safe_after rest ->
  Json.scan (Json.InWord w) rest
  = option_map (List.app [Json.TAtom v]) (Json.scan Json.Between rest).
Proof.
  intros Ha Hs. destruct rest as [|c r].
  - cbn [Json.scan Json.finish]. now rewrite Ha.
  - cbn in Hs. rewrite !scan_cons. cbn [Json.step]. rewrite Hs, Ha.
    destruct (Json.between_step c) as [[t m']|]; [|reflexivity].
    destruct (Json.scan m' r); reflexivity.
Qed.

(** A bare word that is an atom is read as one token. *)
Lemma scans_word (w : string) (v : value) :
  w <> EmptyString -> all_word w = true -> Json.atom_of w = Some v ->
  scans w [Json.TAtom v].
Proof.
  intros Hne Hw Ha rest Hs. destruct w as [|c w]; [contradiction|].
  cbn [all_word] in Hw. apply andb_true_iff in Hw as [Hc Hw].
  cbn [append]. rewrite scan_cons. cbn [Json.step].
  rewrite (word_char_between c Hc). cbn [Json.emitted].
  rewrite option_map_app_nil, (scan_in_word _ _ _ Hw).
  now apply scan_word_end.
Qed.

Lemma digit_char (c : ascii) :
  Json.is_digit c = true ->
  Json.is_word_char c = true
  /\ Ascii.eqb c "-" = false /\ Ascii.eqb c "n" = false /\ Ascii.eqb c "t" = false
  /\ Ascii.eqb c "f" = false /\ Ascii.eqb c "N" = false /\ Ascii.eqb c "I" = false
  /\ forall d, exists d', NilEmpty.uint_of_string (String c EmptyString) = Some d'
                          /\ uint_of_char c (Some d) <> None.
Proof.
  destruct c as [[] [] [] [] [] [] [] []]; intros H;
    try discriminate H; repeat split; try reflexivity;
    intros d; eexists; (split; [reflexivity | discriminate]).
Qed.

Lemma digit1_9_char (c : ascii) :
  is_digit1_9 c = true -> Json.is_digit c = true /\ Ascii.eqb c "0" = false.
Proof.
  destruct c as [[] [] [] [] [] [] [] []]; intros H;
    try discriminate H; split; reflexivity.
Qed.

Lemma all_digits_word (ds : string) :
  Json.all_digits ds = true -> all_word ds = true.
Proof.
  induction ds as [|c ds IH]; [reflexivity|].
  cbn [Json.all_digits all_word]. rewrite !andb_true_iff. intros [Hc Hd].
  split; [now apply digit_char | now apply IH].
Qed.

Lemma all_word_app (a b : string) :
  all_word (a ++ b) = all_word a && all_word b.
Proof.
  induction a as [|c a IH]; [reflexivity|].
  cbn [append all_word]. now rewrite IH, andb_assoc.
Qed.

Lemma span_digits_app (ds t : string) :
  Json.all_digits ds = true -> no_digit_first t ->
  Json.span_digits (ds ++ t) = (ds, t).
Proof.
  intros Hd Ht. induction ds as [|c ds IH].
  - destruct t as [|c t]; [reflexivity|]. cbn in Ht. cbn [append Json.span_digits].
    now rewrite Ht.
  - cbn [Json.all_digits] in Hd. apply andb_true_iff in Hd as [Hc Hd].
    cbn [append Json.span_digits]. now rewrite Hc, (IH Hd).
Qed.

Lemma uint_of_digits (ds : string) :
  Json.all_digits ds = true -> exists d, NilEmpty.uint_of_string ds = Some d.
Proof.
  induction ds as [|c ds IH]; [now exists Nil|].
  cbn [Json.all_digits]. rewrite andb_true_iff. intros [Hc Hd].
  destruct (IH Hd) as [d Hd']. cbn [NilEmpty.uint_of_string]. rewrite Hd'.
  destruct (digit_char c Hc) as (_ & _ & _ & _ & _ & _ & _ & Hu).
  destruct (Hu d) as (_ & _ & Hne).
  destruct (uint_of_char c (Some d)) as [d'|]; [now exists d' | contradiction].
Qed.

Lemma int_part (i : string) :
  json_int i ->
  Json.all_digits i = true /\ Json.is_int_part i = true
  /\ exists c i', i = String c i' /\ Json.is_digit c = true.
Proof.
  intros [->|(c & ds & -> & Hc & Hd)].
  - repeat split. now exists "0"%char, EmptyString.
  - destruct (digit1_9_char c Hc) as [Hdig H0].
    split; [cbn [Json.all_digits]; now rewrite Hdig, Hd|]. split.
    + cbn [Json.is_int_part]. destruct ds; [reflexivity | now rewrite H0].
    + now exists c, ds.
Qed.

Lemma exp_part (e : string) :
  json_exp e ->
  (e = EmptyString \/ Json.is_exponent e = true)
  /\ no_digit_first e /\ all_word e = true
  /\ match e with EmptyString => True | String c _ => Ascii.eqb c "." = false end.
Proof.
  intros [->|(ec & sign & ds & -> & Hec & Hsign & Hne & Hd)].
  - repeat split. now left.
  - assert (Hw : all_word ds = true) by now apply all_digits_word.
    destruct ds as [|d ds]; [contradiction|].
    pose proof Hd as Hd0. cbn [Json.all_digits] in Hd0.
    apply andb_true_iff in Hd0 as [Hdc _].
    destruct (digit_char d Hdc) as (_ & Hminus & _).
    assert (Hplus : Ascii.eqb d "+" = false).
    { clear - Hdc. destruct d as [[] [] [] [] [] [] [] []];
        try discriminate Hdc; reflexivity. }
    split; [right|].
    + cbn [Json.is_exponent].
      assert (Hletter : Ascii.eqb ec "e" || Ascii.eqb ec "E" = true)
        by (destruct Hec as [->| ->]; reflexivity).
      rewrite Hletter. cbn [andb].
      destruct Hsign as [->|[->| ->]]; cbn [append].
      * rewrite Hplus, Hminus. cbn [orb]. exact Hd.
      * change (Ascii.eqb "+" "+" || Ascii.eqb "+" "-") with true. cbv iota.
        cbn [String.eqb negb andb]. exact Hd.
      * change (Ascii.eqb "-" "+" || Ascii.eqb "-" "-") with true. cbv iota.
        cbn [String.eqb negb andb]. exact Hd.
    + split; [destruct Hec as [->| ->]; reflexivity|]. split.
      * cbn [all_word].
        assert (Json.is_word_char ec = true) as -> by (destruct Hec as [->| ->]; reflexivity).
        cbn [andb]. rewrite all_word_app, Hw.
        destruct Hsign as [->|[->| ->]]; reflexivity.
      * destruct Hec as [->| ->]; reflexivity.
Qed.

Lemma tail_part (f e : string) :
  json_frac f -> json_exp e ->
  Json.is_number_tail (f ++ e) = true
  /\ no_digit_first (f ++ e) /\ all_word (f ++ e) = true.
Proof.
  intros Hf He. destruct (exp_part e He) as (Hexp & Hnd & Hw & Hdot).
  destruct Hf as [->|(ds & -> & Hne & Hd)].
  - cbn [append]. split; [|now split].
    destruct e as [|c e]; [reflexivity|].
    cbn [Json.is_number_tail]. rewrite Hdot.
    destruct Hexp as [Hexp|Hexp]; [discriminate Hexp | exact Hexp].
  - cbn [append]. split; [|split; [reflexivity|]].
    + cbn [Json.is_number_tail].
      change (Ascii.eqb "." ".") with true. cbv iota.
      rewrite (span_digits_app ds e Hd Hnd).
      destruct ds as [|d ds]; [contradiction|]. cbn [String.eqb negb andb].
      destruct Hexp as [->|Hexp]; [reflexivity|]. rewrite Hexp. apply orb_true_r.
    + cbn [all_word]. change (Json.is_word_char ".") with true. cbn [andb].
      now rewrite all_word_app, (all_digits_word _ Hd), Hw.
Qed.

Lemma atom_of_digit_first (c : ascii) (s : string) :
  Json.is_digit c = true ->
  Json.atom_of (String c s) = Json.number_of (String c s).
Proof.
  intros Hc. destruct (digit_char c Hc) as (_ & Hm & Hn & Ht & Hf & HN & HI & _).
  unfold Json.atom_of. cbn [String.eqb].
  now rewrite Hn, Ht, Hf, HN, HI, Hm.
Qed.

Lemma atom_of_minus_digit (c : ascii) (s : string) :
  Json.is_digit c = true ->
  Json.atom_of (String "-" (String c s)) = Json.number_of (String "-" (String c s)).
Proof.
  intros Hc. destruct (digit_char c Hc) as (_ & Hm & Hn & Ht & Hf & HN & HI & _).
  unfold Json.atom_of. cbn [String.eqb].
  change (Ascii.eqb "-" "n") with false. change (Ascii.eqb "-" "t") with false.
  change (Ascii.eqb "-" "f") with false. change (Ascii.eqb "-" "N") with false.
  change (Ascii.eqb "-" "I") with false. change (Ascii.eqb "-" "-") with true.
  cbn [andb orb]. now rewrite HI.
Qed.

Lemma number_of_body (negative : bool) (word i f e : string) :
  json_int i -> json_frac f -> json_exp e ->
  exists v,
    (let (ds, tail) := Json.span_digits (i ++ f ++ e) in
     if Json.is_int_part ds && Json.is_number_tail tail then
       match tail with
       | EmptyString =>
           match NilEmpty.uint_of_string ds with
           | Some d =>
               let n := Z.of_uint d in
               Some (VInt (if negative then Z.opp n else n))
           | None => None
           end
       | _ => Some (VFloat word)
       end
     else None) = Some v.
Proof.
  intros Hi Hf He.
  destruct (int_part i Hi) as (Hd & Hip & _).
  destruct (tail_part f e Hf He) as (Htail & Hnd & _).
  rewrite (span_digits_app i (f ++ e) Hd Hnd), Hip, Htail. cbn [andb].
  destruct (f ++ e); [|eauto].
  destruct (uint_of_digits i Hd) as [d ->]. eauto.
Qed.

(** A number of the grammar is a bare word and an atom of the scanner. *)
Lemma number_atom (n : string) :
  json_number n ->
  n <> EmptyString /\ all_word n = true /\ exists v, Json.atom_of n = Some v.
Proof.
  intros (sign & i & f & e & -> & Hsign & Hi & Hf & He).
  destruct (int_part i Hi) as (Hd & _ & c & i' & Ei & Hc).
  destruct (tail_part f e Hf He) as (_ & _ & Hw).
  assert (Hwi : all_word (i ++ f ++ e) = true)
    by now rewrite all_word_app, (all_digits_word _ Hd), Hw.
  destruct Hsign as [->| ->]; cbn [append].
  - split; [rewrite Ei; discriminate|]. split; [exact Hwi|].
    destruct (number_of_body false (i ++ f ++ e) i f e Hi Hf He) as [v Hv].
    exists v. rewrite <- Hv. rewrite Ei at 1 2. cbn [append].
    rewrite (atom_of_digit_first c _ Hc). unfold Json.number_of.
    destruct (digit_char c Hc) as (_ & Hm & _). rewrite Hm.
    rewrite Ei. reflexivity.
  - split; [discriminate|]. split; [cbn [all_word]; now rewrite Hwi|].
    destruct (number_of_body true (String "-" (i ++ f ++ e)) i f e Hi Hf He) as [v Hv].
    exists v. rewrite <- Hv. rewrite Ei at 1 2. cbn [append].
    rewrite (atom_of_minus_digit c _ Hc). unfold Json.number_of.
    change (Ascii.eqb "-" "-") with true. cbv iota.
    rewrite Ei. reflexivity.
Qed.

(** More fuel changes no outcome but that of running out of fuel. *)
Lemma parse_more_fuel (f : nat) :
  (forall ts r, Json.parse_value f ts = r -> r <> Json.OutOfFuel ->
                Json.parse_value (S f) ts = r)
  /\ (forall acc ts r, Json.parse_items f acc ts = r -> r <> Json.OutOfFuel ->
                       Json.parse_items (S f) acc ts = r)
  /\ (forall acc ts r, Json.parse_members f acc ts = r -> r <> Json.OutOfFuel ->
                       Json.parse_members (S f) acc ts = r).
Proof.
  induction f as [|f (IHv & IHi & IHm)].
  - repeat split; intros; cbn in *; congruence.
  - split; [|split].
    + intros ts r H Hr. rewrite <- H in *. clear H.
      cbn [Json.parse_value] in *.
      destruct ts as [|t ts]; [reflexivity|].
      destruct t; try reflexivity.
      * destruct ts as [|t' ts']; [now apply IHm|].
        destruct t'; try (now apply IHm). reflexivity.
      * destruct ts as [|t' ts']; [now apply IHi|].
        destruct t'; try (now apply IHi). reflexivity.
    + intros acc ts r H Hr. rewrite <- H in *. clear H.
      change (Json.parse_items (S (S f)) acc ts)
        with (match Json.parse_value (S f) ts with
              | Json.Done v (Json.TComma :: rest) =>
                  Json.parse_items (S f) (acc ++ [v])%list rest
              | Json.Done v (Json.TRBracket :: rest) =>
                  Json.Done (VList (acc ++ [v])%list) rest
              | Json.Done _ _ => Json.Invalid
              | Json.Invalid => Json.Invalid
              | Json.OutOfFuel => Json.OutOfFuel
              end).
      change (Json.parse_items (S f) acc ts)
        with (match Json.parse_value f ts with
              | Json.Done v (Json.TComma :: rest) =>
                  Json.parse_items f (acc ++ [v])%list rest
              | Json.Done v (Json.TRBracket :: rest) =>
                  Json.Done (VList (acc ++ [v])%list) rest
              | Json.Done _ _ => Json.Invalid
              | Json.Invalid => Json.Invalid
              | Json.OutOfFuel => Json.OutOfFuel
              end) in *.
      destruct (Json.parse_value f ts) as [v rest| |] eqn:E; [| |congruence].
      * rewrite (IHv ts _ E) by discriminate.
        destruct rest as [|t rest]; [reflexivity|].
        destruct t; try reflexivity. now apply IHi.
      * rewrite (IHv ts _ E) by discriminate. reflexivity.
    + intros acc ts r H Hr. rewrite <- H in *. clear H.
      destruct ts as [|t ts]; [reflexivity|].
      destruct t; try reflexivity.
      destruct ts as [|t ts]; [reflexivity|].
      destruct t; try reflexivity.
      change (Json.parse_members (S (S f)) acc (Json.TString s :: Json.TColon :: ts))
        with (match Json.parse_value (S f) ts with
              | Json.Done v (Json.TComma :: rest) =>
                  Json.parse_members (S f) (Dict.set acc s v) rest
              | Json.Done v (Json.TRBrace :: rest) =>
                  Json.Done (VDict (Dict.set acc s v)) rest
              | Json.Done _ _ => Json.Invalid
              | Json.Invalid => Json.Invalid
              | Json.OutOfFuel => Json.OutOfFuel
              end).
      change (Json.parse_members (S f) acc (Json.TString s :: Json.TColon :: ts))
        with (match Json.parse_value f ts with
              | Json.Done v (Json.TComma :: rest) =>
                  Json.parse_members f (Dict.set acc s v) rest
              | Json.Done v (Json.TRBrace :: rest) =>
                  Json.Done (VDict (Dict.set acc s v)) rest
              | Json.Done _ _ => Json.Invalid
              | Json.Invalid => Json.Invalid
              | Json.OutOfFuel => Json.OutOfFuel
              end) in *.
      destruct (Json.parse_value f ts) as [v rest| |] eqn:E; [| |congruence].
      * rewrite (IHv ts _ E) by discriminate.
        destruct rest as [|t rest]; [reflexivity|].
        destruct t; try reflexivity. now apply IHm.
      * rewrite (IHv ts _ E) by discriminate. reflexivity.
Qed.

Lemma parse_value_fuel_le (f f' : nat) (ts : list Json.token) (r : Json.parsed value) :
  f <= f' -> Json.parse_value f ts = r -> r <> Json.OutOfFuel ->
  Json.parse_value f' ts = r.
Proof.
  intros Hle H Hr. induction Hle as [|f' _ IH]; [exact H|].
  now apply parse_more_fuel.
Qed.

Lemma safe_after_of_ws (w : string) : json_ws w = true -> safe_after w.
Proof.
  intros H. rewrite <- (append_empty w). now apply safe_after_ws.
Qed.

Lemma scans_element (w1 v w2 : string) (ts : list Json.token) :
  json_ws w1 = true -> json_ws w2 = true -> scans v ts ->
  scans (w1 ++ v ++ w2) ts.
Proof.
  intros H1 H2 Hv.
  pose proof (scans_any_app _ _ _ _ (scans_ws w1 H1)
                (scans_app _ _ _ _ Hv (scans_any_scans _ _ (scans_ws w2 H2))
                   (safe_after_of_ws w2 H2))) as H.
  cbn [List.app] in H. now rewrite app_nil_r in H.
Qed.

Lemma scans_then (a b : string) (ta tb : list Json.token) (c : ascii) (t : Json.token) :
  scans a ta -> Json.is_word_char c = false ->
  Json.between_step c = Some (Some t, Json.Between) ->
  scans b tb ->
  scans (a ++ String c b) (ta ++ t :: tb).
Proof.
  intros Ha Hc Ht Hb.
  apply (scans_app a (String c b) ta (t :: tb) Ha); [|exact Hc].
  exact (scans_any_app (String c EmptyString) b [t] tb (scans_punct c t Ht) Hb).
Qed.

Lemma parse_array (f : nat) (ts more : list Json.token) :
  starts_value ts ->
  Json.parse_value (S f) (Json.TLBracket :: ts ++ Json.TRBracket :: more)
  = Json.parse_items f [] (ts ++ Json.TRBracket :: more).
Proof.
  destruct ts as [|t ts]; [intros []|]. destruct t; intros H; try destruct H;
    reflexivity.
Qed.

Lemma parse_object (f : nat) (k : string) (ts more : list Json.token) :
  Json.parse_value (S f) (Json.TLBrace :: Json.TString k :: ts ++ Json.TRBrace :: more)
  = Json.parse_members f [] (Json.TString k :: ts ++ Json.TRBrace :: more).
Proof. reflexivity. Qed.

Lemma parse_items_step (f : nat) (acc : list value) (ts : list Json.token) :
  Json.parse_items (S f) acc ts =
  match Json.parse_value f ts with
  | Json.Done v (Json.TComma :: rest) => Json.parse_items f (acc ++ [v])%list rest
  | Json.Done v (Json.TRBracket :: rest) => Json.Done (VList (acc ++ [v])%list) rest
  | Json.Done _ _ => Json.Invalid
  | Json.Invalid => Json.Invalid
  | Json.OutOfFuel => Json.OutOfFuel
  end.
Proof. reflexivity. Qed.

Lemma parse_members_step (f : nat) (acc : dict) (key : string)
  (ts : list Json.token) :
  Json.parse_members (S f) acc (Json.TString key :: Json.TColon :: ts) =
  match Json.parse_value f ts with
  | Json.Done v (Json.TComma :: rest) =>
      Json.parse_members f (Dict.set acc key v) rest
  | Json.Done v (Json.TRBrace :: rest) => Json.Done (VDict (Dict.set acc key v)) rest
  | Json.Done _ _ => Json.Invalid
  | Json.Invalid => Json.Invalid
  | Json.OutOfFuel => Json.OutOfFuel
  end.
Proof. reflexivity. Qed.

Lemma atom_read (w : string) (v : value) :
  w <> EmptyString -> all_word w = true -> Json.atom_of w = Some v ->
  read_as_value w.
Proof.
  intros Hne Hw Ha. exists [Json.TAtom v], v. split; [exact I|]. split.
  - now apply scans_word.
  - exists 1. intros f more Hf. destruct f; [lia | reflexivity].
Qed.

Lemma grammar_read :
  (forall s, json_value s -> read_as_value s)
  /\ (forall s, json_elements s -> read_as_elements s)
  /\ (forall s, json_members s -> read_as_members s).
Proof.
  apply json_grammar_ind.
  - now apply (atom_read "null" VNone).
  - now apply (atom_read "true" (VBool true)).
  - now apply (atom_read "false" (VBool false)).
  - intros n Hn. destruct (number_atom n Hn) as (Hne & Hw & v & Ha).
    now apply (atom_read n v).
  - intros b Hb. destruct (scans_string b Hb) as [text Ht].
    exists [Json.TString text], (VStr text). split; [exact I|]. split.
    + now apply scans_any_scans.
    + exists 1. intros f more Hf. destruct f; [lia | reflexivity].
  - intros w Hw. exists [Json.TLBracket; Json.TRBracket], (VList []).
    split; [exact I|]. split.
    + apply scans_any_scans.
      apply (scans_any_app_any "[" (w ++ "]") [Json.TLBracket] [Json.TRBracket]).
      * now apply scans_punct.
      * apply (scans_any_app_any w "]" [] [Json.TRBracket]);
          [now apply scans_ws | now apply scans_punct].
    + exists 1. intros f more Hf. destruct f; [lia | reflexivity].
  - intros es _ (ts & vs & Hstart & Hscan & f0 & Hparse).
    exists (Json.TLBracket :: ts ++ [Json.TRBracket])%list, (VList vs).
    split; [exact I|]. split.
    + apply (scans_any_app "[" (es ++ "]") [Json.TLBracket] (ts ++ [Json.TRBracket])%list).
      * now apply scans_punct.
      * apply (scans_app es "]" ts [Json.TRBracket] Hscan); [|reflexivity].
        apply scans_any_scans. now apply scans_punct.
    + exists (S f0). intros f more Hf. destruct f as [|f]; [lia|].
      cbn [List.app]. rewrite <- app_assoc. cbn [List.app].
      rewrite (parse_array _ _ _ Hstart). apply (Hparse f [] more). lia.
  - intros w Hw. exists [Json.TLBrace; Json.TRBrace], (VDict []).
    split; [exact I|]. split.
    + apply scans_any_scans.
      apply (scans_any_app_any "{" (w ++ "}") [Json.TLBrace] [Json.TRBrace]).
      * now apply scans_punct.
      * apply (scans_any_app_any w "}" [] [Json.TRBrace]);
          [now apply scans_ws | now apply scans_punct].
    + exists 1. intros f more Hf. destruct f; [lia | reflexivity].
  - intros ms _ (k & ts & g & Hscan & f0 & Hparse).
    exists (Json.TLBrace :: (Json.TString k :: ts) ++ [Json.TRBrace])%list, (VDict (g [])).
    split; [exact I|]. split.
    + apply (scans_any_app "{" (ms ++ "}") [Json.TLBrace]
               ((Json.TString k :: ts) ++ [Json.TRBrace])%list).
      * now apply scans_punct.
      * apply (scans_app ms "}" _ [Json.TRBrace] Hscan); [|reflexivity].
        apply scans_any_scans. now apply scans_punct.
    + exists (S f0). intros f more Hf. destruct f as [|f]; [lia|].
      cbn [List.app]. rewrite <- app_assoc. cbn [List.app].
      rewrite parse_object. apply (Hparse f [] more). lia.
  - (* one element *)
    intros w1 v w2 H1 _ (ts & val & Hstart & Hscan & f0 & Hparse) H2.
    exists ts, [val]. split; [exact Hstart|]. split.
    + now apply scans_element.
    + exists (S f0). intros f acc more Hf. destruct f as [|f]; [lia|].
      rewrite parse_items_step, (Hparse f (Json.TRBracket :: more)) by lia.
      reflexivity.
  - (* an element and more *)
    intros w1 v w2 es H1 _ (ts & val & Hstart & Hscan & f0 & Hparse) H2
      _ (tes & vs & _ & Hscans & f1 & Hparses).
    exists (ts ++ Json.TComma :: tes)%list, (val :: vs). split.
    { destruct ts as [|t ts']; [destruct Hstart | exact Hstart]. }
    split.
    + replace (w1 ++ v ++ w2 ++ "," ++ es) with ((w1 ++ v ++ w2) ++ String "," es)
        by now rewrite !append_assoc.
      apply scans_then; [now apply scans_element | reflexivity | reflexivity |].
      exact Hscans.
    + exists (S (f0 + f1)). intros f acc more Hf. destruct f as [|f]; [lia|].
      rewrite <- app_assoc. cbn [List.app].
      rewrite parse_items_step, (Hparse f _) by lia.
      rewrite (Hparses f (acc ++ [val])%list more) by lia.
      now rewrite <- app_assoc.
  - (* one member *)
    intros w1 k w2 w3 v w4 H1 Hk H2 H3 _ (ts & val & Hstart & Hscan & f0 & Hparse) H4.
    destruct (scans_string k Hk) as [text Ht].
    exists text, (Json.TColon :: ts), (fun acc => Dict.set acc text val). split.
    + replace (w1 ++ dq ++ k ++ dq ++ w2 ++ ":" ++ w3 ++ v ++ w4)
        with (w1 ++ ((dq ++ k ++ dq) ++ w2) ++ String ":" (w3 ++ v ++ w4))
        by now rewrite !append_assoc.
      apply (scans_any_app w1 _ [] _ (scans_ws w1 H1)).
      apply (scans_then _ _ [Json.TString text] ts ":" Json.TColon);
        [|reflexivity | reflexivity | now apply scans_element].
      apply scans_any_scans.
      apply (scans_any_app_any _ w2 [Json.TString text] [] Ht (scans_ws w2 H2)).
    + exists (S f0). intros f acc more Hf. destruct f as [|f]; [lia|].
      cbn [List.app].
      rewrite parse_members_step, (Hparse f (Json.TRBrace :: more)) by lia.
      reflexivity.
  - (* a member and more *)
    intros w1 k w2 w3 v w4 ms H1 Hk H2 H3 _
      (ts & val & Hstart & Hscan & f0 & Hparse) H4
      _ (k' & tms & g & Hscans & f1 & Hparses).
    destruct (scans_string k Hk) as [text Ht].
    exists text, (Json.TColon :: ts ++ Json.TComma :: Json.TString k' :: tms)%list,
      (fun acc => g (Dict.set acc text val)).
    split.
    + replace (w1 ++ dq ++ k ++ dq ++ w2 ++ ":" ++ w3 ++ v ++ w4 ++ "," ++ ms)
        with (w1 ++ ((dq ++ k ++ dq) ++ w2)
                ++ String ":" ((w3 ++ v ++ w4) ++ String "," ms))
        by now rewrite !append_assoc.
      apply (scans_any_app w1 _ [] _ (scans_ws w1 H1)).
      apply (scans_then _ _ [Json.TString text]
               (ts ++ Json.TComma :: Json.TString k' :: tms)%list ":" Json.TColon);
        [|reflexivity | reflexivity |].
      * apply scans_any_scans.
        apply (scans_any_app_any _ w2 [Json.TString text] [] Ht (scans_ws w2 H2)).
      * apply scans_then; [now apply scans_element | reflexivity | reflexivity |].
        exact Hscans.
    + exists (S (f0 + f1)). intros f acc more Hf. destruct f as [|f]; [lia|].
      cbn [List.app]. rewrite <- app_assoc. cbn [List.app].
      rewrite parse_members_step, (Hparse f _) by lia.
      apply (Hparses f (Dict.set acc text val) more). lia.
Qed.

(** The decoder accepts every text of the grammar. *)
Theorem loads_accepts_json (s : string) :
  json_text s -> exists v, Json.loads s = Some v.
Proof.
  intros (w1 & v & w2 & -> & H1 & Hv & H2).
  destruct (proj1 grammar_read v Hv) as (ts & val & _ & Hscan & f0 & Hparse).
  exists val. unfold Json.loads.
  pose proof (scans_element w1 v w2 ts H1 H2 Hscan EmptyString I) as Hs.
  rewrite append_empty in Hs. cbn in Hs. rewrite app_nil_r in Hs.
  rewrite Hs.
  assert (Hle : f0 <= f0 + S (2 * List.length ts)) by lia.
  assert (Hle' : S (2 * List.length ts) <= f0 + S (2 * List.length ts)) by lia.
  pose proof (Hparse _ [] Hle) as Hbig.
  rewrite app_nil_r in Hbig.
  destruct (Json.parse_value (S (2 * List.length ts)) ts) as [v' rest| |] eqn:E.
  - rewrite (parse_value_fuel_le _ _ _ _ Hle' E) in Hbig by discriminate.
    now injection Hbig as -> ->.
  - rewrite (parse_value_fuel_le _ _ _ _ Hle' E) in Hbig by discriminate.
    discriminate Hbig.
  - exfalso. exact (loads_has_fuel ts E).
Qed.


End Grammar.

(** ** The interpreter and the executor on a reply *)

Section Interpreter.

Context {casing : Py.CaseMapping}.

Context {backend : SheetsBackend} {clock : Clock}.


End Interpreter.




(* ================================================================== *)
(** * Further properties of the code *)

(** ** Headers and the fields of a deal *)

Section Headers.

Context {casing : Py.CaseMapping}.

Lemma normalized_char_twice (c : ascii) :
  normalized_char (normalized_char c) = normalized_char c.
Proof. destruct c as [[] [] [] [] [] [] [] []]; reflexivity. Qed.

Lemma normalized_char_plain (c : ascii) :
  Ascii.eqb " " (normalized_char c) = false
  /\ Py.is_upper (normalized_char c) = false.
Proof. destruct c as [[] [] [] [] [] [] [] []]; split; reflexivity. Qed.

Lemma map_chars_length (f : ascii -> ascii) (s : string) :
  String.length (map_chars f s) = String.length s.
Proof. induction s as [|c s IH]; simpl; [reflexivity | now rewrite IH]. Qed.

Lemma has_char_map_chars (f : ascii -> ascii) (c : ascii) (s : string) :
  PyValue.has_char c (map_chars f s) = true ->
  exists c0, c = f c0.
Proof.
  induction s as [|a s IH]; simpl; [discriminate|].
  intros H. apply orb_true_iff in H as [H|H].
  - apply Ascii.eqb_eq in H. now exists a.
  - now apply IH.
Qed.

Lemma normalized_char_ascii (c : ascii) :
  (nat_of_ascii c <? 128) = true -> (nat_of_ascii (normalized_char c) <? 128) = true.
Proof. destruct c as [[] [] [] [] [] [] [] []]; intros H; (exact H || reflexivity). Qed.

Lemma is_ascii_map_chars (s : string) :
  Py.is_ascii s = true -> Py.is_ascii (map_chars normalized_char s) = true.
Proof.
  induction s as [|c s IH]; cbn [Py.is_ascii map_chars]; [reflexivity|].
  rewrite !andb_true_iff. intros [Hc Hs].
  split; [now apply normalized_char_ascii | now apply IH].
Qed.

Lemma replace_space_plain (s : string) :
  PyValue.has_char " " (Py.replace s " " "_") = false.
Proof.
  unfold Py.replace. induction s as [|c s IH]; [reflexivity|].
  cbn [Py.replace_from Py.startswith String.length Nat.sub].
  rewrite andb_true_r.
  destruct (Ascii.eqb " " c) eqn:E; cbn [append PyValue.has_char].
  - exact IH.
  - now rewrite E.
Qed.

(** X1.  A normalized header holds no space, whatever the header.  A
    header of ASCII characters keeps its length, is left without a
    capital letter of A to Z, and is left as it is by a second
    normalization. *)
Theorem normalize_header_normal (header : string) :
  PyValue.has_char " " (normalize_header header) = false
  /\ (Py.is_ascii header = true ->
      String.length (normalize_header header) = String.length header
      /\ (forall c, PyValue.has_char c (normalize_header header) = true ->
                    Py.is_upper c = false)
      /\ normalize_header (normalize_header header) = normalize_header header).
Proof.
  split; [apply replace_space_plain|].
  intros Ha.
  rewrite !(normalize_header_chars _ Ha).
  rewrite (normalize_header_chars _ (is_ascii_map_chars _ Ha)).
  split; [apply map_chars_length|]. split.
  - intros c H. apply has_char_map_chars in H as [c0 ->].
    apply normalized_char_plain.
  - clear Ha. induction header as [|a s IH]; simpl; [reflexivity|].
    now rewrite normalized_char_twice, IH.
Qed.

Lemma pad_row_length (n : nat) (row : list string) :
  List.length (pad_row n row) = n.
Proof.
  unfold pad_row. rewrite length_app, length_firstn, repeat_length. lia.
Qed.

Lemma pad_row_nth (n j : nat) (row : list string) :
  j < n -> nth j (pad_row n row) EmptyString = nth j row EmptyString.
Proof.
  intros Hj. unfold pad_row.
  destruct (Nat.lt_ge_cases j (List.length row)) as [Hl|Hl].
  - rewrite app_nth1 by (rewrite length_firstn; lia).
    rewrite nth_firstn. destruct (j <? n) eqn:E; [reflexivity|].
    apply Nat.ltb_ge in E. lia.
  - rewrite app_nth2 by (rewrite length_firstn; lia).
    rewrite (nth_overflow row) by lia.
    apply nth_repeat.
Qed.

(** After [dict(pairs)], a key holds the value of its last pair. *)
Lemma get_fold_setter_last (headers : list string) (cells : list value)
  (d : dict) (j : nat) (h : string) :
  List.length cells = List.length headers ->
  nth_error headers j = Some h ->
  (forall j', j < j' -> nth_error headers j' <> Some h) ->
  Dict.get (fold_left setter (combine headers cells) d) h = nth_error cells j.
Proof.
  revert cells d j; induction headers as [|h0 headers IH];
    intros [|c0 cells] d j Hlen Hj Hlast; try discriminate;
    try (destruct j; discriminate).
  destruct j as [|j]; cbn [combine fold_left nth_error] in *.
  - injection Hj as ->.
    rewrite get_fold_setter.
    + apply get_set_same.
    + intros Hin. apply in_map_iff in Hin as [[k v] [E Hin]]. cbn in E. subst k.
      apply in_combine_l in Hin. apply In_nth_error in Hin as [j' Hj'].
      apply (Hlast (S j')); [lia | exact Hj'].
  - apply IH; [now injection Hlen | exact Hj |].
    intros j' Hlt. apply (Hlast (S j')). lia.
Qed.

Lemma zip_deal_get (i j : nat) (headers row : list string) (h : string) :
  nth_error headers j = Some h ->
  (forall j', j < j' -> nth_error headers j' <> Some h) ->
  Dict.get (zip_deal i headers row) h = Some (VStr (nth j row EmptyString)).
Proof.
  intros Hj Hlast. unfold zip_deal, dict_of_pairs. cbn [fold_left]. fold setter.
  assert (Hlt : j < List.length headers) by (apply nth_error_Some; congruence).
  rewrite (get_fold_setter_last _ _ _ j h); try assumption.
  - rewrite nth_error_map.
    rewrite (nth_error_nth' _ EmptyString) by (rewrite pad_row_length; exact Hlt).
    cbn. now rewrite pad_row_nth.
  - now rewrite length_map, pad_row_length.
Qed.

Lemma zip_deal_get_none (i : nat) (headers row : list string) (k : string) :
  ~ In k headers -> k <> "row_number" ->
  Dict.get (zip_deal i headers row) k = None.
Proof.
  intros Hnot Hk. unfold zip_deal, dict_of_pairs. cbn [fold_left]. fold setter.
  rewrite get_fold_setter.
  - unfold setter, Dict.set, Dict.get, fst, snd.
    destruct (String.eqb "row_number" k) eqn:E; [|reflexivity].
    apply String.eqb_eq in E. congruence.
  - intros Hin. apply Hnot. apply in_map_iff in Hin as [[k' v] [E Hin]].
    cbn in E. subst k'. eapply in_combine_l. exact Hin.
Qed.

(** X2.  In the deal read from a row, the entry under a header is the cell
    of the last column that carries this header, empty text when the row
    does not reach that column; a key that is no header and is not
    [row_number] has no entry. *)
Theorem get_all_deals_field (st : sheet) (header_row : list string)
  (rows : list (list string)) (k : nat) (row : list string) :
  grid st = header_row :: rows ->
  nth_error rows k = Some row ->
  exists deals d,
    get_all_deals st = (Ok deals, st)
    /\ nth_error deals k = Some d
    /\ (forall j h,
           nth_error (map normalize_header header_row) j = Some h ->
           (forall j', j < j' ->
                       nth_error (map normalize_header header_row) j' <> Some h) ->
           Dict.get d h = Some (VStr (nth j row EmptyString)))
    /\ forall key,
        ~ In key (map normalize_header header_row) -> key <> "row_number" ->
        Dict.get d key = None.
Proof.
  intros Hg Hk.
  exists (stored_deals st), (zip_deal (k + 2) (map normalize_header header_row) row).
  split; [apply get_all_deals_reads|].
  unfold stored_deals. rewrite Hg. split; [now apply deals_from_nth|]. split.
  - intros j h Hj Hlast. now apply zip_deal_get.
  - intros key Hnot Hne. now apply zip_deal_get_none.
Qed.

Lemma pad_row_ext (n : nat) (row row' : list string) :
  (forall j, j < n -> nth j row EmptyString = nth j row' EmptyString) ->
  pad_row n row = pad_row n row'.
Proof.
  intros H. apply (nth_ext _ _ EmptyString EmptyString).
  - now rewrite !pad_row_length.
  - intros j Hj. rewrite pad_row_length in Hj. rewrite !pad_row_nth by exact Hj.
    now apply H.
Qed.

Lemma deals_from_ext (i : nat) (headers : list string)
  (rows rows' : list (list string)) :
  Forall2 (fun row row' =>
             forall j, j < List.length headers ->
                       nth j row EmptyString = nth j row' EmptyString)
          rows rows' ->
  deals_from i headers rows = deals_from i headers rows'.
Proof.
  intros H. revert i. induction H as [|row row' rows rows' Hr _ IH]; intros i;
    cbn [deals_from]; [reflexivity|].
  rewrite !fill_deal_is_zip_deal, IH. unfold zip_deal.
  now rewrite (pad_row_ext _ _ _ Hr).
Qed.

(** X3.  Only the cells under the headers count, and a missing cell counts
    as an empty one: two grids with the same header row whose rows agree
    on these cells give the same deals.  So empty cells at the end of a
    row and cells beyond the last header change nothing. *)
Theorem get_all_deals_cells_under_headers (header_row : list string)
  (rows rows' : list (list string)) (log log' : list call) :
  Forall2 (fun row row' =>
             forall j, j < List.length header_row ->
                       nth j row EmptyString = nth j row' EmptyString)
          rows rows' ->
  fst (get_all_deals (mk_sheet (header_row :: rows) log))
  = fst (get_all_deals (mk_sheet (header_row :: rows') log')).
Proof.
  intros H. rewrite !get_all_deals_reads. cbn [fst]. unfold stored_deals.
  cbn [grid]. f_equal. apply deals_from_ext.
  now rewrite length_map.
Qed.

End Headers.

Lemma normalize_header_normal_witness :
  normalize_header "Company Name" = "company_name"
  /\ normalize_header "company_name" = "company_name"
  /\ normalize_header "Estimated MRR" = "estimated_mrr".
Proof.
  destruct (normalize_header_normal "Company Name") as [_ H].
  destruct (H eq_refl) as (_ & _ & Hidem).
  split; [reflexivity|]. split; [exact Hidem | reflexivity].
Defined.

Lemma get_all_deals_field_witness :
  exists deals d,
    get_all_deals sample_sheet = (Ok deals, sample_sheet)
    /\ nth_error deals 1 = Some d
    /\ Dict.get d "stage" = Some (VStr "Discovery")
    /\ Dict.get d "priority" = Some (VStr EmptyString).
Proof.
  destruct (get_all_deals_field sample_sheet _ _ 1 _ eq_refl eq_refl)
    as (deals & d & Hget & Hd & Hfield & _).
  exists deals, d. split; [exact Hget|]. split; [exact Hd|]. split.
  - apply (Hfield 6 "stage" eq_refl).
    intros j' Hlt. do 7 (destruct j' as [|j']; [lia|]).
    do 7 (destruct j' as [|j']; [discriminate|]). destruct j'; discriminate.
  - apply (Hfield 10 "priority" eq_refl).
    intros j' Hlt. do 11 (destruct j' as [|j']; [lia|]).
    do 3 (destruct j' as [|j']; [discriminate|]). destruct j'; discriminate.
Defined.

Lemma get_all_deals_cells_under_headers_witness :
  fst (get_all_deals
         (mk_sheet [ ["Company Name"; "Stage"]; ["Acme"; EmptyString; "beyond"] ] []))
  = fst (get_all_deals
           (mk_sheet [ ["Company Name"; "Stage"]; ["Acme"] ] [])).
Proof.
  apply get_all_deals_cells_under_headers.
  constructor; [|constructor].
  intros j Hj. cbn in Hj. destruct j as [|[|j]]; [reflexivity | reflexivity | lia].
Defined.

(** ** Lookup and update *)

Section UpdateMore.

Context {casing : Py.CaseMapping}.

Context {backend : SheetsBackend}.

Local Arguments column_of : simpl never.

(** X4.  An empty company name is held by every name: on a pipeline that
    is not empty, lookup with the empty text returns the first deal. *)
Theorem find_deal_empty_query (st : sheet) (d : deal) (rest : list deal) :
  get_all_deals st = (Ok (d :: rest), st) ->
  find_deal (VStr EmptyString) st = (Ok (Some d), st).
Proof.
  rewrite get_all_deals_reads. intros [= Hd].
  rewrite find_deal_runs, Hd. f_equal.
  pose proof (stored_deals_keep st) as Hk. rewrite Hd in Hk.
  apply Forall_inv in Hk as [Ht _].
  cbn [first_match]. rewrite lower_empty.
  rewrite lower_text_of by (assumption || discriminate).
  destruct (Py.lower (text_of d "company_name")); reflexivity.
Qed.

Lemma find_deal_not_text (company : value) (st : sheet) :
  (forall s, company <> VStr s) ->
  find_deal company st = (Raise AttributeError, st).
Proof.
  intros Hc. unfold find_deal, bind. rewrite get_all_deals_reads.
  destruct company as [| | | |s| |]; try reflexivity.
  exfalso. now apply (Hc s).
Qed.


Lemma write_updates_app (row : value) (a b : list (string * value)) (st : sheet) :
  write_updates row (a ++ b) st =
  match write_updates row a st with
  | (Ok _, st1) => write_updates row b st1
  | (Raise e, st1) => (Raise e, st1)
  end.
Proof.
  revert st; induction a as [|[f v] a IH]; intros st; [reflexivity|].
  cbn [List.app write_updates].
  destruct (column_of COLUMNS f) as [col|]; [|apply IH].
  unfold bind.
  destruct (Sheets.values_update (col ++ PyValue.str row) v st) as [[[]|e] st1];
    [apply IH | reflexivity].
Qed.

(** X6.  The update is not atomic: when the store refuses the value of a
    field, the update raises, the writes of the fields before it stay in
    the sheet, and no request is sent for the fields after it. *)
Theorem update_deal_stops_at_refused_write (st st1 : sheet) (q : string)
  (d : deal) (row : value) (before after : list (string * value))
  (field col : string) (v : value) :
  find_deal (VStr q) st = (Ok (Some d), st) ->
  Dict.get d "row_number" = Some row ->
  write_updates row before st = (Ok tt, st1) ->
  column_of COLUMNS field = Some col ->
  user_entered v = None ->
  update_deal (VStr q) (VDict (before ++ (field, v) :: after)) st
  = (Raise HttpError,
     mk_sheet (grid st1) (calls st1 ++ [Update (col ++ PyValue.str row) v])).
Proof.
  intros Hf Hr Hb Hc Hv.
  rewrite (update_deal_found _ _ _ _ _ Hf Hr), write_updates_app, Hb.
  cbn [write_updates]. rewrite Hc. unfold bind, Sheets.values_update. rewrite Hv.
  destruct (Sheets.parse_a1 (col ++ PyValue.str row)) as [[r c]|]; reflexivity.
Qed.

(** X7.  An update action with no [updates] key is an update with the
    empty mapping: for a company that is found it sends no request and
    returns the summary with [{}]. *)
Theorem execute_update_without_updates {clock : Clock} (fields : dict)
  (q : string) (d : deal) (st : sheet) :
  Dict.get_default fields "action" VNone = VStr "update" ->
  Dict.get fields "company" = Some (VStr q) ->
  Dict.get fields "updates" = None ->
  find_deal (VStr q) st = (Ok (Some d), st) ->
  execute_action (VDict fields) st = (Ok ("Updated " ++ q ++ ": {}"), st).
Proof.
  intros Ha Hc Hu Hf.
  assert (Hrun : execute_action (VDict fields) st
                 = update_deal (VStr q) (VDict []) st).
  { unfold execute_action. rewrite Ha. unfold Dict.get_default.
    rewrite Hc, Hu. reflexivity. }
  destruct (found_has_row _ _ _ _ Hf) as [row Hr].
  rewrite Hrun, (update_deal_found _ _ _ _ _ Hf Hr). reflexivity.
Qed.

Lemma index_of_nth (field : string) (fields : list string) (c : nat) :
  index_of field fields = Some c -> nth_error fields c = Some field.
Proof.
  revert c; induction fields as [|f fields IH]; intros c; cbn [index_of];
    [discriminate|].
  destruct (String.eqb f field) eqn:E.
  - intros [= <-]. apply String.eqb_eq in E. now subst.
  - destruct (index_of field fields) as [c'|]; [|discriminate].
    intros [= <-]. now apply IH.
Qed.

(** The column of a field, as a letter and as a place in the row. *)
Lemma column_index (field col : string) :
  column_of COLUMNS field = Some col ->
  exists c,
    index_of field FIELDS = Some c
    /\ forall n, Sheets.parse_a1 (col ++ Py.str_of_Z (Z.of_nat (S n)))
                 = Some (S n, S c).
Proof.
  unfold column_of, COLUMNS, index_of, FIELDS.
  repeat match goal with
         | |- context [String.eqb ?a field] =>
             destruct (String.eqb a field) eqn:?
         end;
    try discriminate;
    intros [= <-]; eexists; (split; [reflexivity|]);
    intros n; cbn [append]; now rewrite parse_a1_letter.
Qed.

Lemma index_has_column (field : string) (c : nat) :
  index_of field FIELDS = Some c -> column_of COLUMNS field <> None.
Proof.
  unfold column_of, COLUMNS, index_of, FIELDS.
  repeat match goal with
         | |- context [String.eqb ?a field] =>
             destruct (String.eqb a field) eqn:?
         end;
    discriminate.
Qed.

Lemma requests_of_known (row : value) (items : list (string * value)) :
  requests_of row items = requests_of row (known_items items).
Proof.
  induction items as [|[f v] items IH]; [reflexivity|].
  cbn [requests_of flat_map known_items filter fst snd].
  destruct (column_of COLUMNS f) as [col|] eqn:E.
  - cbn [requests_of flat_map fst snd]. rewrite E. cbn [List.app]. f_equal. exact IH.
  - exact IH.
Qed.

Lemma write_updates_accepted (n : nat) (items : list (string * value))
  (st : sheet) :
  NoDup (map fst items) ->
  (forall field v, In (field, v) items -> column_of COLUMNS field <> None ->
                   user_entered v <> None) ->
  exists st',
    write_updates (VInt (Z.of_nat (S n))) items st = (Ok tt, st')
    /\ calls st' = (calls st ++ requests_of (VInt (Z.of_nat (S n))) items)%list
    /\ forall field v c text,
        In (field, v) items -> index_of field FIELDS = Some c ->
        user_entered v = Some text ->
        Sheets.cell_at (grid st') n c = text.
Proof.
  revert st; induction items as [|[f0 v0] items IH]; intros st Hnd Hacc.
  - exists st. split; [reflexivity|]. split; [now rewrite app_nil_r|].
    intros field v c text [].
  - cbn [map fst] in Hnd. apply NoDup_cons_iff in Hnd as [Hnew Hnd].
    assert (Hacc' : forall field v, In (field, v) items ->
                      column_of COLUMNS field <> None -> user_entered v <> None).
    { intros field v Hin. apply Hacc. now right. }
    cbn [write_updates requests_of flat_map fst snd].
    destruct (column_of COLUMNS f0) as [col|] eqn:E.
    + destruct (column_index _ _ E) as (c0 & Hc0 & Hparse).
      destruct (user_entered v0) as [t0|] eqn:U;
        [|exfalso; apply (Hacc f0 v0); [now left | congruence | exact U]].
      unfold bind, Sheets.values_update.
      cbn [PyValue.str PyValue.repr]. rewrite Hparse, U.
      destruct (IH (mk_sheet (Sheets.set_cell (grid st) (S n - 1) (S c0 - 1) t0)
                     (calls st ++ [Update (col ++ Py.str_of_Z (Z.of_nat (S n))) v0]))
                  Hnd Hacc') as (st' & Hw & Hlog & Hcells).
      exists st'. split; [exact Hw|]. split.
      * rewrite Hlog. cbn [calls]. now rewrite <- app_assoc.
      * intros field v c text [[= <- <-]|Hin] Hidx Hu.
        -- assert (c = c0) by congruence. subst c.
           assert (text = t0) by congruence. subst text.
           destruct (string_dec (Sheets.cell_at (grid st') n c0)
                       (Sheets.cell_at
                          (Sheets.set_cell (grid st) (S n - 1) (S c0 - 1) t0) n c0))
             as [Heq|Hne].
           ++ rewrite Heq. cbn [Nat.sub]. rewrite !Nat.sub_0_r.
              apply cell_at_set_cell_same.
           ++ exfalso.
              destruct (write_updates_effect _ _ _ _ _ Hw) as [_ Hframe].
              destruct (Hframe n c0 Hne) as (f1 & v1 & col1 & Hin1 & Hcol1 & Hname).
              destruct (names_cell_of_row _ _ _ _ _ Hcol1 Hname) as [_ Hidx1].
              apply index_of_nth in Hidx1. apply index_of_nth in Hidx.
              assert (f1 = f0) by congruence. subst f1.
              apply Hnew. apply in_map_iff. now exists (f0, v1).
        -- eapply Hcells; eassumption.
    + destruct (IH st Hnd Hacc') as (st' & Hw & Hlog & Hcells).
      exists st'. split; [exact Hw|]. split; [exact Hlog|].
      intros field v c text [[= <- <-]|Hin] Hidx Hu.
      * exfalso. apply (index_has_column _ _ Hidx). exact E.
      * eapply Hcells; eassumption.
Qed.

(** X8.  When the store accepts the value of every field of the mapping
    that has a column, the update of a deal in row [S n] succeeds, sends
    one request for each such field in the order of the mapping, and each
    of these fields then shows, in that row and at its place in the column
    order, the text the store made of its value. *)
Theorem update_deal_writes_each_field (st : sheet) (q : string) (d : deal)
  (n : nat) (items : list (string * value)) :
  find_deal (VStr q) st = (Ok (Some d), st) ->
  Dict.get d "row_number" = Some (VInt (Z.of_nat (S n))) ->
  NoDup (map fst items) ->
  (forall field v, In (field, v) items -> column_of COLUMNS field <> None ->
                   user_entered v <> None) ->
  exists st',
    update_deal (VStr q) (VDict items) st
    = (Ok ("Updated " ++ q ++ ": " ++ PyValue.repr (VDict items)), st')
    /\ calls st' = (calls st ++ requests_of (VInt (Z.of_nat (S n))) items)%list
    /\ forall field v c text,
        In (field, v) items -> index_of field FIELDS = Some c ->
        user_entered v = Some text ->
        Sheets.cell_at (grid st') n c = text.
Proof.
  intros Hf Hr Hnd Hacc.
  destruct (write_updates_accepted n items st Hnd Hacc) as (st' & Hw & Hlog & Hcells).
  exists st'. rewrite (update_deal_found _ _ _ _ _ Hf Hr), Hw. auto.
Qed.

Lemma write_updates_cells (row : value) (items : list (string * value))
  (st st' : sheet) :
  write_updates row items st = (Ok tt, st') ->
  forall r c,
    Sheets.cell_at (grid st') r c =
    match written_text row items r c with
    | Some text => text
    | None => Sheets.cell_at (grid st) r c
    end.
Proof.
  revert st; induction items as [|[f v] items IH]; intros st.
  - intros [= <-] r c. reflexivity.
  - cbn [write_updates written_text]. unfold write_text. cbn [fst snd].
    destruct (column_of COLUMNS f) as [col|].
    + unfold bind.
      destruct (Sheets.values_update (col ++ PyValue.str row) v st)
        as [[[]|e] st1] eqn:U; [|discriminate].
      intros Hw r c. rewrite (IH _ Hw r c).
      destruct (written_text row items r c); [reflexivity|].
      revert U. unfold Sheets.values_update.
      destruct (Sheets.parse_a1 (col ++ PyValue.str row)) as [[r1 c1]|];
        [|discriminate].
      destruct (user_entered v) as [text|]; [|discriminate].
      intros [= <-]. cbn [grid].
      destruct ((r1 - 1 =? r) && (c1 - 1 =? c)) eqn:E.
      * apply andb_true_iff in E as [E1 E2].
        apply Nat.eqb_eq in E1, E2. subst. apply cell_at_set_cell_same.
      * apply cell_at_set_cell_other. intros [= -> ->].
        now rewrite !Nat.eqb_refl in E.
    + intros Hw r c. rewrite (IH _ Hw r c).
      now destruct (written_text row items r c).
Qed.

Lemma write_updates_again (row : value) (items : list (string * value))
  (st st' st0 : sheet) :
  write_updates row items st = (Ok tt, st') ->
  exists st0', write_updates row items st0 = (Ok tt, st0').
Proof.
  revert st st0; induction items as [|[f v] items IH]; intros st st0.
  - intros _. now exists st0.
  - cbn [write_updates]. destruct (column_of COLUMNS f) as [col|]; [|apply IH].
    unfold bind, Sheets.values_update.
    destruct (Sheets.parse_a1 (col ++ PyValue.str row)) as [[r1 c1]|];
      [|discriminate].
    destruct (user_entered v) as [text|]; [|discriminate].
    apply IH.
Qed.


End UpdateMore.

Lemma find_deal_empty_query_witness :
  exists d, find_deal (VStr EmptyString) sample_sheet = (Ok (Some d), sample_sheet)
            /\ Dict.get d "company_name" = Some (VStr "Acme Corp").
Proof.
  eexists. split.
  - apply find_deal_empty_query with (rest := tl (stored_deals sample_sheet)).
    vm_compute. reflexivity.
  - reflexivity.
Defined.


Lemma update_deal_stops_at_refused_write_witness :
  fst refused_update_outcome = Raise HttpError
  /\ calls (snd refused_update_outcome)
     = [Update "G2" (VStr "Won"); Update "I2" (VList [])]
  /\ Sheets.cell_at (grid (snd refused_update_outcome)) 1 6 = "Won"
  /\ Sheets.cell_at (grid (snd refused_update_outcome)) 1 10 = "High".
Proof.
  assert (Hf : find_deal (VStr "Acme") sample_sheet
               = (Ok (Some (hd [] (stored_deals sample_sheet))), sample_sheet))
    by (vm_compute; reflexivity).
  assert (Hr : Dict.get (hd [] (stored_deals sample_sheet)) "row_number"
               = Some (VInt 2))
    by (vm_compute; reflexivity).
  assert (Hb : @write_updates plain_backend (VInt 2) [("stage", VStr "Won")]
                 sample_sheet
               = (Ok tt,
                  snd (@write_updates plain_backend (VInt 2)
                         [("stage", VStr "Won")] sample_sheet)))
    by (vm_compute; reflexivity).
  pose proof (@update_deal_stops_at_refused_write ascii_text plain_backend
                _ _ _ _ _ _ [("priority", VStr "Low")] "notes" "I" (VList [])
                Hf Hr Hb eq_refl eq_refl) as H.
  cbn [List.app] in H. unfold refused_update_outcome. rewrite H.
  vm_compute. repeat split.
Defined.

Lemma execute_update_without_updates_witness :
  @execute_action ascii_text plain_backend fixed_clock
    (VDict [("action", VStr "update"); ("company", VStr "beta")]) sample_sheet
  = (Ok "Updated beta: {}", sample_sheet).
Proof.
  apply (@execute_update_without_updates ascii_text plain_backend fixed_clock _ "beta"
           (nth 1 (stored_deals sample_sheet) []));
    vm_compute; reflexivity.
Defined.

Lemma update_deal_writes_each_field_witness :
  exists st',
    snd stage_update_outcome = st'
    /\ Sheets.cell_at (grid st') 1 6 = "Discovery"
    /\ Sheets.cell_at (grid st') 1 7 = "2024-06-01".
Proof.
  destruct (@update_deal_writes_each_field ascii_text plain_backend sample_sheet "Acme"
              (hd [] (stored_deals sample_sheet)) 1
              [("stage", VStr "Discovery"); ("stage_date", VStr "2024-06-01")])
    as (st' & Hu & _ & Hcells).
  - vm_compute. reflexivity.
  - vm_compute. reflexivity.
  - repeat constructor; cbn; intuition discriminate.
  - intros field v [[= <- <-]|[[= <- <-]|[]]] _; discriminate.
  - exists st'. split.
    + unfold stage_update_outcome. now rewrite Hu.
    + split.
      * apply (Hcells "stage" (VStr "Discovery")); [now left | reflexivity ..].
      * apply (Hcells "stage_date" (VStr "2024-06-01"));
          [right; now left | reflexivity ..].
Defined.


(** ** The frame of an update *)

Section SchemaFrame.

Context {casing : Py.CaseMapping}.

Context {backend : SheetsBackend}.

Local Arguments column_of : simpl never.

Lemma alter_nth_length {A} (default : A) (f : A -> A) (n : nat) (l : list A) :
  n < List.length l ->
  List.length (Sheets.alter_nth default f n l) = List.length l.
Proof.
  revert l; induction n as [|n IH]; intros [|x l] H; cbn in *; try lia.
  f_equal. apply IH. lia.
Qed.

(** A cell write within the grid keeps the number of rows and every row
    but the one written. *)
Lemma values_update_rows (range : string) (v : value) (st st' : sheet)
  (res : result unit) (n c : nat) :
  Sheets.parse_a1 range = Some (S n, S c) ->
  n < List.length (grid st) ->
  Sheets.values_update range v st = (res, st') ->
  List.length (grid st') = List.length (grid st)
  /\ forall r, r <> n -> nth r (grid st') [] = nth r (grid st) [].
Proof.
  intros Hp Hn. unfold Sheets.values_update. rewrite Hp.
  destruct (user_entered v) as [text|]; intros [= _ <-]; cbn [grid];
    [|split; [reflexivity | intros r _; reflexivity]].
  rewrite ?Nat.sub_0_r. replace (S n - 1) with n by lia.
  unfold Sheets.set_cell. split.
  - now apply alter_nth_length.
  - intros r Hr. now apply nth_alter_nth_other.
Qed.

Lemma write_updates_rows (n : nat) (items : list (string * value))
  (st st' : sheet) (res : result unit) :
  n < List.length (grid st) ->
  write_updates (VInt (Z.of_nat (S n))) items st = (res, st') ->
  List.length (grid st') = List.length (grid st)
  /\ forall r, r <> n -> nth r (grid st') [] = nth r (grid st) [].
Proof.
  revert st; induction items as [|[f v] items IH]; intros st Hn.
  - intros [= _ <-]. now split.
  - cbn [write_updates]. destruct (column_of COLUMNS f) as [col|] eqn:E;
      [|now apply IH].
    destruct (column_index _ _ E) as (c & _ & Hp).
    unfold bind. cbn [PyValue.str PyValue.repr].
    destruct (Sheets.values_update (col ++ Py.str_of_Z (Z.of_nat (S n))) v st)
      as [r1 st1] eqn:U.
    destruct (values_update_rows _ _ _ _ _ _ _ (Hp n) Hn U) as [Hlen Hrows].
    destruct r1 as [[]|e].
    + intros W. apply IH in W as [Hlen' Hrows']; [|now rewrite Hlen].
      split; [congruence|].
      intros r Hr. now rewrite Hrows', Hrows.
    + intros [= _ <-]. now split.
Qed.

Lemma update_deal_rows (st st' : sheet) (q : string) (d : deal) (n : nat)
  (updates : value) (res : result string) :
  find_deal (VStr q) st = (Ok (Some d), st) ->
  Dict.get d "row_number" = Some (VInt (Z.of_nat (S n))) ->
  n < List.length (grid st) ->
  update_deal (VStr q) updates st = (res, st') ->
  List.length (grid st') = List.length (grid st)
  /\ forall r, r <> n -> nth r (grid st') [] = nth r (grid st) [].
Proof.
  intros Hf Hr Hn Hu. rewrite update_deal_unfold, Hf in Hu.
  destruct d as [|kv d]; [discriminate Hr|]. rewrite Hr in Hu.
  destruct updates as [| | | | | |items];
    try (injection Hu as _ <-; now split).
  destruct (write_updates (VInt (Z.of_nat (S n))) items st) as [r1 st1] eqn:W.
  assert (st1 = st') by (destruct r1 as [[]|e]; congruence). subst st1.
  now apply (write_updates_rows _ _ _ _ _ Hn W).
Qed.

Lemma deals_from_nth_error (i k : nat) (headers : list string)
  (rows : list (list string)) :
  nth_error (deals_from i headers rows) k
  = option_map (zip_deal (k + i) headers) (nth_error rows k).
Proof.
  destruct (nth_error rows k) as [row|] eqn:R.
  - now apply deals_from_nth.
  - apply nth_error_None. rewrite deals_from_length. now apply nth_error_None.
Qed.

Lemma nth_error_of_nth {A} (l l' : list A) (default : A) (k : nat) :
  List.length l = List.length l' ->
  nth k l default = nth k l' default ->
  nth_error l k = nth_error l' k.
Proof.
  intros Hlen Hnth. destruct (Nat.lt_ge_cases k (List.length l)) as [Hlt|Hge].
  - rewrite (nth_error_nth' l default Hlt).
    rewrite (nth_error_nth' l' default) by lia. now rewrite Hnth.
  - rewrite (proj2 (nth_error_None l k) Hge).
    symmetry. apply nth_error_None. lia.
Qed.

Lemma fields_no_row_number : ~ In "row_number" FIELDS.
Proof.
  intros Hin. repeat (destruct Hin as [Hin|Hin]; [discriminate Hin|]). exact Hin.
Qed.

Lemma index_of_none (field : string) (fields : list string) :
  index_of field fields = None -> ~ In field fields.
Proof.
  induction fields as [|f fields IH]; cbn [index_of]; [intros _ []|].
  destruct (String.eqb f field) eqn:E; [discriminate|].
  destruct (index_of field fields); [discriminate|].
  intros _ [->|Hin]; [now rewrite String.eqb_refl in E | now apply IH].
Qed.

Lemma index_of_first (field : string) (fields : list string) (c j : nat) :
  index_of field fields = Some c -> nth_error fields j = Some field -> c <= j.
Proof.
  revert c j; induction fields as [|f fields IH]; intros c j; cbn [index_of];
    [discriminate|].
  destruct (String.eqb f field) eqn:E.
  - intros [= <-] _. lia.
  - destruct (index_of field fields) as [c'|] eqn:I; [|discriminate].
    intros [= <-]. destruct j as [|j]; cbn [nth_error].
    + intros [= ->]. now rewrite String.eqb_refl in E.
    + intros Hj. apply le_n_S. now apply IH.
Qed.

(** The place of a field in the column order is the only one. *)
Lemma fields_index_unique (field : string) (c j : nat) :
  index_of field FIELDS = Some c -> nth_error FIELDS j = Some field -> j = c.
Proof.
  unfold index_of, FIELDS.
  repeat match goal with
         | |- context [String.eqb ?a field] =>
             destruct (String.eqb a field) eqn:?
         end;
    try discriminate;
    repeat match goal with
           | H : String.eqb _ field = true |- _ =>
               apply String.eqb_eq in H; subst field
           end;
    intros [= <-];
    do 14 (destruct j as [|j]; [reflexivity || discriminate|]);
    destruct j; discriminate.
Qed.

(** C6, on a sheet whose headers are the fourteen fields in the order of
    the columns.  An update of an existing deal, the deal read from row
    [k + 2], sends write requests only for fields named in the mapping,
    each to the cell of that field's column in row [k + 2], and a cell of
    the grid that differs afterwards is such a cell.  The header row and
    the number of deals are as before; every other deal is as before; in
    the deal itself every entry whose key the mapping does not name is as
    before.  This holds whether the update runs to its end or stops at a
    refused write. *)
Theorem update_deal_frame (st st' : sheet) (header_row : list string)
  (rows : list (list string)) (q : string) (d : deal) (updates : value)
  (res : result string) :
  grid st = header_row :: rows ->
  map normalize_header header_row = FIELDS ->
  find_deal (VStr q) st = (Ok (Some d), st) ->
  update_deal (VStr q) updates st = (res, st') ->
  exists k,
    nth_error (stored_deals st) k = Some d
    /\ (exists new,
           calls st' = (calls st ++ new)%list
           /\ forall c, In c new ->
                exists field v col,
                  named_in updates field v
                  /\ column_of COLUMNS field = Some col
                  /\ c = Update (col ++ Py.str_of_Z (Z.of_nat (k + 2))) v)
    /\ (forall r c,
           Sheets.cell_at (grid st') r c <> Sheets.cell_at (grid st) r c ->
           r = k + 1
           /\ exists field v,
               named_in updates field v /\ index_of field FIELDS = Some c)
    /\ hd [] (grid st') = header_row
    /\ List.length (stored_deals st') = List.length (stored_deals st)
    /\ (forall k', k' <> k ->
                   nth_error (stored_deals st') k' = nth_error (stored_deals st) k')
    /\ exists d',
        nth_error (stored_deals st') k = Some d'
        /\ forall key,
            (forall v, ~ named_in updates key v) ->
            Dict.get d' key = Dict.get d key.
Proof.
  intros Hg Hh Hf Hu.
  assert (Hnorow : ~ In "row_number" (map normalize_header (hd [] (grid st)))).
  { rewrite Hg. cbn [hd]. rewrite Hh. apply fields_no_row_number. }
  destruct (find_deal_found _ _ _ _ Hf) as [Hin _].
  destruct (stored_deal_row_number st d Hnorow Hin) as (k & Hk & Hrow).
  destruct (update_deal_writes _ _ _ _ _ _ Hf Hu) as (row & Hr & Hlog & Hcells).
  rewrite Hrow in Hr. injection Hr as <-.
  assert (Hst : stored_deals st = deals_from 2 FIELDS rows).
  { unfold stored_deals. now rewrite Hg, Hh. }
  assert (Hklt : k < List.length rows).
  { rewrite <- (deals_from_length 2 FIELDS rows), <- Hst.
    apply nth_error_Some. congruence. }
  assert (Hcell : forall r c,
             Sheets.cell_at (grid st') r c <> Sheets.cell_at (grid st) r c ->
             r = k + 1
             /\ exists field v,
                 named_in updates field v /\ index_of field FIELDS = Some c).
  { intros r c Hne.
    destruct (Hcells r c Hne) as (field & v & col & items & E & Hi & Hcol & _ & Hn).
    destruct (Hn (k + 1) eq_refl) as [-> Hidx].
    split; [reflexivity|]. exists field, v. split; [now exists items | exact Hidx]. }
  assert (Hin_grid : k + 1 < List.length (grid st)).
  { rewrite Hg. cbn [List.length]. lia. }
  destruct (update_deal_rows _ _ _ _ (k + 1) _ _ Hf Hrow Hin_grid Hu)
    as [Hlen Hrows].
  destruct (grid st') as [|hr' rows'] eqn:Hg';
    [rewrite Hg in Hlen; discriminate Hlen|].
  assert (hr' = header_row).
  { specialize (Hrows 0). rewrite Hg in Hrows. cbn [nth] in Hrows.
    apply Hrows. lia. }
  subst hr'.
  assert (Hlen' : List.length rows' = List.length rows).
  { rewrite Hg in Hlen. cbn [List.length] in Hlen. lia. }
  assert (Hother : forall j, j <> k -> nth j rows' [] = nth j rows []).
  { intros j Hj. specialize (Hrows (S j)). rewrite Hg in Hrows.
    cbn [nth] in Hrows. apply Hrows. lia. }
  assert (Hst' : stored_deals (mk_sheet (header_row :: rows') (calls st'))
                 = deals_from 2 FIELDS rows').
  { unfold stored_deals. cbn [grid]. now rewrite Hh. }
  assert (Hsame : stored_deals st'
                  = stored_deals (mk_sheet (header_row :: rows') (calls st'))).
  { unfold stored_deals. now rewrite Hg'. }
  rewrite Hsame, Hst', Hst. rewrite Hst in Hk.
  exists k. split; [exact Hk|]. split; [|split; [exact Hcell|]].
  { destruct Hlog as (new & Hnew & Hall). exists new. split; [exact Hnew|].
    intros c Hc. destruct (Hall c Hc) as (field & v & col & items & E & Hi & Hcol & ->).
    exists field, v, col. split; [now exists items|]. split; [exact Hcol|].
    cbn [PyValue.str PyValue.repr]. do 4 f_equal. lia. }
  split; [reflexivity|].
  split; [now rewrite !deals_from_length|].
  split.
  { intros k' Hk'. rewrite !deals_from_nth_error. f_equal.
    apply (nth_error_of_nth _ _ []); [exact Hlen' | now apply Hother]. }
  rewrite deals_from_nth_error in Hk.
  rewrite (nth_error_nth' rows [] Hklt) in Hk. injection Hk as <-.
  exists (zip_deal (k + 2) FIELDS (nth k rows' [])). split.
  { rewrite deals_from_nth_error, (nth_error_nth' rows' []) by lia.
    reflexivity. }
  intros key Hkey.
  destruct (string_dec key "row_number") as [->|Hne].
  { now rewrite !zip_deal_row_number by apply fields_no_row_number. }
  destruct (index_of key FIELDS) as [j|] eqn:Hj.
  - assert (Hnth : nth_error FIELDS j = Some key) by now apply index_of_nth.
    assert (Hlast : forall j', j < j' -> nth_error FIELDS j' <> Some key).
    { intros j' Hlt Hj'. pose proof (fields_index_unique _ _ _ Hj Hj'). lia. }
    rewrite !(zip_deal_get _ j _ _ key Hnth Hlast). do 2 f_equal.
    destruct (string_dec (nth j (nth k rows' []) EmptyString)
                         (nth j (nth k rows []) EmptyString)) as [Heq|Hd];
      [exact Heq|].
    exfalso. destruct (Hcell (k + 1) j) as [_ (field & v & Hnamed & Hidx)].
    + unfold Sheets.cell_at. rewrite Hg. replace (k + 1) with (S k) by lia.
      exact Hd.
    + apply index_of_nth in Hidx.
      assert (field = key) by congruence. subst field.
      exact (Hkey v Hnamed).
  - now rewrite !zip_deal_get_none by (now apply index_of_none || exact Hne).
Qed.

End SchemaFrame.

(** C6 fails as stated on a sheet whose headers do not stand in the order
    of the columns: renaming the deal writes cell A2, the cell of
    [company_name] in [COLUMNS], which this sheet reads as the stage.  The
    stage of the deal, a field the mapping does not name, changes, and the
    company name does not. *)
Lemma update_deal_writes_under_other_header :
  fst swapped_update_outcome = Ok "Updated Acme: {'company_name': 'Apex'}"
  /\ calls (snd swapped_update_outcome) = [Update "A2" (VStr "Apex")]
  /\ exists d d',
      fst (find_deal (VStr "Acme") swapped_sheet) = Ok (Some d)
      /\ stored_deals swapped_sheet = [d]
      /\ stored_deals (snd swapped_update_outcome) = [d']
      /\ Dict.get d "stage" = Some (VStr "Lead")
      /\ Dict.get d' "stage" = Some (VStr "Apex")
      /\ Dict.get d' "company_name" = Some (VStr "Acme")
      /\ Dict.get d "row_number" = Some (VInt 2).
Proof. vm_compute. split; [reflexivity|]. split; [reflexivity|]. do 2 eexists. repeat split. Qed.

Lemma update_deal_frame_witness :
  exists d',
    stored_deals (snd stage_update_outcome)
    = d' :: tl (stored_deals sample_sheet)
    /\ Dict.get d' "company_name" = Some (VStr "Acme Corp")
    /\ Dict.get d' "notes" = Some (VStr EmptyString)
    /\ Dict.get d' "estimated_mrr" = Some (VStr "1200")
    /\ Dict.get d' "row_number" = Some (VInt 2)
    /\ forall r c,
        Sheets.cell_at (grid (snd stage_update_outcome)) r c
        <> Sheets.cell_at (grid sample_sheet) r c ->
        r = 1 /\ (c = 6 \/ c = 7).
Proof.
  destruct (@update_deal_frame ascii_text plain_backend sample_sheet
              (snd stage_update_outcome) _ _ "Acme"
              (hd [] (stored_deals sample_sheet))
              (VDict [("stage", VStr "Discovery"); ("stage_date", VStr "2024-06-01")])
              (fst stage_update_outcome) eq_refl)
    as (k & Hk & _ & Hcells & _ & Hlen & Hothers & d' & Hd' & Hkeys).
  - vm_compute. reflexivity.
  - vm_compute. reflexivity.
  - vm_compute. reflexivity.
  - assert (k = 0).
    { destruct k as [|[|k]]; [reflexivity | vm_compute in Hk; discriminate Hk |].
      vm_compute in Hk. destruct k; discriminate Hk. }
    subst k.
    assert (Hunnamed : forall key, key <> "stage" -> key <> "stage_date" ->
              forall v, ~ named_in
                            (VDict [("stage", VStr "Discovery");
                                    ("stage_date", VStr "2024-06-01")]) key v).
    { intros key H1 H2 v (items & [= <-] & [[= E _]|[[= E _]|[]]]); congruence. }
    exists d'. split.
    + specialize (Hothers 1 ltac:(lia)).
      destruct (stored_deals (snd stage_update_outcome)) as [|d0 [|d1 [|d2 rest]]];
        try discriminate Hlen.
      cbn [nth_error] in Hd', Hothers. injection Hd' as ->.
      vm_compute in Hothers. injection Hothers as ->. reflexivity.
    + split; [rewrite Hkeys by (apply Hunnamed; discriminate); reflexivity|].
      split; [rewrite Hkeys by (apply Hunnamed; discriminate); reflexivity|].
      split; [rewrite Hkeys by (apply Hunnamed; discriminate); reflexivity|].
      split; [rewrite Hkeys by (apply Hunnamed; discriminate); reflexivity|].
      intros r c Hne. destruct (Hcells r c Hne) as [-> (field & v & Hn & Hidx)].
      split; [reflexivity|].
      destruct Hn as (items & [= <-] & [[= <- _]|[[= <- _]|[]]]);
        vm_compute in Hidx; injection Hidx as <-; auto.
Defined.

(** ** Adding and listing *)

Section AddMore.

Context {casing : Py.CaseMapping}.

Context {backend : SheetsBackend}.

Lemma add_deal_unfold (d : dict) (st : sheet) :
  add_deal (VDict d) st =
  let row := map (fun field => Dict.get_default d field (VStr EmptyString)) FIELDS in
  match Sheets.entered_row row with
  | Some texts =>
      (Ok ("Added new deal: "
             ++ PyValue.str (Dict.get_default d "company_name" VNone)),
       mk_sheet (grid st ++ [texts]) (calls st ++ [Append row]))
  | None => (Raise HttpError, mk_sheet (grid st) (calls st ++ [Append row]))
  end.
Proof.
  unfold add_deal, bind, Sheets.values_append. cbv zeta.
  destruct (Sheets.entered_row _); reflexivity.
Qed.


Lemma deals_from_app (i : nat) (headers : list string)
  (rows : list (list string)) (row : list string) :
  deals_from i headers (rows ++ [row])
  = (deals_from i headers rows
       ++ [zip_deal (List.length rows + i) headers row])%list.
Proof.
  revert i; induction rows as [|row0 rows IH]; intros i; cbn [List.app deals_from].
  - now rewrite fill_deal_is_zip_deal.
  - rewrite IH. cbn [List.length]. now rewrite Nat.add_succ_r.
Qed.

Lemma entered_row_nth (row : list value) (texts : list string) (j : nat)
  (v : value) :
  Sheets.entered_row row = Some texts ->
  nth_error row j = Some v ->
  exists text, user_entered v = Some text /\ nth_error texts j = Some text.
Proof.
  revert texts j; induction row as [|v0 row IH]; intros texts j;
    cbn [Sheets.entered_row].
  - intros _ H. destruct j; discriminate H.
  - destruct (user_entered v0) as [t0|] eqn:U; [|discriminate].
    destruct (Sheets.entered_row row) as [ts|]; [|discriminate].
    intros [= <-]. destruct j as [|j]; cbn [nth_error].
    + intros [= <-]. now exists t0.
    + intros H. now apply (IH ts j).
Qed.

Lemma fields_no_dup : NoDup FIELDS.
Proof. unfold FIELDS. repeat constructor; cbn; intuition discriminate. Qed.


(** Listing never changes the sheet. *)
Lemma list_deals_state (stage : value) (st : sheet) :
  snd (list_deals stage st) = st.
Proof.
  unfold list_deals, bind. rewrite get_all_deals_reads.
  destruct (PyValue.truthy stage); reflexivity.
Qed.

(** X12.  A stage filter that is truthy but not a text, such as a number,
    makes the listing raise [AttributeError] as soon as the pipeline holds
    a deal; on an empty pipeline the comparison is never made and the
    listing is empty. *)
Theorem list_deals_filter_not_text (stage : value) (st : sheet) :
  (forall s, stage <> VStr s) ->
  PyValue.truthy stage = true ->
  (get_all_deals st = (Ok [], st) -> list_deals stage st = (Ok [], st))
  /\ forall d rest,
      get_all_deals st = (Ok (d :: rest), st) ->
      list_deals stage st = (Raise AttributeError, st).
Proof.
  intros Hs Ht. split.
  - intros Hg. unfold list_deals, bind. rewrite Hg, Ht. reflexivity.
  - intros d rest Hg. unfold list_deals, bind. rewrite Hg, Ht.
    rewrite get_all_deals_reads in Hg. injection Hg as Hd.
    pose proof (stored_deals_keep st) as Hk. rewrite Hd in Hk.
    apply Forall_inv in Hk as [Hc _].
    unfold lift. cbn [filter_stage].
    rewrite lower_text_of by (assumption || discriminate).
    destruct stage as [| | | |s| |]; try reflexivity.
    exfalso. now apply (Hs s).
Qed.

(** X13.  Only the update and the add action write: for every other
    action, of a known kind or not, and for a reply that is no object,
    the executor leaves the sheet and its request log as they were,
    whether it returns or raises. *)
Theorem execute_action_reads_only {clock : Clock} (action_data : value)
  (st : sheet) :
  (forall fields,
      action_data = VDict fields ->
      is_text (Dict.get_default fields "action" VNone) "update" = false
      /\ is_text (Dict.get_default fields "action" VNone) "add" = false) ->
  snd (execute_action action_data st) = st.
Proof.
  intros H. destruct action_data as [| | | | | |fields]; try reflexivity.
  destruct (H fields eq_refl) as [Hu Ha].
  unfold execute_action. rewrite Hu, Ha.
  destruct (is_text (Dict.get_default fields "action" VNone) "list").
  - unfold bind.
    pose proof (list_deals_state (Dict.get_default fields "filter_stage" VNone) st) as Hl.
    destruct (list_deals (Dict.get_default fields "filter_stage" VNone) st)
      as [[deals|e] st1]; cbn [snd] in Hl; subst st1; [|reflexivity].
    now destruct deals.
  - now destruct (is_text (Dict.get_default fields "action" VNone) "clarify").
Qed.

End AddMore.



Lemma list_deals_filter_not_text_witness :
  list_deals (VInt 5) sample_sheet = (Raise AttributeError, sample_sheet)
  /\ list_deals (VInt 5) (mk_sheet [] []) = (Ok [], mk_sheet [] []).
Proof.
  split.
  - refine (proj2 (list_deals_filter_not_text (VInt 5) sample_sheet _ eq_refl)
              (hd [] (stored_deals sample_sheet)) (tl (stored_deals sample_sheet)) _).
    + intros s. discriminate.
    + vm_compute. reflexivity.
  - refine (proj1 (list_deals_filter_not_text (VInt 5) (mk_sheet [] []) _ eq_refl) _).
    + intros s. discriminate.
    + reflexivity.
Defined.

Lemma execute_action_reads_only_witness :
  snd (@execute_action ascii_text plain_backend fixed_clock
         (VDict [("action", VStr "list"); ("filter_stage", VStr "lead")])
         sample_sheet)
  = sample_sheet.
Proof.
  apply (@execute_action_reads_only ascii_text plain_backend fixed_clock).
  intros fields [= <-]. split; reflexivity.
Defined.

(** ** The deal a lookup returns *)

Section Found.

Context {casing : Py.CaseMapping}.

(** X24.  A deal that lookup returns is one of the deals read from the
    sheet, which lookup leaves as it was.  It is not empty and holds an
    entry under [row_number], so that [update_deal] passes its test
    [if not deal] and finds [deal['row_number']]; every other entry of it
    is a text, on which [lower] is defined. *)
Theorem find_deal_returns_stored_deal (company : value) (st st' : sheet)
  (d : deal) :
  find_deal company st = (Ok (Some d), st') ->
  st' = st
  /\ (exists q, company = VStr q)
  /\ In d (stored_deals st)
  /\ d <> []
  /\ (exists row, Dict.get d "row_number" = Some row)
  /\ forall key v,
      Dict.get d key = Some v -> key = "row_number" \/ exists s, v = VStr s.
Proof.
  intros Hf.
  assert (exists q, company = VStr q) as [q ->].
  { destruct company as [| | | |q| |];
      try (rewrite find_deal_not_text in Hf;
           [discriminate Hf | intros s; discriminate]).
    now exists q. }
  destruct (find_deal_found _ _ _ _ Hf) as [Hin ->].
  destruct (found_has_row _ _ _ _ Hf) as [row Hr].
  pose proof (stored_deals_keep st) as Hall. rewrite Forall_forall in Hall.
  destruct (Hall _ Hin) as [Ht _].
  split; [reflexivity|]. split; [now exists q|]. split; [exact Hin|].
  split; [intros ->; discriminate Hr|]. split; [now exists row | exact Ht].
Qed.

End Found.

Lemma find_deal_returns_stored_deal_witness :
  exists d,
    find_deal (VStr "beta") sample_sheet = (Ok (Some d), sample_sheet)
    /\ Dict.get d "row_number" = Some (VInt 3)
    /\ In d (stored_deals sample_sheet).
Proof.
  exists (nth 1 (stored_deals sample_sheet) []).
  assert (Hf : find_deal (VStr "beta") sample_sheet
               = (Ok (Some (nth 1 (stored_deals sample_sheet) [])), sample_sheet))
    by (vm_compute; reflexivity).
  destruct (find_deal_returns_stored_deal _ _ _ _ Hf)
    as (_ & _ & Hin & _ & _ & _).
  split; [exact Hf|]. split; [reflexivity | exact Hin].
Defined.

(** ** The reply: fences and white space *)

Section ReplyMore.

Lemma rstrip_cons (c : ascii) (s : string) :
  Py.rstrip (String c s) =
  match Py.rstrip s with
  | EmptyString => if Py.is_space c then EmptyString else String c EmptyString
  | r => String c r
  end.
Proof. reflexivity. Qed.

Lemma rstrip_fence_tail (pre tail : string) :
  Py.rstrip (pre ++ "```" ++ tail) = pre ++ "```" ++ Py.rstrip tail.
Proof.
  induction pre as [|c pre IH].
  - cbn [append Py.rstrip]. destruct (Py.rstrip tail); reflexivity.
  - change (String c pre ++ "```" ++ tail) with (String c (pre ++ "```" ++ tail)).
    rewrite rstrip_cons, IH.
    destruct pre; reflexivity.
Qed.

Lemma split_fenced_body_tail (t piece tail : string) :
  Py.contains "```" t = false ->
  exists pieces,
    Py.split_from "```" 0 piece (t ++ nl ++ "```" ++ tail)
    = (piece ++ t ++ nl) :: pieces.
Proof.
  revert piece; induction t as [|c t IH]; intros piece Hc.
  - unfold nl. cbn [append].
    rewrite split_from_miss by reflexivity.
    rewrite split_from_hit by reflexivity. eauto.
  - cbn [Py.contains] in Hc. apply orb_false_iff in Hc as [Hs Hc].
    change (String c t ++ nl ++ "```" ++ tail)
      with (String c (t ++ nl ++ "```" ++ tail)).
    rewrite split_from_miss
      by exact (startswith_fence_app (String c t) ("```" ++ tail) Hs).
    destruct (IH (piece ++ String c EmptyString) Hc) as [pieces ->].
    exists pieces. now rewrite append_snoc.
Qed.

(** X14.  A reply in a code fence, tagged [json] or not, parses to the
    value of the text inside, given that this text is valid JSON and
    holds no fence of its own; whatever follows the closing fence is
    ignored. *)
Theorem fenced_reply_tail_ignored (tag t tail : string) (v : value) :
  tag = EmptyString \/ tag = "json" ->
  Json.loads t = Some v ->
  Py.contains "```" t = false ->
  parse_response ("```" ++ tag ++ nl ++ t ++ nl ++ "```" ++ tail) = Ok v.
Proof.
  intros Htag Hv Hc. unfold parse_response, Py.strip.
  assert (Hl : forall x, Py.lstrip ("```" ++ x) = "```" ++ x) by reflexivity.
  rewrite Hl.
  replace ("```" ++ tag ++ nl ++ t ++ nl ++ "```" ++ tail)
    with (("```" ++ tag ++ nl ++ t ++ nl) ++ "```" ++ tail)
    by (now rewrite !append_assoc).
  rewrite rstrip_fence_tail, !append_assoc.
  assert (strip_fence ("```" ++ tag ++ nl ++ t ++ nl ++ "```" ++ Py.rstrip tail)
          = Ok (nl ++ t ++ nl)) as ->.
  { unfold strip_fence, Py.split.
    change (Py.startswith ("```" ++ tag ++ nl ++ t ++ nl ++ "```" ++ Py.rstrip tail) "```")
      with true. cbv iota.
    change ("```" ++ tag ++ nl ++ t ++ nl ++ "```" ++ Py.rstrip tail)
      with (String "`" (String "`" (String "`"
              (tag ++ nl ++ t ++ nl ++ "```" ++ Py.rstrip tail)))).
    rewrite split_from_hit by reflexivity.
    change (String.length "```" - 1) with 2.
    rewrite !split_from_skip.
    destruct Htag as [-> | ->].
    - change (EmptyString ++ nl ++ t ++ nl ++ "```" ++ Py.rstrip tail)
        with (String (ascii_of_nat 10) (t ++ nl ++ "```" ++ Py.rstrip tail)).
      rewrite split_from_miss by reflexivity.
      match goal with
      | |- context [Py.split_from "```" 0 ?p (t ++ nl ++ "```" ++ Py.rstrip tail)] =>
          destruct (split_fenced_body_tail t p (Py.rstrip tail) Hc) as [pieces ->]
      end.
      reflexivity.
    - change ("json" ++ nl ++ t ++ nl ++ "```" ++ Py.rstrip tail)
        with (String "j" (String "s" (String "o" (String "n"
                (String (ascii_of_nat 10) (t ++ nl ++ "```" ++ Py.rstrip tail)))))).
      do 5 (rewrite split_from_miss by reflexivity).
      match goal with
      | |- context [Py.split_from "```" 0 ?p (t ++ nl ++ "```" ++ Py.rstrip tail)] =>
          destruct (split_fenced_body_tail t p (Py.rstrip tail) Hc) as [pieces ->]
      end.
      reflexivity. }
  now rewrite loads_between_nl, Hv.
Qed.

Lemma lstrip_blank (ws : string) : blank ws = true -> Py.lstrip ws = EmptyString.
Proof.
  induction ws as [|c ws IH]; [reflexivity|].
  cbn [blank Py.lstrip]. intros H. apply andb_true_iff in H as [-> H]. now apply IH.
Qed.

Lemma rstrip_blank (ws : string) : blank ws = true -> Py.rstrip ws = EmptyString.
Proof.
  induction ws as [|c ws IH]; [reflexivity|].
  cbn [blank Py.rstrip]. intros H. apply andb_true_iff in H as [Hc H].
  now rewrite (IH H), Hc.
Qed.

Lemma rstrip_app_blank (s ws : string) :
  blank ws = true -> Py.rstrip (s ++ ws) = Py.rstrip s.
Proof.
  intros H. induction s as [|c s IH]; [now apply rstrip_blank|].
  cbn [append Py.rstrip]. now rewrite IH.
Qed.

Lemma strip_app_blank (s ws : string) :
  blank ws = true -> Py.strip (s ++ ws) = Py.strip s.
Proof.
  intros H. unfold Py.strip. induction s as [|c s IH].
  - cbn [append]. now rewrite (lstrip_blank _ H).
  - cbn [append Py.lstrip]. destruct (Py.is_space c); [exact IH|].
    change (String c (s ++ ws)) with (String c s ++ ws).
    now apply rstrip_app_blank.
Qed.

Lemma lstrip_blank_app (ws s : string) :
  blank ws = true -> Py.lstrip (ws ++ s) = Py.lstrip s.
Proof.
  induction ws as [|c ws IH]; [reflexivity|].
  cbn [blank append Py.lstrip]. intros H. apply andb_true_iff in H as [-> H].
  now apply IH.
Qed.

(** X15.  White space around the reply plays no part: a reply with blanks,
    tabs or line breaks before and after it is parsed as the reply
    itself. *)
Theorem parse_response_ignores_blanks (before text after : string) :
  blank before = true -> blank after = true ->
  parse_response (before ++ text ++ after) = parse_response text.
Proof.
  intros Hb Ha. unfold parse_response.
  assert (Py.strip (before ++ text ++ after) = Py.strip text) as ->; [|reflexivity].
  rewrite <- (strip_app_blank text after Ha).
  unfold Py.strip. now rewrite lstrip_blank_app.
Qed.

End ReplyMore.

Lemma fenced_reply_tail_ignored_witness :
  parse_response ("```" ++ EmptyString ++ nl ++ "[1, 2]" ++ nl ++ "```" ++ " Done.")
  = Ok (VList [VInt 1; VInt 2]).
Proof.
  apply fenced_reply_tail_ignored; [now left | reflexivity | reflexivity].
Defined.

Lemma parse_response_ignores_blanks_witness :
  parse_response ("  " ++ "{}" ++ nl) = parse_response "{}".
Proof. apply parse_response_ignores_blanks; reflexivity. Defined.

(** ** The chat entry point *)

Section ChatMore.

Context {casing : Py.CaseMapping}.

Context {model : LanguageModel} {backend : SheetsBackend} {clock : Clock}
  {messages : ExceptionText}.

(** [chat], once the deals for the context are read. *)
Lemma chat_unfold (user_message : string) (st : sheet) (deals : list deal) :
  get_all_deals st = (Ok deals, st) ->
  chat user_message st =
  match process_command user_message deals with
  | Ok action_data =>
      match execute_action action_data st with
      | (Ok result, st') => (Ok result, st')
      | (Raise e, st') => (Ok (caught e), st')
      end
  | Raise e => (Ok (caught e), st)
  end.
Proof. intros Hread. unfold chat, bind. now rewrite Hread. Qed.

Lemma caught_starts_with_error (e : exn) :
  Py.startswith (caught e) "Error" = true.
Proof. destruct e; reflexivity. Qed.


(** X17.  Once the deals for the context are read, [chat] turns every
    exception of the interpreter and of the executor into text: it
    returns either the text the executor returned, in the sheet the
    executor left, or a text that begins with [Error], in the sheet as
    the failed step left it (the writes made before a failure stay). *)
Theorem chat_reports_errors (user_message : string) (st : sheet)
  (deals : list deal) :
  get_all_deals st = (Ok deals, st) ->
  exists text st',
    chat user_message st = (Ok text, st')
    /\ ((exists action_data,
            process_command user_message deals = Ok action_data
            /\ execute_action action_data st = (Ok text, st'))
        \/ (Py.startswith text "Error" = true
            /\ ((exists e, process_command user_message deals = Raise e
                           /\ st' = st)
                \/ exists action_data e,
                    process_command user_message deals = Ok action_data
                    /\ execute_action action_data st = (Raise e, st')))).
Proof.
  intros Hread. rewrite (chat_unfold _ _ _ Hread).
  destruct (process_command user_message deals) as [a|e] eqn:P.
  - destruct (execute_action a st) as [[text|e] st'] eqn:X.
    + exists text, st'. split; [reflexivity|]. left. now exists a.
    + exists (caught e), st'. split; [reflexivity|]. right.
      split; [apply caught_starts_with_error|]. right. now exists a, e.
  - exists (caught e), st. split; [reflexivity|]. right.
    split; [apply caught_starts_with_error|]. left. now exists e.
Qed.

Lemma chat_returns (user_message : string) (st : sheet) (deals : list deal) :
  get_all_deals st = (Ok deals, st) ->
  exists text st', chat user_message st = (Ok text, st').
Proof.
  intros Hread. rewrite (chat_unfold _ _ _ Hread).
  destruct (process_command user_message deals) as [a|e]; [|eauto].
  destruct (execute_action a st) as [[text|e] st']; eauto.
Qed.

(** ** The interactive loop *)

Lemma interactive_cons (line : string) (rest : list string) (st : sheet) :
  interactive (line :: rest) st =
  if is_quit_word (Py.strip line) then (["Goodbye!"], SaidGoodbye, st)
  else if String.eqb (Py.strip line) EmptyString then interactive rest st
  else
    match chat (Py.strip line) st with
    | (Ok response, st') =>
        let '(printed, ending, st'') := interactive rest st' in
        (("Bot: " ++ response) :: EmptyString :: printed, ending, st'')
    | (Raise e, st') => ([], Crashed e, st')
    end.
Proof. reflexivity. Qed.

(** X18.  A quit word ends the session: whatever is typed after it is
    never processed, so the lines printed and the sheet are those of the
    input cut after the quit word. *)
Theorem interactive_stops_at_quit (before after : list string) (line : string)
  (st : sheet) :
  is_quit_word (Py.strip line) = true ->
  interactive (before ++ line :: after) st = interactive (before ++ [line]) st.
Proof.
  intros Hq. revert st. induction before as [|l before IH]; intros st.
  - cbn [List.app]. rewrite !interactive_cons, Hq. reflexivity.
  - cbn [List.app]. rewrite !interactive_cons.
    destruct (is_quit_word (Py.strip l)); [reflexivity|].
    destruct (String.eqb (Py.strip l) EmptyString); [apply IH|].
    destruct (chat (Py.strip l) st) as [[response|e] st']; [|reflexivity].
    now rewrite IH.
Qed.

(** X19.  A line that is empty after stripping is passed over without any
    call of the model or of the store: the session is that of the input
    with such lines taken out. *)
Theorem interactive_skips_empty_lines (lines : list string) (st : sheet) :
  interactive lines st
  = interactive
      (filter (fun line => negb (String.eqb (Py.strip line) EmptyString)) lines) st.
Proof.
  revert st. induction lines as [|l lines IH]; intros st; [reflexivity|].
  cbn [filter].
  destruct (String.eqb (Py.strip l) EmptyString) eqn:E; cbn [negb].
  - rewrite interactive_cons, E.
    apply String.eqb_eq in E. rewrite E.
    assert (Hq : is_quit_word EmptyString = false)
      by (unfold is_quit_word; now rewrite lower_empty).
    rewrite Hq. apply IH.
  - rewrite !interactive_cons, E.
    destruct (is_quit_word (Py.strip l)); [reflexivity|].
    destruct (chat (Py.strip l) st) as [[response|e] st']; [|reflexivity].
    now rewrite IH.
Qed.

(** ** The chat platform *)

Lemma remove_mentions_plain (s : string) :
  PyValue.has_char "<" s = false -> Slack.remove_mentions 0 s = s.
Proof.
  induction s as [|c s IH]; [reflexivity|].
  cbn [PyValue.has_char]. intros H. apply orb_false_iff in H as [Hc H].
  cbn [Slack.remove_mentions].
  assert (Slack.mention_length (String c s) = None) as ->.
  { unfold Slack.mention_length. destruct s as [|b s]; [reflexivity|].
    rewrite Ascii.eqb_sym, Hc. reflexivity. }
  now rewrite (IH H).
Qed.

Lemma span_id_run (id rest : string) :
  all_id_chars id = true ->
  Slack.span_id (id ++ String ">" rest) = (String.length id, String ">" rest).
Proof.
  induction id as [|c id IH]; [reflexivity|].
  cbn [all_id_chars]. intros H. apply andb_true_iff in H as [Hc H].
  cbn [append Slack.span_id String.length]. now rewrite Hc, (IH H).
Qed.

Lemma remove_mentions_skip (s1 s2 : string) :
  Slack.remove_mentions (String.length s1) (s1 ++ s2) = Slack.remove_mentions 0 s2.
Proof. induction s1 as [|c s1 IH]; [reflexivity | exact IH]. Qed.

(** X20.  A mention at the head of a message is taken out: with a user id
    of one or more capital letters and digits, and a rest that holds no
    [<], the cleaned message is the rest, stripped. *)
Theorem clean_message_leading_mention (id rest : string) :
  id <> EmptyString ->
  all_id_chars id = true ->
  PyValue.has_char "<" rest = false ->
  Slack.clean_message ("<@" ++ id ++ ">" ++ rest) = Py.strip rest.
Proof.
  intros Hne Hid Hrest. unfold Slack.clean_message. f_equal.
  change ("<@" ++ id ++ ">" ++ rest)
    with (String "<" (String "@" (id ++ String ">" rest))).
  cbn [Slack.remove_mentions].
  assert (Slack.mention_length (String "<" (String "@" (id ++ String ">" rest)))
          = Some (String.length id + 3)) as ->.
  { unfold Slack.mention_length.
    change (Ascii.eqb "<" "<" && Ascii.eqb "@" "@") with true. cbv iota.
    rewrite (span_id_run _ _ Hid).
    destruct id as [|c id]; [contradiction|]. reflexivity. }
  replace (String.length id + 3 - 1) with (S (String.length id + 1)) by lia.
  cbn [Slack.remove_mentions].
  replace (String.length id + 1) with (String.length (id ++ ">")).
  - replace (id ++ String ">" rest) with ((id ++ ">") ++ rest)
      by (now rewrite append_assoc).
    rewrite remove_mentions_skip. now apply remove_mentions_plain.
  - clear. induction id as [|c id IH]; [reflexivity|].
    cbn [append String.length]. now rewrite IH.
Qed.

(** X21.  For an event whose text is a text, the mention handler says
    exactly one message.  When nothing is left of the text after
    cleaning, that message is the help text and neither the model nor the
    store is called; otherwise, once the deals for the context are read,
    it is the answer of [chat] to the cleaned text, in the sheet [chat]
    leaves. *)
Theorem handle_mention_says_once (event : dict) (text : string) (st : sheet) :
  Dict.get_default event "text" (VStr EmptyString) = VStr text ->
  (Slack.clean_message text = EmptyString ->
   Slack.handle_mention event st = (Slack.Said [Slack.help_text], st))
  /\ (Slack.clean_message text <> EmptyString ->
      forall deals,
        get_all_deals st = (Ok deals, st) ->
        exists message st',
          chat (Slack.clean_message text) st = (Ok message, st')
          /\ Slack.handle_mention event st = (Slack.Said [message], st')).
Proof.
  intros Ht. unfold Slack.handle_mention. rewrite Ht. split.
  - intros ->. reflexivity.
  - intros Hne deals Hread.
    destruct (String.eqb (Slack.clean_message text) EmptyString) eqn:E;
      [apply String.eqb_eq in E; contradiction|].
    destruct (chat_returns (Slack.clean_message text) st deals Hread)
      as (response & st' & ->).
    now exists response, st'.
Qed.

End ChatMore.

Section FrontMore.

Context {casing : Py.CaseMapping}.

Context {model : LanguageModel} {backend : SheetsBackend} {clock : Clock}
  {messages : ExceptionText}.

(** X22.  For an event whose text is a text, and once the deals for the
    context are read, the direct-message handler says at most one
    message.  When it says nothing (the message is not a direct one,
    comes from a bot, or is empty after stripping) the sheet is as it
    was; the message it says is the answer of [chat] to the stripped
    text. *)
Theorem handle_dm_says_at_most_once (event : dict) (text : string) (st : sheet)
  (deals : list deal) :
  Dict.get_default event "text" (VStr EmptyString) = VStr text ->
  get_all_deals st = (Ok deals, st) ->
  exists said st',
    Slack.handle_dm event st = (Slack.Said said, st')
    /\ List.length said <= 1
    /\ (said = [] -> st' = st)
    /\ (forall message,
           In message said ->
           is_text (Dict.get_default event "channel_type" VNone) "im" = true
           /\ PyValue.truthy (Dict.get_default event "bot_id" VNone) = false
           /\ Py.strip text <> EmptyString
           /\ chat (Py.strip text) st = (Ok message, st')).
Proof.
  intros Ht Hread. unfold Slack.handle_dm. rewrite Ht.
  destruct (is_text (Dict.get_default event "channel_type" VNone) "im");
    cbn [negb].
  - destruct (PyValue.truthy (Dict.get_default event "bot_id" VNone)).
    + exists [], st. repeat split; auto; contradiction.
    + destruct (String.eqb (Py.strip text) EmptyString) eqn:E.
      * exists [], st. repeat split; auto; contradiction.
      * destruct (chat_returns (Py.strip text) st deals Hread)
          as (response & st' & Hc).
        rewrite Hc. exists [response], st'.
        split; [reflexivity|]. split; [cbn; lia|]. split; [discriminate|].
        intros message [<-|[]].
        split; [reflexivity|]. split; [reflexivity|]. split; [|reflexivity].
        intros Hempty. rewrite Hempty in E. discriminate E.
  - exists [], st. repeat split; auto; contradiction.
Qed.

Lemma list_deals_text (s : string) (st : sheet) :
  s <> EmptyString ->
  list_deals (VStr s) st
  = (Ok (filter (fun d => ci_equal (text_of d "stage") s) (stored_deals st)), st).
Proof.
  intros Hs. unfold list_deals, bind. rewrite get_all_deals_reads.
  assert (PyValue.truthy (VStr s) = true) as ->.
  { cbn. destruct s; [contradiction | reflexivity]. }
  unfold lift. now rewrite filter_stage_spec by apply stored_deals_keep.
Qed.

(** X23.  The list action with a stage filter answers [No deals found.]
    exactly when no stored deal has that stage, letter case set aside;
    otherwise its answer begins with the count of the deals listed. *)
Theorem execute_list_no_deals (fields : dict) (s : string) (st : sheet) :
  Dict.get_default fields "action" VNone = VStr "list" ->
  Dict.get fields "filter_stage" = Some (VStr s) ->
  s <> EmptyString ->
  (fst (execute_action (VDict fields) st) = Ok "No deals found."
   <-> forall d, In d (stored_deals st) -> ci_equal (text_of d "stage") s = false)
  /\ exists answer,
      fst (execute_action (VDict fields) st) = Ok answer
      /\ (answer = "No deals found."
          \/ Py.startswith answer
               ("Found "
                  ++ Py.str_of_Z
                       (Z.of_nat
                          (List.length
                             (filter (fun d => ci_equal (text_of d "stage") s)
                                     (stored_deals st))))
                  ++ " deal(s):")
             = true).
Proof.
  intros Ha Hf Hs.
  assert (Hrun : execute_action (VDict fields) st =
                 match filter (fun d => ci_equal (text_of d "stage") s)
                              (stored_deals st) with
                 | [] => (Ok "No deals found.", st)
                 | deals =>
                     (Ok ("Found " ++ Py.str_of_Z (Z.of_nat (List.length deals))
                            ++ " deal(s):" ++ nl ++ listing deals), st)
                 end).
  { unfold execute_action. rewrite Ha.
    change (is_text (VStr "list") "update") with false.
    change (is_text (VStr "list") "add") with false.
    change (is_text (VStr "list") "list") with true. cbv iota.
    unfold Dict.get_default. rewrite Hf.
    unfold bind. rewrite (list_deals_text _ _ Hs).
    now destruct (filter _ _). }
  rewrite Hrun.
  destruct (filter (fun d => ci_equal (text_of d "stage") s) (stored_deals st))
    as [|d0 kept] eqn:F.
  - split.
    + split; [|reflexivity]. intros _ d Hin.
      destruct (ci_equal (text_of d "stage") s) eqn:E; [|reflexivity].
      assert (In d []) as []. rewrite <- F. apply filter_In. now split.
    + exists "No deals found.". split; [reflexivity | now left].
  - split.
    + split.
      * cbn [fst]. intros H. injection H as H. discriminate H.
      * intros Hall. exfalso.
        assert (Hin : In d0 (d0 :: kept)) by now left.
        rewrite <- F in Hin. apply filter_In in Hin as [Hin E].
        rewrite (Hall d0 Hin) in E. discriminate E.
    + eexists. split; [reflexivity|]. right.
      apply startswith_iff.
      exists (nl ++ listing (d0 :: kept)).
      now rewrite !append_assoc.
Qed.

End FrontMore.


Lemma chat_reports_errors_witness :
  exists text st',
    @chat ascii_text (constant_model "{}") plain_backend fixed_clock
      plain_exception_text "hello" sample_sheet
    = (Ok text, st').
Proof.
  destruct (@chat_reports_errors ascii_text (constant_model "{}") plain_backend
              fixed_clock plain_exception_text "hello" sample_sheet
              (stored_deals sample_sheet) eq_refl)
    as (text & st' & Hrun & _).
  now exists text, st'.
Defined.

Lemma interactive_stops_at_quit_witness :
  @interactive ascii_text (constant_model "{}") plain_backend fixed_clock plain_exception_text
    ["hello"; " Quit "; "delete everything"] sample_sheet
  = (["Bot: Unknown action: None"; EmptyString; "Goodbye!"], SaidGoodbye, sample_sheet).
Proof.
  pose proof (@interactive_stops_at_quit ascii_text (constant_model "{}") plain_backend
                fixed_clock plain_exception_text ["hello"] ["delete everything"]
                " Quit " sample_sheet eq_refl) as H.
  cbn [List.app] in H. rewrite H. vm_compute. reflexivity.
Defined.

Lemma clean_message_leading_mention_witness :
  Slack.clean_message ("<@" ++ "U02ABC" ++ ">" ++ " move Acme to Won ")
  = "move Acme to Won".
Proof.
  rewrite clean_message_leading_mention; [reflexivity | discriminate | reflexivity ..].
Defined.

Lemma handle_mention_says_once_witness :
  @Slack.handle_mention ascii_text (constant_model "{}") plain_backend fixed_clock
    plain_exception_text [("text", VStr "<@U02ABC>  ")] sample_sheet
  = (Slack.Said [Slack.help_text], sample_sheet)
  /\ @Slack.handle_mention ascii_text (constant_model "{}") plain_backend fixed_clock
       plain_exception_text [("text", VStr "<@U02ABC> hello")] sample_sheet
     = (Slack.Said ["Unknown action: None"], sample_sheet).
Proof.
  split.
  - apply (@handle_mention_says_once ascii_text (constant_model "{}") plain_backend
             fixed_clock plain_exception_text
             [("text", VStr "<@U02ABC>  ")] "<@U02ABC>  " sample_sheet eq_refl).
    reflexivity.
  - destruct (@handle_mention_says_once ascii_text (constant_model "{}") plain_backend
                fixed_clock plain_exception_text
                [("text", VStr "<@U02ABC> hello")] "<@U02ABC> hello" sample_sheet
                eq_refl) as [_ H].
    destruct (H ltac:(discriminate) (stored_deals sample_sheet) eq_refl)
      as (message & st' & Hc & ->).
    vm_compute in Hc. now injection Hc as <- <-.
Defined.

Lemma handle_dm_says_at_most_once_witness :
  exists said st',
    @Slack.handle_dm ascii_text (constant_model "{}") plain_backend fixed_clock
      plain_exception_text
      [("channel_type", VStr "im"); ("bot_id", VStr "B01"); ("text", VStr "hi")]
      sample_sheet
    = (Slack.Said said, st')
    /\ List.length said <= 1.
Proof.
  destruct (@handle_dm_says_at_most_once ascii_text (constant_model "{}") plain_backend
              fixed_clock plain_exception_text
              [("channel_type", VStr "im"); ("bot_id", VStr "B01"); ("text", VStr "hi")]
              "hi" sample_sheet (stored_deals sample_sheet) eq_refl eq_refl)
    as (said & st' & Hrun & Hlen & _).
  exists said, st'. split; [exact Hrun | exact Hlen].
Defined.

Lemma execute_list_no_deals_witness :
  fst (@execute_action ascii_text plain_backend fixed_clock
         (VDict [("action", VStr "list"); ("filter_stage", VStr "won")])
         sample_sheet)
  = Ok "No deals found.".
Proof.
  apply (proj1 (@execute_list_no_deals ascii_text plain_backend fixed_clock
                  [("action", VStr "list"); ("filter_stage", VStr "won")]
                  "won" sample_sheet eq_refl eq_refl ltac:(discriminate))).
  intros d Hin. vm_compute in Hin.
  destruct Hin as [<-|[<-|[]]]; reflexivity.
Defined.
